(** * assistant-client-js: the retrieval-augmented chat pipeline

    A shallow embedding of the TypeScript sources of the assistant client
    (repositories over the Supabase store, the knowledge, personality and
    AI services, and the [AssistantAI] orchestrator) and of the chunking
    of its embedding script, followed by the properties its specification
    states about them and by further properties of the code.

    Conventions of the embedding:
    - a JavaScript [number] is an IEEE-754 binary64 value, the kernel's
      primitive [float]; the arithmetic of [cosineSimilarity] is written
      once over an interface of number operations, and read at binary64
      (what the program runs) and at the real numbers (exact arithmetic);
    - a JavaScript string is a [string]; [substring] and [length] count
      its characters as the program counts UTF-16 units, which agrees on
      ASCII text. Uuids are strings, timestamps are milliseconds since the
      epoch, keys of rows ([BIGSERIAL]) and counters are in [Z], limits of
      result counts are in [nat];
    - an optional field ([x?: T], [undefined], SQL NULL) is an [option];
    - [async] code is sequential: every [await] is a step of a state and
      error monad over the [World], the store's tables with the service
      instance's private fields; the two searches of a [Promise.all] run
      one after the other;
    - whatever the program obtains from outside (store faults, generated
      uuids, clock readings, the OpenAI endpoints, the full-text engine,
      [JSON.parse]) is read from an environment [Env], one answer per
      step of a global step counter. *)

From Stdlib Require Import List String Ascii Bool Arith ZArith Lia DecimalString.
From Stdlib Require Import Floats Reals Lra Psatz Sorted Permutation.
Import ListNotations.

Set Implicit Arguments.
Set Warnings "-abstract-large-number".

Local Open Scope string_scope.
Local Open Scope list_scope.

(* ================================================================== *)
(** * JavaScript values used by the program *)
(* ================================================================== *)

(** ** Numbers

    The operations [cosineSimilarity] applies to numbers. [undef] is the
    value of [undefined] coerced to a number (NaN at binary64). *)
Class JsArith (N : Type) : Type := {
  num_zero : N;
  num_add : N -> N -> N;
  num_mul : N -> N -> N;
  num_div : N -> N -> N;
  num_sqrt : N -> N;
  num_is_zero : N -> bool;      (* [x === 0] *)
  num_undef : N
}.

(** binary64, the arithmetic of the running program, [Math.sqrt] being
    the correctly rounded square root the engines compute. [x === 0] holds
    of both zeros and of no NaN, as [PrimFloat.eqb] does. *)
#[export] Instance float_arith : JsArith float := {
  num_zero := 0%float;
  num_add := PrimFloat.add;
  num_mul := PrimFloat.mul;
  num_div := PrimFloat.div;
  num_sqrt := PrimFloat.sqrt;
  num_is_zero := fun x => PrimFloat.eqb x 0%float;
  num_undef := PrimFloat.nan
}.

(** The real numbers: the same operations without rounding. *)
#[export] Instance real_arith : JsArith R := {
  num_zero := 0%R;
  num_add := Rplus;
  num_mul := Rmult;
  num_div := Rdiv;
  num_sqrt := sqrt;
  num_is_zero := fun x => if Req_dec_T x 0%R then true else false;
  num_undef := 0%R
}.

(** [Array.prototype.reduce((acc, val, i) => ..., init)]: a left fold that
    also passes the index. *)
Fixpoint reduce_from {A B : Type} (f : B -> A -> nat -> B)
         (l : list A) (i : nat) (acc : B) : B :=
  match l with
  | [] => acc
  | val :: rest => reduce_from f rest (S i) (f acc val i)
  end.

Definition reduce {A B : Type} (f : B -> A -> nat -> B) (l : list A) (init : B) : B :=
  reduce_from f l 0 init.

(** [b[i]] read as a number: out of range it is [undefined]. *)
Definition index_num {N : Type} `{JsArith N} (b : list N) (i : nat) : N :=
  nth i b num_undef.

(** ** Values of a stored column or a parsed JSON text

    [JsArray] is an array of numbers; [JsOther truthy] stands for any value
    that is not null, a string or an array (a number, a boolean, an
    object), with its truthiness. *)
Inductive JsValue : Type :=
| JsNull
| JsString (s : string)
| JsArray (xs : list float)
| JsOther (truthy : bool).

Definition truthy (v : JsValue) : bool :=
  match v with
  | JsNull => false
  | JsString s => negb (String.eqb s "")
  | JsArray _ => true
  | JsOther t => t
  end.

(** Truthiness of an optional string: [undefined] and [""] are falsy. *)
Definition truthy_str (s : option string) : bool :=
  match s with
  | Some x => negb (String.eqb x "")
  | None => false
  end.

(** [s || d] on an optional string. *)
Definition or_default (s : option string) (d : string) : string :=
  match s with
  | Some x => if String.eqb x "" then d else x
  | None => d
  end.

(** [s.substring(0, n)]. *)
Fixpoint substring0 (n : nat) (s : string) : string :=
  match n, s with
  | S n', String c rest => String c (substring0 n' rest)
  | _, _ => ""
  end.

(** [xs.slice(0, n)] for [n >= 0], and [xs.slice(0, -1)]. *)
Definition slice0 {A : Type} (n : nat) (xs : list A) : list A := firstn n xs.
Definition slice_drop_last {A : Type} (xs : list A) : list A := removelast xs.

(* ================================================================== *)
(** * Similarity engine: [KnowledgeRepository.cosineSimilarity] *)
(* ================================================================== *)

Module Similarity.
Section WithArith.
Context {N : Type} `{JsArith N}.

Definition dotProduct (a b : list N) : N :=
  reduce (fun sum val i => num_add sum (num_mul val (index_num b i))) a num_zero.

Definition magnitude (a : list N) : N :=
  num_sqrt (reduce (fun sum val (_ : nat) => num_add sum (num_mul val val)) a num_zero).

(** The body of [cosineSimilarity] once both arguments are arrays. *)
Definition cosine (a b : list N) : N :=
  if negb (Nat.eqb (List.length a) (List.length b)) then num_zero
  else
    let dotProduct := dotProduct a b in
    let magnitudeA := magnitude a in
    let magnitudeB := magnitude b in
    if num_is_zero magnitudeA || num_is_zero magnitudeB then num_zero
    else num_div dotProduct (num_mul magnitudeA magnitudeB).
End WithArith.
End Similarity.

(** [cosineSimilarity(a, b)] as the program runs it: 0 unless both
    arguments are arrays of one length. *)
Definition cosineSimilarity (a b : JsValue) : float :=
  match a, b with
  | JsArray xs, JsArray ys => Similarity.cosine xs ys
  | _, _ => 0%float
  end.

(** The same function in exact arithmetic. *)
Definition cosineSimilarity_exact (a b : list R) : R := Similarity.cosine a b.

(* ================================================================== *)
(** * Results, store answers and the entities of the data model *)
(* ================================================================== *)

(** A call either returns or throws [new Error(message)]. *)
Inductive Result (A : Type) : Type :=
| Ok (a : A)
| Err (message : string).
Arguments Ok {A} a.
Arguments Err {A} message.

(** The [error] of a store answer: [PGRST116] is what [.single()] reports
    when the query selected no row or several; any other failure of the
    call is a [DbFault]. *)
Inductive DbError : Type :=
| PGRST116
| DbFault (message : string).

Definition error_message (e : DbError) : string :=
  match e with
  | PGRST116 => "JSON object requested, multiple (or no) rows returned"
  | DbFault m => m
  end.

(** The answer [{ data, error }] of a store call. *)
Inductive DbResult (A : Type) : Type :=
| DbData (data : A)
| DbError_ (error : DbError).
Arguments DbData {A} data.
Arguments DbError_ {A} error.

Inductive Role : Type := user | assistant | system.
Inductive Status : Type := generating | completed | stopped | failed.
Inductive KnowledgeType : Type := folder | document | file | url | url_directory.

(** [Record<string, any>] supplied by the caller as [context]. *)
Definition Context : Type := list (string * string).

(** Values stored under the keys of a message's [metadata]. *)
Inductive MetaValue : Type :=
| MetaBool (b : bool)
| MetaNumber (n : nat)
| MetaContext (c : Context).

Definition Metadata : Type := list (string * MetaValue).

(** Timestamps are milliseconds since the epoch; the store orders its
    [TIMESTAMPTZ] columns as these numbers. *)
Definition Timestamp : Type := Z.

(** ** Rows of the tables of [schema.sql] *)

Record ConversationRow : Type := {
  conv_id : Z;
  conv_uuid : string;
  creator_id : string;
  conv_title : string;
  message_count : Z;
  conv_created_at : Timestamp;
  conv_updated_at : Timestamp;
  deleted_at : option Timestamp
}.

Record MessageRow : Type := {
  msg_id : Z;
  msg_uuid : string;
  conversation_id : Z;
  parent_message_id : option Z;
  msg_type : Role;
  msg_content : string;
  msg_status : Status;
  msg_metadata : Metadata;
  msg_created_at : Timestamp;
  msg_updated_at : Timestamp
}.

Record KnowledgeRow : Type := {
  know_id : Z;
  know_uuid : string;
  parent_id : option Z;
  know_title : string;
  know_description : option string;
  know_type : KnowledgeType;
  know_content : option string;
  file_url : option string;
  file_size : option Z;
  file_type : option string;
  know_metadata : Context;
  embedding : JsValue;
  processed_at : option Timestamp;
  created_by : string;
  know_created_at : Timestamp;
  know_updated_at : Timestamp
}.

(** [metadata] of a personality row: [{ tone, domain }] or [{}]. *)
Record PersonalityMeta : Type := {
  meta_tone : option string;
  meta_domain : option string
}.

Record PersonalityRow : Type := {
  pers_id : Z;
  pers_uuid : string;
  pers_name : string;
  pers_description : option string;
  system_prompt : string;
  pers_metadata : PersonalityMeta;
  last_built_at : Timestamp
}.

(** ** Objects of [types/index.ts] *)

Record Conversation : Type := {
  c_uuid : string;
  c_creatorId : string;
  c_title : string;
  c_messageCount : Z;
  c_createdAt : Timestamp;
  c_updatedAt : Timestamp;
  c_deletedAt : option Timestamp
}.

(** [parentMessageId] is declared a string; [mapRow] puts the row's
    [parent_message_id] there, the store's key of the parent row. *)
Record Message : Type := {
  m_uuid : string;
  m_conversationId : string;
  m_parentMessageId : option Z;
  m_type : Role;
  m_content : string;
  m_status : Status;
  m_metadata : Metadata;
  m_createdAt : Timestamp;
  m_updatedAt : Timestamp
}.

Record KnowledgeItemInput : Type := {
  ki_parentId : option string;
  ki_title : string;
  ki_description : option string;
  ki_type : KnowledgeType;
  ki_content : option string;
  ki_fileUrl : option string;
  ki_fileSize : option Z;
  ki_fileType : option string;
  ki_metadata : option Context;
  ki_createdBy : string
}.

(** [Partial<KnowledgeItemInput>]: every field may be absent. *)
Record KnowledgeItemUpdates : Type := {
  up_parentId : option string;
  up_title : option string;
  up_description : option string;
  up_type : option KnowledgeType;
  up_content : option string;
  up_fileUrl : option string;
  up_fileSize : option Z;
  up_fileType : option string;
  up_metadata : option Context;
  up_createdBy : option string
}.

Record SearchResult : Type := {
  sr_uuid : string;
  sr_title : string;
  sr_description : option string;
  sr_content : option string;
  sr_type : KnowledgeType;
  sr_score : float;
  sr_metadata : Context
}.

Record PersonalityProfile : Type := {
  pp_name : string;
  pp_description : option string;
  pp_tone : option string;
  pp_domain : option string
}.

Record Personality : Type := {
  p_uuid : string;
  p_name : string;
  p_description : option string;
  p_systemPrompt : string;
  p_metadata : PersonalityMeta;
  p_lastBuiltAt : Timestamp
}.

(** [BuildPersonalityOutput]; the profile read back from a stored row has
    the row's fields, any of which may be null. *)
Record BuildPersonalityOutput : Type := {
  bp_systemPrompt : string;
  bp_profile : PersonalityProfile
}.

Inductive StreamEvent : Type :=
| ev_start (conversationId : string)
| ev_delta (content : string)
| ev_final (content messageId conversationId : string)
| ev_error (error : string).

Record SendMessageInput : Type := {
  in_message : string;
  in_conversationId : option string;
  in_userId : option string;
  in_context : option Context
}.

Record SendMessageOutput : Type := {
  out_content : string;
  out_conversationId : string;
  out_messageId : string
}.

Record KnowledgeItem : Type := {
  k_uuid : string;
  k_parentId : option Z;
  k_title : string;
  k_description : option string;
  k_type : KnowledgeType;
  k_content : option string;
  k_fileUrl : option string;
  k_fileSize : option Z;
  k_fileType : option string;
  k_metadata : Context;
  k_embedding : JsValue;
  k_processedAt : option Timestamp;
  k_createdBy : string;
  k_createdAt : Timestamp;
  k_updatedAt : Timestamp
}.

(** [ChatMessage]: one prior turn handed to the model. *)
Record ChatMessage : Type := {
  cm_role : Role;
  cm_content : string
}.

(** What the program sends to the model provider, kept as a trace. *)
Inductive Request : Type :=
| req_chat (stream : bool) (messages : list ChatMessage)
| req_embedding (input : string).

(** [config.personality]. *)
Record PersonalityConfig : Type := {
  cfg_name : option string;
  cfg_tone : option string;
  cfg_customInstructions : option string
}.

(* ================================================================== *)
(** * The environment and the world *)
(* ================================================================== *)

(** Everything decided outside the program. The fields indexed by a step
    number answer the call issued at that step:
    - [db_fault n]: the store call fails (network, permission, ...) with
      this message instead of being executed;
    - [gen_random_uuid n]: the [uuid] column default of a row inserted;
    - [Date_now n]: the clock, in milliseconds;
    - [embeddings_create n]: the embeddings endpoint, a vector or a
      failure;
    - [chat_create n]: the chat completion endpoint, the content of the
      first choice (possibly absent) or a failure;
    - [chat_stream n]: the streamed completion, the content of each chunk
      (possibly absent) and the failure that ends the stream, if any.
    [textSearch] is the store's full-text match of a query against a row,
    [JSON_parse] is [JSON.parse] ([Err] when it throws a SyntaxError),
    [defaultPersonality] is the [personality] entry of the configuration
    the instance was constructed with. *)
Record Env : Type := {
  db_fault : nat -> option string;
  gen_random_uuid : nat -> string;
  Date_now : nat -> Timestamp;
  embeddings_create : nat -> Result (list float);
  chat_create : nat -> Result (option string);
  chat_stream : nat -> list (option string) * option string;
  textSearch : string -> KnowledgeRow -> bool;
  JSON_parse : string -> Result JsValue;
  defaultPersonality : option PersonalityConfig
}.

(** A table: its rows in insertion order and the next value of its
    [BIGSERIAL] key. *)
Record Table (R : Type) : Type := {
  rows : list R;
  next_id : Z
}.

Record Store : Type := {
  conversations : Table ConversationRow;
  messages : Table MessageRow;
  knowledge_items : Table KnowledgeRow;
  personality : Table PersonalityRow
}.

(** The entry of [SimpleCache] under its only key, ['personality']. *)
Record CacheEntry : Type := {
  ce_value : BuildPersonalityOutput;
  ce_expiresAt : Timestamp
}.

(** The state a call runs in: the step counter, the store, the fields of
    the [AssistantAI] instance that change ([initialized], the personality
    cache), the requests sent to the model provider so far and the events
    a stream has yielded so far. *)
Record World : Type := {
  step : nat;
  store : Store;
  cache : option CacheEntry;
  initialized : bool;
  requests : list Request;
  yielded : list StreamEvent
}.

Definition set_step (n : nat) (w : World) : World :=
  {| step := n; store := store w; cache := cache w; initialized := initialized w;
     requests := requests w; yielded := yielded w |}.
Definition set_store (s : Store) (w : World) : World :=
  {| step := step w; store := s; cache := cache w; initialized := initialized w;
     requests := requests w; yielded := yielded w |}.
Definition set_cache (c : option CacheEntry) (w : World) : World :=
  {| step := step w; store := store w; cache := c; initialized := initialized w;
     requests := requests w; yielded := yielded w |}.
Definition set_initialized (b : bool) (w : World) : World :=
  {| step := step w; store := store w; cache := cache w; initialized := b;
     requests := requests w; yielded := yielded w |}.
Definition set_requests (r : list Request) (w : World) : World :=
  {| step := step w; store := store w; cache := cache w; initialized := initialized w;
     requests := r; yielded := yielded w |}.
Definition set_yielded (y : list StreamEvent) (w : World) : World :=
  {| step := step w; store := store w; cache := cache w; initialized := initialized w;
     requests := requests w; yielded := y |}.

Definition set_conversations (t : Table ConversationRow) (s : Store) : Store :=
  {| conversations := t; messages := messages s;
     knowledge_items := knowledge_items s; personality := personality s |}.
Definition set_messages (t : Table MessageRow) (s : Store) : Store :=
  {| conversations := conversations s; messages := t;
     knowledge_items := knowledge_items s; personality := personality s |}.
Definition set_knowledge_items (t : Table KnowledgeRow) (s : Store) : Store :=
  {| conversations := conversations s; messages := messages s;
     knowledge_items := t; personality := personality s |}.
Definition set_personality (t : Table PersonalityRow) (s : Store) : Store :=
  {| conversations := conversations s; messages := messages s;
     knowledge_items := knowledge_items s; personality := t |}.

(* ================================================================== *)
(** * The monad of calls: environment, state and exceptions *)
(* ================================================================== *)

(** A call reads the environment, transforms the world and returns or
    throws; what it did to the world before throwing stays done. *)
Definition M (A : Type) : Type := Env -> World -> Result A * World.

Definition ret {A : Type} (a : A) : M A := fun _ w => (Ok a, w).

Definition bind {A B : Type} (m : M A) (k : A -> M B) : M B :=
  fun env w =>
    match m env w with
    | (Ok a, w') => k a env w'
    | (Err e, w') => (Err e, w')
    end.

Definition throw {A : Type} (message : string) : M A := fun _ w => (Err message, w).

(** [try { body } catch (error) { handler(error.message) }]. *)
Definition try_catch {A : Type} (body : M A) (handler : string -> M A) : M A :=
  fun env w =>
    match body env w with
    | (Ok a, w') => (Ok a, w')
    | (Err e, w') => handler e env w'
    end.

Declare Scope call_scope.
Delimit Scope call_scope with call.
Notation "x <- m ;; k" := (bind m (fun x => k))
  (at level 61, m at next level, right associativity) : call_scope.
Notation "m ;; k" := (bind m (fun _ => k))
  (at level 61, right associativity) : call_scope.
Local Open Scope call_scope.

(** The answer of the environment at the current step; the step is used. *)
Definition ask {A : Type} (f : Env -> nat -> A) : M A :=
  fun env w => (Ok (f env (step w)), set_step (S (step w)) w).

Definition config {A : Type} (f : Env -> A) : M A := fun env w => (Ok (f env), w).

Definition get {A : Type} (f : World -> A) : M A := fun _ w => (Ok (f w), w).
Definition modify (f : World -> World) : M unit := fun _ w => (Ok tt, f w).

(** [new Date()] / [Date.now()]. *)
Definition new_Date : M Timestamp := ask Date_now.

(** [yield event] of an async generator consumed to completion. *)
Definition yield (event : StreamEvent) : M unit :=
  modify (fun w => set_yielded (yielded w ++ [event]) w).

Definition send (r : Request) : M unit :=
  modify (fun w => set_requests (requests w ++ [r]) w).

(** One call to the store: it takes a step; if the environment faults the
    call nothing is executed and the answer carries the error, otherwise
    [run] is executed on the store with the uuid generated at this step. *)
Definition store_call {A : Type}
           (run : string -> Store -> DbResult A * Store) : M (DbResult A) :=
  fun env w =>
    let n := step w in
    let w1 := set_step (S n) w in
    match db_fault env n with
    | Some m => (Ok (DbError_ (DbFault m)), w1)
    | None =>
        let (answer, s') := run (gen_random_uuid env n) (store w) in
        (Ok answer, set_store s' w1)
    end.

(** ** The query builder *)

(** [.single()]: exactly one row, or [PGRST116]. *)
Definition single {R : Type} (selected : list R) : DbResult R :=
  match selected with
  | [r] => DbData r
  | _ => DbError_ PGRST116
  end.

(** [.select(...)] with its filters: a read of the store. *)
Definition select {R : Type} (q : Store -> list R) : M (DbResult (list R)) :=
  store_call (fun _ s => (DbData (q s), s)).

Definition select_single {R : Type} (q : Store -> list R) : M (DbResult R) :=
  store_call (fun _ s => (single (q s), s)).

(** [.insert(values).select().single()]: the row takes the next key of
    the table and the generated uuid; the key and the uuid are unique in
    the table, or the insertion is refused. The key is used either way. *)
Definition insert {R : Type}
           (table : Store -> Table R) (set_table : Table R -> Store -> Store)
           (key : R -> Z) (uuid : R -> string)
           (values : Z -> string -> R) : M (DbResult R) :=
  store_call (fun generated s =>
    let t := table s in
    let row := values (next_id t) generated in
    if existsb (fun r => Z.eqb (key r) (key row) || String.eqb (uuid r) (uuid row)) (rows t)
    then (DbError_ (DbFault "duplicate key value violates unique constraint"),
          set_table {| rows := rows t; next_id := next_id t + 1 |} s)
    else (DbData row,
          set_table {| rows := rows t ++ [row]; next_id := next_id t + 1 |} s)).

(** [.update(values).eq(...)]: every selected row is rewritten; [check]
    is the column constraint the new values must meet. *)
Definition update {R : Type}
           (table : Store -> Table R) (set_table : Table R -> Store -> Store)
           (selected : R -> bool) (values : R -> R) (check : bool) : M (DbResult unit) :=
  store_call (fun _ s =>
    let t := table s in
    if check
    then (DbData tt,
          set_table {| rows := map (fun r => if selected r then values r else r) (rows t);
                       next_id := next_id t |} s)
    else (DbError_ (DbFault "value out of range for the column type"), s)).

(** [.delete().neq(...)] and [.delete().eq(...)]: the selected rows go. *)
Definition delete {R : Type}
           (table : Store -> Table R) (set_table : Table R -> Store -> Store)
           (selected : R -> bool) : M (DbResult unit) :=
  store_call (fun _ s =>
    let t := table s in
    (DbData tt,
     set_table {| rows := filter (fun r => negb (selected r)) (rows t);
                  next_id := next_id t |} s)).

(** [.order(column)]: a stable insertion sort; [before y x] says that [y]
    must come strictly before [x]. Rows that compare equal keep the order
    of the table. *)
Fixpoint insert_by {A : Type} (before : A -> A -> bool) (x : A) (l : list A) : list A :=
  match l with
  | [] => [x]
  | y :: rest => if before y x then y :: insert_by before x rest else x :: y :: rest
  end.

Definition sort_by {A : Type} (before : A -> A -> bool) (l : list A) : list A :=
  fold_right (insert_by before) [] l.

Definition ascending {A : Type} (column : A -> Z) (l : list A) : list A :=
  sort_by (fun y x => Z.ltb (column y) (column x)) l.
Definition descending {A : Type} (column : A -> Z) (l : list A) : list A :=
  sort_by (fun y x => Z.ltb (column x) (column y)) l.

(** [.limit(n)]. *)
Definition limit {A : Type} (n : nat) (l : list A) : list A := firstn n l.

(* ================================================================== *)
(** * Repositories *)
(* ================================================================== *)

Module ConversationRepository.

Definition mapRow (row : ConversationRow) : Conversation :=
  {| c_uuid := conv_uuid row;
     c_creatorId := creator_id row;
     c_title := conv_title row;
     c_messageCount := message_count row;     (* [row.message_count || 0] *)
     c_createdAt := conv_created_at row;
     c_updatedAt := conv_updated_at row;
     c_deletedAt := deleted_at row |}.

Definition by_uuid (conversationId : string) (s : Store) : list ConversationRow :=
  filter (fun r => String.eqb (conv_uuid r) conversationId) (rows (conversations s)).

(** [.eq('uuid', conversationId).is('deleted_at', null)]. *)
Definition live_by_uuid (conversationId : string) (s : Store) : list ConversationRow :=
  filter (fun r => match deleted_at r with None => true | Some _ => false end)
         (by_uuid conversationId s).

(** The range of the [INTEGER] column [message_count]. *)
Definition int4 (n : Z) : bool := (Z.leb (-2147483648) n && Z.leb n 2147483647)%bool.

Definition create (userId title : string) : M Conversation :=
  created_at <- new_Date ;;
  updated_at <- new_Date ;;
  answer <- insert conversations set_conversations conv_id conv_uuid
              (fun id uuid =>
                 {| conv_id := id; conv_uuid := uuid; creator_id := userId;
                    conv_title := title; message_count := 0;
                    conv_created_at := created_at; conv_updated_at := updated_at;
                    deleted_at := None |}) ;;
  match answer with
  | DbError_ error => throw ("Failed to create conversation: " ++ error_message error)
  | DbData data => ret (mapRow data)
  end.

Definition getById (conversationId : string) : M (option Conversation) :=
  answer <- select_single (live_by_uuid conversationId) ;;
  match answer with
  | DbError_ PGRST116 => ret None
  | DbError_ error => throw ("Failed to get conversation: " ++ error_message error)
  | DbData data => ret (Some (mapRow data))
  end.

Definition updateMessageCount (conversationId : string) (count : Z) : M unit :=
  updated_at <- new_Date ;;
  answer <- update conversations set_conversations
              (fun r => String.eqb (conv_uuid r) conversationId)
              (fun r =>
                 {| conv_id := conv_id r; conv_uuid := conv_uuid r;
                    creator_id := creator_id r; conv_title := conv_title r;
                    message_count := count;
                    conv_created_at := conv_created_at r; conv_updated_at := updated_at;
                    deleted_at := deleted_at r |})
              (int4 count) ;;
  match answer with
  | DbError_ error => throw ("Failed to update conversation: " ++ error_message error)
  | DbData _ => ret tt
  end.

(** [.eq('creator_id', userId).is('deleted_at', null)
    .order('updated_at', { ascending: false })]. *)
Definition live_of_user (userId : string) (s : Store) : list ConversationRow :=
  descending conv_updated_at
    (filter (fun r => match deleted_at r with None => true | Some _ => false end)
       (filter (fun r => String.eqb (creator_id r) userId) (rows (conversations s)))).

Definition listByUser (userId : string) : M (list Conversation) :=
  answer <- select (live_of_user userId) ;;
  match answer with
  | DbError_ error => throw ("Failed to list conversations: " ++ error_message error)
  | DbData data => ret (map mapRow data)
  end.

Definition updateTitle (conversationId title : string) : M unit :=
  updated_at <- new_Date ;;
  answer <- update conversations set_conversations
              (fun r => String.eqb (conv_uuid r) conversationId)
              (fun r =>
                 {| conv_id := conv_id r; conv_uuid := conv_uuid r;
                    creator_id := creator_id r; conv_title := title;
                    message_count := message_count r;
                    conv_created_at := conv_created_at r; conv_updated_at := updated_at;
                    deleted_at := deleted_at r |})
              true ;;
  match answer with
  | DbError_ error => throw ("Failed to update conversation title: " ++ error_message error)
  | DbData _ => ret tt
  end.

(** The deletion is soft: the row stays, with [deleted_at] set. *)
Definition delete_ (conversationId : string) : M bool :=
  deleted <- new_Date ;;
  answer <- update conversations set_conversations
              (fun r => String.eqb (conv_uuid r) conversationId)
              (fun r =>
                 {| conv_id := conv_id r; conv_uuid := conv_uuid r;
                    creator_id := creator_id r; conv_title := conv_title r;
                    message_count := message_count r;
                    conv_created_at := conv_created_at r;
                    conv_updated_at := conv_updated_at r;
                    deleted_at := Some deleted |})
              true ;;
  match answer with
  | DbError_ error => throw ("Failed to delete conversation: " ++ error_message error)
  | DbData _ => ret true
  end.

End ConversationRepository.

Module MessageRepository.

Definition mapRow (row : MessageRow) (conversationId : string) : Message :=
  {| m_uuid := msg_uuid row;
     m_conversationId := conversationId;
     m_parentMessageId := parent_message_id row;
     m_type := msg_type row;
     m_content := msg_content row;
     m_status := msg_status row;
     m_metadata := msg_metadata row;
     m_createdAt := msg_created_at row;
     m_updatedAt := msg_updated_at row |}.

Definition by_uuid (messageId : string) (s : Store) : list MessageRow :=
  filter (fun r => String.eqb (msg_uuid r) messageId) (rows (messages s)).

Definition of_conversation (id : Z) (s : Store) : list MessageRow :=
  filter (fun r => Z.eqb (conversation_id r) id) (rows (messages s)).

Definition create (conversationId : string) (type : Role) (content : string)
           (parentMessageId : option string) (metadata : option Metadata) : M Message :=
  (* Get conversation internal ID *)
  conv <- select_single (ConversationRepository.by_uuid conversationId) ;;
  match conv with
  | DbError_ convError => throw ("Conversation not found: " ++ error_message convError)
  | DbData convData =>
      (* Get parent message internal ID if provided *)
      parentId <-
        match parentMessageId with
        | Some parentMessageId =>
            if String.eqb parentMessageId "" then ret None
            else
              parent <- select_single (by_uuid parentMessageId) ;;
              match parent with
              | DbData parentData => ret (Some (msg_id parentData))
              | DbError_ _ => ret None
              end
        | None => ret None
        end ;;
      created_at <- new_Date ;;
      updated_at <- new_Date ;;
      answer <- insert messages set_messages msg_id msg_uuid
                  (fun id uuid =>
                     {| msg_id := id; msg_uuid := uuid;
                        conversation_id := conv_id convData;
                        parent_message_id := parentId;
                        msg_type := type;
                        msg_content := content;
                        msg_status := completed;
                        msg_metadata := match metadata with Some m => m | None => [] end;
                        msg_created_at := created_at;
                        msg_updated_at := updated_at |}) ;;
      match answer with
      | DbError_ error => throw ("Failed to create message: " ++ error_message error)
      | DbData data => ret (mapRow data conversationId)
      end
  end.

Definition listByConversation (conversationId : string) (limit_ : nat) : M (list Message) :=
  (* Get conversation internal ID *)
  conv <- select_single (ConversationRepository.by_uuid conversationId) ;;
  match conv with
  | DbError_ convError => throw ("Conversation not found: " ++ error_message convError)
  | DbData convData =>
      answer <- select (fun s =>
                  limit limit_ (ascending msg_created_at (of_conversation (conv_id convData) s))) ;;
      match answer with
      | DbError_ error => throw ("Failed to list messages: " ++ error_message error)
      | DbData data => ret (map (fun row => mapRow row conversationId) data)
      end
  end.

(** [.select(`*, conversations!inner(uuid)`).eq('uuid', messageId)]: every
    message row with the uuid, paired with each conversation row its
    [conversation_id] refers to; a message without one is left out. *)
Definition joined_by_uuid (messageId : string) (s : Store)
  : list (MessageRow * ConversationRow) :=
  flat_map (fun m =>
              map (fun c => (m, c))
                  (filter (fun c => Z.eqb (conv_id c) (conversation_id m))
                          (rows (conversations s))))
           (by_uuid messageId s).

Definition getById (messageId : string) : M (option Message) :=
  answer <- select_single (joined_by_uuid messageId) ;;
  match answer with
  | DbError_ PGRST116 => ret None
  | DbError_ error => throw ("Failed to get message: " ++ error_message error)
  | DbData data =>
      let conversationUuid := conv_uuid (snd data) in
      ret (Some (mapRow (fst data) conversationUuid))
  end.

End MessageRepository.

Module KnowledgeRepository.

Definition mapRow (row : KnowledgeRow) : KnowledgeItem :=
  {| k_uuid := know_uuid row;
     k_parentId := parent_id row;
     k_title := know_title row;
     k_description := know_description row;
     k_type := know_type row;
     k_content := know_content row;
     k_fileUrl := file_url row;
     k_fileSize := file_size row;
     k_fileType := file_type row;
     k_metadata := know_metadata row;
     k_embedding := embedding row;
     k_processedAt := processed_at row;
     k_createdBy := created_by row;
     k_createdAt := know_created_at row;
     k_updatedAt := know_updated_at row |}.

Definition by_uuid (itemId : string) (s : Store) : list KnowledgeRow :=
  filter (fun r => String.eqb (know_uuid r) itemId) (rows (knowledge_items s)).

Definition create (item : KnowledgeItemInput) (embedding_ : option (list float)) : M string :=
  created_at <- new_Date ;;
  updated_at <- new_Date ;;
  parent <-
    match ki_parentId item with
    | Some parentId =>
        if String.eqb parentId "" then ret None
        else
          answer <- select_single (by_uuid parentId) ;;
          match answer with
          | DbData parentData => ret (Some (know_id parentData))
          | DbError_ _ => ret None
          end
    | None => ret None
    end ;;
  processed <-
    match embedding_ with
    | Some _ => t <- new_Date ;; ret (Some t)
    | None => ret None
    end ;;
  answer <- insert knowledge_items set_knowledge_items know_id know_uuid
              (fun id uuid =>
                 {| know_id := id; know_uuid := uuid;
                    parent_id := parent;
                    know_title := ki_title item;
                    know_description := ki_description item;
                    know_type := ki_type item;
                    know_content := ki_content item;
                    file_url := ki_fileUrl item;
                    file_size := ki_fileSize item;
                    file_type := ki_fileType item;
                    know_metadata := match ki_metadata item with Some m => m | None => [] end;
                    embedding := match embedding_ with Some e => JsArray e | None => JsNull end;
                    processed_at := processed;
                    created_by := ki_createdBy item;
                    know_created_at := created_at;
                    know_updated_at := updated_at |}) ;;
  match answer with
  | DbError_ error => throw ("Failed to create knowledge item: " ++ error_message error)
  | DbData data => ret (know_uuid data)
  end.

Definition getById (itemId : string) : M (option KnowledgeItem) :=
  answer <- select_single (by_uuid itemId) ;;
  match answer with
  | DbError_ PGRST116 => ret None
  | DbError_ error => throw ("Failed to get knowledge item: " ++ error_message error)
  | DbData data => ret (Some (mapRow data))
  end.

(** [x !== undefined ? x : old]. *)
Definition updated {A : Type} (x : option A) (old : A) : A :=
  match x with Some v => v | None => old end.
Definition updated_opt {A : Type} (x : option A) (old : option A) : option A :=
  match x with Some v => Some v | None => old end.

Definition update_ (itemId : string) (updates : KnowledgeItemUpdates)
           (embedding_ : option (list float)) : M unit :=
  updated_at <- new_Date ;;
  processed <-
    match embedding_ with
    | Some _ => t <- new_Date ;; ret (Some t)
    | None => ret None
    end ;;
  answer <- update knowledge_items set_knowledge_items
              (fun r => String.eqb (know_uuid r) itemId)
              (fun r =>
                 {| know_id := know_id r; know_uuid := know_uuid r;
                    parent_id := parent_id r;
                    know_title := updated (up_title updates) (know_title r);
                    know_description := updated_opt (up_description updates) (know_description r);
                    know_type := know_type r;
                    know_content := updated_opt (up_content updates) (know_content r);
                    file_url := updated_opt (up_fileUrl updates) (file_url r);
                    file_size := updated_opt (up_fileSize updates) (file_size r);
                    file_type := updated_opt (up_fileType updates) (file_type r);
                    know_metadata := updated (up_metadata updates) (know_metadata r);
                    embedding := match embedding_ with Some e => JsArray e | None => embedding r end;
                    processed_at := updated_opt processed (processed_at r);
                    created_by := created_by r;
                    know_created_at := know_created_at r;
                    know_updated_at := updated_at |})
              true ;;
  match answer with
  | DbError_ error => throw ("Failed to update knowledge item: " ++ error_message error)
  | DbData _ => ret tt
  end.

Definition delete_ (itemId : string) : M unit :=
  answer <- delete knowledge_items set_knowledge_items
              (fun r => String.eqb (know_uuid r) itemId) ;;
  match answer with
  | DbError_ error => throw ("Failed to delete knowledge item: " ++ error_message error)
  | DbData _ => ret tt
  end.

Definition toResult (item : KnowledgeRow) (score : float) : SearchResult :=
  {| sr_uuid := know_uuid item;
     sr_title := know_title item;
     sr_description := know_description item;
     sr_content := know_content item;
     sr_type := know_type item;
     sr_score := score;
     sr_metadata := know_metadata item |}.

Definition isArray (v : JsValue) : bool :=
  match v with JsArray _ => true | _ => false end.

(** The loop of [semanticSearch] over the selected rows; [results] is
    the array filled so far. [JSON.parse] may throw. *)
Fixpoint score_items (queryEmbedding : list float) (threshold : float)
         (data : list KnowledgeRow) (results : list SearchResult)
  : M (list SearchResult) :=
  match data with
  | [] => ret results
  | item :: rest =>
      if truthy (embedding item) then
        embedding_ <-
          match embedding item with
          | JsString text =>
              parsed <- config (fun env => JSON_parse env text) ;;
              match parsed with
              | Ok v => ret v
              | Err message => throw message
              end
          | v => ret v
          end ;;
        if isArray embedding_ then
          let score := cosineSimilarity (JsArray queryEmbedding) embedding_ in
          if PrimFloat.leb threshold score      (* [score >= threshold] *)
          then score_items queryEmbedding threshold rest (results ++ [toResult item score])
          else score_items queryEmbedding threshold rest results
        else score_items queryEmbedding threshold rest results
      else score_items queryEmbedding threshold rest results
  end.

(** [results.sort((a, b) => b.score - a.score)]: [y] goes strictly
    before [x] when the comparator is positive at [(x, y)]. *)
Definition sort_by_score (results : list SearchResult) : list SearchResult :=
  sort_by (fun y x => PrimFloat.ltb 0%float (PrimFloat.sub (sr_score y) (sr_score x))) results.

Definition semanticSearch (queryEmbedding : list float) (limit_ : nat) (threshold : float)
  : M (list SearchResult) :=
  answer <- select (fun s =>
              limit (limit_ * 3)
                    (filter (fun r => match embedding r with JsNull => false | _ => true end)
                            (rows (knowledge_items s)))) ;;
  match answer with
  | DbError_ error => throw ("Semantic search failed: " ++ error_message error)
  | DbData data =>
      results <- score_items queryEmbedding threshold data [] ;;
      ret (slice0 limit_ (sort_by_score results))
  end.

(** The nominal score of a keyword match, the binary64 value of [0.8]. *)
Definition keyword_score : float := 0x1.999999999999ap-1%float.

Definition keywordSearch (query : string) (limit_ : nat) : M (list SearchResult) :=
  matching <- config (fun env => textSearch env query) ;;
  answer <- select (fun s => limit limit_ (filter matching (rows (knowledge_items s)))) ;;
  match answer with
  | DbError_ _ => ret []
  | DbData data => ret (map (fun item => toResult item keyword_score) data)
  end.

Definition listRecent (limit_ : nat) : M (list KnowledgeItem) :=
  answer <- select (fun s =>
              limit limit_ (descending know_created_at (rows (knowledge_items s)))) ;;
  match answer with
  | DbError_ error => throw ("Failed to list knowledge items: " ++ error_message error)
  | DbData data => ret (map mapRow data)
  end.

End KnowledgeRepository.

Module PersonalityRepository.

Definition mapRow (row : PersonalityRow) : Personality :=
  {| p_uuid := pers_uuid row;
     p_name := pers_name row;
     p_description := pers_description row;
     p_systemPrompt := system_prompt row;
     p_metadata := pers_metadata row;
     p_lastBuiltAt := last_built_at row |}.

Definition nil_uuid : string := "00000000-0000-0000-0000-000000000000".

Definition get_ : M (option Personality) :=
  answer <- select_single (fun s =>
              limit 1 (descending last_built_at (rows (personality s)))) ;;
  match answer with
  | DbError_ PGRST116 => ret None
  | DbError_ error => throw ("Failed to get personality: " ++ error_message error)
  | DbData data => ret (Some (mapRow data))
  end.

Definition save (name systemPrompt : string) (profile : option PersonalityProfile)
  : M Personality :=
  (* Delete existing personality (we only keep one); the answer is not looked at *)
  _ <- delete personality set_personality
         (fun r => negb (String.eqb (pers_uuid r) nil_uuid)) ;;
  built <- new_Date ;;
  answer <- insert personality set_personality pers_id pers_uuid
              (fun id uuid =>
                 {| pers_id := id; pers_uuid := uuid;
                    pers_name := name;
                    pers_description :=
                      match profile with Some p => pp_description p | None => None end;
                    system_prompt := systemPrompt;
                    pers_metadata :=
                      match profile with
                      | Some p => {| meta_tone := pp_tone p; meta_domain := pp_domain p |}
                      | None => {| meta_tone := None; meta_domain := None |}
                      end;
                    last_built_at := built |}) ;;
  match answer with
  | DbError_ error => throw ("Failed to save personality: " ++ error_message error)
  | DbData data => ret (mapRow data)
  end.

End PersonalityRepository.

(* ================================================================== *)
(** * Message feedback *)
(* ================================================================== *)

(** The table [message_feedback] sits in the same store as the four
    tables of the [World]: a call on it takes a step of the same counter,
    is faulted by the same environment and reads the messages of the
    store. The calls of [FeedbackRepository] run on the world paired with
    this table. *)

Inductive Rating : Type := positive | negative.

Record FeedbackRow : Type := {
  fb_id : Z;
  fb_uuid : string;
  fb_message_id : Z;
  fb_user_id : string;
  fb_rating : Rating;
  fb_category : option string;
  fb_comment : option string;
  fb_suggested_improvement : option string;
  fb_created_at : Timestamp
}.

(** [MessageFeedback] of [types/index.ts]. *)
Record MessageFeedback : Type := {
  f_uuid : string;
  f_messageId : string;
  f_userId : string;
  f_rating : Rating;
  f_category : option string;
  f_comment : option string;
  f_suggestedImprovement : option string;
  f_createdAt : Timestamp
}.

(** The [options] of [submitFeedback]. *)
Record FeedbackOptions : Type := {
  fo_category : option string;
  fo_comment : option string;
  fo_suggestedImprovement : option string
}.

Record FeedbackWorld : Type := {
  app : World;
  message_feedback : Table FeedbackRow
}.

Definition MF (A : Type) : Type := Env -> FeedbackWorld -> Result A * FeedbackWorld.

Definition retF {A : Type} (a : A) : MF A := fun _ fw => (Ok a, fw).

Definition bindF {A B : Type} (m : MF A) (k : A -> MF B) : MF B :=
  fun env fw =>
    match m env fw with
    | (Ok a, fw') => k a env fw'
    | (Err e, fw') => (Err e, fw')
    end.

Definition throwF {A : Type} (message : string) : MF A := fun _ fw => (Err message, fw).

(** A call that does not touch the feedback table. *)
Definition lift {A : Type} (m : M A) : MF A :=
  fun env fw =>
    let (r, w') := m env (app fw) in
    (r, {| app := w'; message_feedback := message_feedback fw |}).

(** One call to the store on the feedback table, as [store_call] is on
    the others: [run] gets the uuid generated at this step, the store and
    the table. *)
Definition feedback_call {A : Type}
           (run : string -> Store -> Table FeedbackRow -> DbResult A * Table FeedbackRow)
  : MF (DbResult A) :=
  fun env fw =>
    let n := step (app fw) in
    let w1 := set_step (S n) (app fw) in
    match db_fault env n with
    | Some m => (Ok (DbError_ (DbFault m)), {| app := w1; message_feedback := message_feedback fw |})
    | None =>
        let (answer, t') := run (gen_random_uuid env n) (store w1) (message_feedback fw) in
        (Ok answer, {| app := w1; message_feedback := t' |})
    end.

Declare Scope feedback_scope.
Delimit Scope feedback_scope with feedback.
Notation "x <- m ;; k" := (bindF m (fun x => k))
  (at level 61, m at next level, right associativity) : feedback_scope.

Module FeedbackRepository.
Local Open Scope feedback_scope.

Definition mapRow (row : FeedbackRow) (messageId : string) : MessageFeedback :=
  {| f_uuid := fb_uuid row;
     f_messageId := messageId;
     f_userId := fb_user_id row;
     f_rating := fb_rating row;
     f_category := fb_category row;
     f_comment := fb_comment row;
     f_suggestedImprovement := fb_suggested_improvement row;
     f_createdAt := fb_created_at row |}.

Definition create (messageId userId : string) (rating : Rating)
           (options : option FeedbackOptions) : MF MessageFeedback :=
  (* Get message internal ID *)
  msg <- lift (select_single (MessageRepository.by_uuid messageId)) ;;
  match msg with
  | DbError_ msgError => throwF ("Message not found: " ++ error_message msgError)
  | DbData msgData =>
      created_at <- lift new_Date ;;
      answer <- feedback_call (fun generated _ t =>
                  let row :=
                    {| fb_id := next_id t; fb_uuid := generated;
                       fb_message_id := msg_id msgData;
                       fb_user_id := userId;
                       fb_rating := rating;
                       fb_category :=
                         match options with Some o => fo_category o | None => None end;
                       fb_comment :=
                         match options with Some o => fo_comment o | None => None end;
                       fb_suggested_improvement :=
                         match options with
                         | Some o => fo_suggestedImprovement o
                         | None => None
                         end;
                       fb_created_at := created_at |} in
                  if existsb (fun r => Z.eqb (fb_id r) (fb_id row)
                                       || String.eqb (fb_uuid r) (fb_uuid row)) (rows t)
                  then (DbError_ (DbFault "duplicate key value violates unique constraint"),
                        {| rows := rows t; next_id := next_id t + 1 |})
                  else (DbData row,
                        {| rows := rows t ++ [row]; next_id := next_id t + 1 |})) ;;
      match answer with
      | DbError_ error => throwF ("Failed to create feedback: " ++ error_message error)
      | DbData data => retF (mapRow data messageId)
      end
  end.

Definition getByMessage (messageId : string) : MF (list MessageFeedback) :=
  (* Get message internal ID *)
  msg <- lift (select_single (MessageRepository.by_uuid messageId)) ;;
  match msg with
  | DbError_ msgError => throwF ("Message not found: " ++ error_message msgError)
  | DbData msgData =>
      answer <- feedback_call (fun _ _ t =>
                  (DbData (descending fb_created_at
                             (filter (fun r => Z.eqb (fb_message_id r) (msg_id msgData))
                                     (rows t))),
                   t)) ;;
      match answer with
      | DbError_ error => throwF ("Failed to get feedback: " ++ error_message error)
      | DbData data => retF (map (fun row => mapRow row messageId) data)
      end
  end.

(** [.select(`*, messages!inner(uuid)`).eq('user_id', userId)]: every
    feedback row of the user, paired with each message row its
    [message_id] refers to. *)
Definition joined_of_user (userId : string) (s : Store) (t : Table FeedbackRow)
  : list (FeedbackRow * MessageRow) :=
  flat_map (fun r =>
              map (fun m => (r, m))
                  (filter (fun m => Z.eqb (msg_id m) (fb_message_id r)) (rows (messages s))))
           (filter (fun r => String.eqb (fb_user_id r) userId) (rows t)).

Definition getByUser (userId : string) (limit_ : nat) : MF (list MessageFeedback) :=
  answer <- feedback_call (fun _ s t =>
              (DbData (limit limit_
                         (descending (fun data => fb_created_at (fst data))
                                     (joined_of_user userId s t))),
               t)) ;;
  match answer with
  | DbError_ error => throwF ("Failed to get user feedback: " ++ error_message error)
  | DbData data =>
      retF (map (fun data =>
                   let messageUuid := msg_uuid (snd data) in
                   mapRow (fst data) messageUuid)
                data)
  end.

End FeedbackRepository.

(* ================================================================== *)
(** * Services *)
(* ================================================================== *)

Module AIService.

(** The [messages] array both completion calls build. *)
Definition build_messages (userMessage systemPrompt : string)
           (conversationHistory : list ChatMessage) (knowledgeContext : string)
  : list ChatMessage :=
  [ {| cm_role := system;
       cm_content := (systemPrompt ++
         (if String.eqb knowledgeContext "" then ""
          else String (ascii_of_nat 10) (String (ascii_of_nat 10) knowledgeContext)))%string |} ]
  ++ map (fun msg => {| cm_role := cm_role msg; cm_content := cm_content msg |})
         conversationHistory
  ++ [ {| cm_role := user; cm_content := userMessage |} ].

Definition generateResponse (userMessage systemPrompt : string)
           (conversationHistory : list ChatMessage) (knowledgeContext : string)
  : M string :=
  send (req_chat false
          (build_messages userMessage systemPrompt conversationHistory knowledgeContext)) ;;
  completion <- ask chat_create ;;
  match completion with
  | Err message => throw message
  | Ok content =>
      ret (or_default content "I apologize, but I was unable to generate a response.")
  end.

(** [for await (const chunk of stream) body]: the loop of the caller
    over the truthy contents of the chunks the provider sends, threading
    the caller's local state [acc]; the stream then ends, or fails with
    its error. *)
Fixpoint for_await {A : Type} (chunks : list (option string)) (failure : option string)
         (body : A -> string -> M A) (acc : A) : M A :=
  match chunks with
  | [] => match failure with Some message => throw message | None => ret acc end
  | chunk :: rest =>
      match chunk with
      | Some content =>
          if String.eqb content "" then for_await rest failure body acc
          else acc' <- body acc content ;; for_await rest failure body acc'
      | None => for_await rest failure body acc
      end
  end.

(** [streamResponse], consumed by [for await] with the given body. *)
Definition streamResponse {A : Type} (userMessage systemPrompt : string)
           (conversationHistory : list ChatMessage) (knowledgeContext : string)
           (body : A -> string -> M A) (acc : A) : M A :=
  send (req_chat true
          (build_messages userMessage systemPrompt conversationHistory knowledgeContext)) ;;
  stream <- ask chat_stream ;;
  for_await (fst stream) (snd stream) body acc.

Definition generateEmbedding (text : string) : M (list float) :=
  send (req_embedding (substring0 8000 text)) ;;     (* Limit text length *)
  response <- ask embeddings_create ;;
  match response with
  | Err message => throw message
  | Ok embedding_ => ret embedding_
  end.

Definition newline : string := String (ascii_of_nat 10) "".

Fixpoint join (separator : string) (parts : list string) : string :=
  match parts with
  | [] => ""
  | [p] => p
  | p :: rest => p ++ separator ++ join separator rest
  end.

Definition summarizeKnowledgeBase (items : list SearchResult) : M string :=
  match items with
  | [] => ret "No knowledge base content available."
  | _ =>
      let combinedContent :=
        join (newline ++ newline)%string
             (map (fun item =>
                     let content :=
                       if truthy_str (sr_content item) then or_default (sr_content item) ""
                       else or_default (sr_description item) "" in
                     ("Title: " ++ sr_title item ++ newline ++ substring0 500 content)%string)
                  items) in
      send (req_chat false
              [ {| cm_role := system;
                   cm_content := "You are a helpful assistant that summarizes knowledge base content to create an AI personality profile." |};
                {| cm_role := user;
                   cm_content := ("Based on this knowledge base content, create a brief summary (2-3 sentences) describing what this assistant should know about and what tone/personality it should have:"
                                  ++ newline ++ newline ++ combinedContent)%string |} ]) ;;
      summary <- ask chat_create ;;
      match summary with
      | Err message => throw message
      | Ok content => ret (or_default content "General purpose assistant.")
      end
  end.

End AIService.

Module KnowledgeService.

Definition is_document_or_file (t : KnowledgeType) : bool :=
  match t with document | file => true | _ => false end.

(** [try { embedding = await generateEmbedding(text) } catch { log }]. *)
Definition try_embedding (text : string) : M (option (list float)) :=
  try_catch (e <- AIService.generateEmbedding text ;; ret (Some e))
            (fun _ => ret None).

Definition createItem (item : KnowledgeItemInput) : M string :=
  (* Generate embedding if content exists *)
  embedding_ <-
    (if truthy_str (ki_content item) && is_document_or_file (ki_type item)
     then try_embedding (or_default (ki_content item) "")
     else ret None) ;;
  KnowledgeRepository.create item embedding_.

Definition updateItem (itemId : string) (updates : KnowledgeItemUpdates) : M unit :=
  (* Regenerate embedding if content changed *)
  embedding_ <-
    (if truthy_str (up_content updates)
     then try_embedding (or_default (up_content updates) "")
     else ret None) ;;
  KnowledgeRepository.update_ itemId updates embedding_.

Definition deleteItem (itemId : string) : M unit :=
  KnowledgeRepository.delete_ itemId.

Definition semanticSearch (query : string) (limit_ : nat) (threshold : float)
  : M (list SearchResult) :=
  try_catch
    (queryEmbedding <- AIService.generateEmbedding query ;;
     KnowledgeRepository.semanticSearch queryEmbedding limit_ threshold)
    (fun _ => ret []).

Inductive SearchType : Type := semantic | keyword | hybrid.

(** [Math.ceil(limit / 2)]. *)
Definition ceil_half (limit_ : nat) : nat := Nat.div2 (S limit_).

(** The loop that deduplicates by uuid: [seen] is the set of uuids met,
    [combined] the array filled so far. *)
Fixpoint dedup (results : list SearchResult) (seen : list string)
         (combined : list SearchResult) : list SearchResult :=
  match results with
  | [] => combined
  | result :: rest =>
      if negb (existsb (String.eqb (sr_uuid result)) seen)
      then dedup rest (sr_uuid result :: seen) (combined ++ [result])
      else dedup rest seen combined
  end.

Definition search (query : string) (limit_ : nat) (threshold : float) (type : SearchType)
  : M (list SearchResult) :=
  match type with
  | semantic => semanticSearch query limit_ threshold
  | keyword => KnowledgeRepository.keywordSearch query limit_
  | hybrid =>
      (* Hybrid: combine both *)
      semanticResults <- semanticSearch query (ceil_half limit_) threshold ;;
      keywordResults <- KnowledgeRepository.keywordSearch query (ceil_half limit_) ;;
      (* Deduplicate by UUID *)
      let combined := dedup (semanticResults ++ keywordResults) [] [] in
      ret (slice0 limit_ combined)
  end.

Definition getTopItems (limit_ : nat) : M (list SearchResult) :=
  items <- KnowledgeRepository.listRecent limit_ ;;
  ret (map (fun item =>
              {| sr_uuid := k_uuid item;
                 sr_title := k_title item;
                 sr_description := k_description item;
                 sr_content := k_content item;
                 sr_type := k_type item;
                 sr_score := 1%float;
                 sr_metadata := k_metadata item |})
           items).

Definition formatKnowledgeContext (results : list SearchResult) : string :=
  match results with
  | [] => ""
  | _ =>
      fold_left
        (fun context result =>
           let content :=
             if truthy_str (sr_content result) then or_default (sr_content result) ""
             else or_default (sr_description result) "" in
           (context ++ "- " ++ sr_title result ++ ": " ++ substring0 300 content
                    ++ AIService.newline)%string)
        results
        ("Relevant information from knowledge base:" ++ AIService.newline ++ AIService.newline)%string
  end.

End KnowledgeService.

Module PersonalityService.

(** ** [SimpleCache], used with the single key ['personality'] *)

(** 5-minute TTL, in milliseconds. *)
Definition ttl : Z := (1000 * 60 * 5)%Z.

Definition cache_get : M (option BuildPersonalityOutput) :=
  entry <- get cache ;;
  match entry with
  | None => ret None
  | Some entry =>
      now <- new_Date ;;
      if Z.ltb (ce_expiresAt entry) now
      then modify (set_cache None) ;; ret None
      else ret (Some (ce_value entry))
  end.

Definition cache_set (value : BuildPersonalityOutput) : M unit :=
  now <- new_Date ;;
  modify (set_cache (Some {| ce_value := value; ce_expiresAt := (now + ttl)%Z |})).

Definition cache_delete : M unit := modify (set_cache None).

(** ** Prompt templates *)

Definition nl : string := AIService.newline.

Definition buildGenericSystemPrompt (name : string) : string :=
  ("You are " ++ name ++ ", a helpful AI assistant." ++ nl ++ nl ++
   "Your role is to:" ++ nl ++
   "- Answer user questions clearly and accurately" ++ nl ++
   "- Provide helpful guidance and support" ++ nl ++
   "- Be professional, friendly, and respectful" ++ nl ++
   "- Admit when you don't know something" ++ nl ++
   "- Ask clarifying questions when needed" ++ nl ++ nl ++
   "Always strive to be helpful while maintaining a professional demeanor.")%string.

Definition buildKnowledgeBasedSystemPrompt (name kbSummary : string) : string :=
  ("You are " ++ name ++ ", an AI assistant with expertise based on the following knowledge:"
   ++ nl ++ nl ++ kbSummary ++ nl ++ nl ++
   "Your role is to:" ++ nl ++
   "- Answer questions using the knowledge base when relevant" ++ nl ++
   "- Provide accurate information based on the available knowledge" ++ nl ++
   "- Be helpful, clear, and professional in your responses" ++ nl ++
   "- Admit when information is outside your knowledge base" ++ nl ++
   "- Guide users to relevant resources when available" ++ nl ++ nl ++
   "When answering questions:" ++ nl ++
   "1. Search your knowledge base for relevant information" ++ nl ++
   "2. Provide accurate, well-structured answers" ++ nl ++
   "3. Cite specific knowledge when applicable" ++ nl ++
   "4. Be honest about limitations in your knowledge")%string.

(** ** [extractDomain]: the first word of more than 4 characters among
    the lower-cased titles, on ASCII text. *)

Definition is_space (c : ascii) : bool :=
  let n := nat_of_ascii c in
  (Nat.eqb n 32 || (Nat.leb 9 n && Nat.leb n 13))%bool.

Definition lower (c : ascii) : ascii :=
  let n := nat_of_ascii c in
  if (Nat.leb 65 n && Nat.leb n 90)%bool then ascii_of_nat (n + 32) else c.

Fixpoint toLowerCase (s : string) : string :=
  match s with
  | EmptyString => EmptyString
  | String c rest => String (lower c) (toLowerCase rest)
  end.

(** [s.split(/\s+/)]; [word] is the word being read, reversed. *)
Fixpoint split_spaces (s : string) (word : list ascii) (in_gap : bool) : list string :=
  let flush := string_of_list_ascii (rev word) in
  match s with
  | EmptyString => [flush]
  | String c rest =>
      if is_space c
      then if in_gap then split_spaces rest word true
           else flush :: split_spaces rest [] true
      else split_spaces rest (c :: word) false
  end.

Definition words_of (title : string) : list string :=
  split_spaces (toLowerCase title) [] false.

Definition extractDomain (items : list SearchResult) : string :=
  let words :=
    filter (fun word => Nat.ltb 4 (String.length word))
           (flat_map (fun item => words_of (sr_title item)) items) in
  match words with
  | [] => "general"
  | word :: _ => or_default (Some word) "general"
  end.

(** ** The service *)

Definition config_name : M (option string) :=
  config (fun env => match defaultPersonality env with
                     | Some d => cfg_name d | None => None end).
Definition config_tone : M (option string) :=
  config (fun env => match defaultPersonality env with
                     | Some d => cfg_tone d | None => None end).
Definition config_customInstructions : M (option string) :=
  config (fun env => match defaultPersonality env with
                     | Some d => cfg_customInstructions d | None => None end).

(** The common end of the three branches of [buildPersonality]. *)
Definition save_and_cache (name systemPrompt : string) (profile : PersonalityProfile)
  : M BuildPersonalityOutput :=
  _ <- PersonalityRepository.save name systemPrompt (Some profile) ;;
  (* Cache the new personality *)
  let result := {| bp_systemPrompt := systemPrompt; bp_profile := profile |} in
  cache_set result ;;
  ret result.

Definition buildPersonality : M BuildPersonalityOutput :=
  (* Invalidate cache since we're building new personality *)
  cache_delete ;;
  customInstructions <- config_customInstructions ;;
  cfgName <- config_name ;;
  cfgTone <- config_tone ;;
  let name := or_default cfgName "AI Assistant" in
  if truthy_str customInstructions then
    (* If custom instructions provided, use them *)
    save_and_cache name (or_default customInstructions "")
      {| pp_name := name;
         pp_description := Some "Custom configured assistant";
         pp_tone := Some (or_default cfgTone "helpful");
         pp_domain := None |}
  else
    (* Build from knowledge base *)
    topItems <- KnowledgeService.getTopItems 10 ;;
    match topItems with
    | [] =>
        (* No knowledge base, use generic personality *)
        save_and_cache name (buildGenericSystemPrompt name)
          {| pp_name := name;
             pp_description := Some "General purpose AI assistant";
             pp_tone := Some (or_default cfgTone "helpful and professional");
             pp_domain := None |}
    | _ =>
        (* Summarize knowledge base to create personality *)
        kbSummary <- AIService.summarizeKnowledgeBase topItems ;;
        save_and_cache name (buildKnowledgeBasedSystemPrompt name kbSummary)
          {| pp_name := name;
             pp_description := Some kbSummary;
             pp_tone := Some (or_default cfgTone "helpful and knowledgeable");
             pp_domain := Some (extractDomain topItems) |}
    end.

Definition getPersonality : M BuildPersonalityOutput :=
  (* Check cache first *)
  cached <- cache_get ;;
  match cached with
  | Some cached => ret cached
  | None =>
      (* Fetch from database *)
      existing <- PersonalityRepository.get_ ;;
      match existing with
      | Some existing =>
          let result :=
            {| bp_systemPrompt := p_systemPrompt existing;
               bp_profile :=
                 {| pp_name := p_name existing;
                    pp_description := p_description existing;
                    pp_tone := meta_tone (p_metadata existing);
                    pp_domain := meta_domain (p_metadata existing) |} |} in
          (* Cache the result *)
          cache_set result ;;
          ret result
      | None =>
          (* Build default if none exists *)
          buildPersonality
      end
  end.

Definition setPersonality (systemPrompt : string) (profile : option PersonalityProfile)
  : M unit :=
  (* Invalidate cache since personality is being updated *)
  cache_delete ;;
  let name :=
    match profile with
    | Some p => or_default (Some (pp_name p)) "AI Assistant"
    | None => "AI Assistant"
    end in
  _ <- PersonalityRepository.save name systemPrompt profile ;;
  ret tt.

End PersonalityService.

(** [GetConversationOutput] and [SearchKnowledgeInput] of [types/index.ts]. *)
Record GetConversationOutput : Type := {
  gc_meta : Conversation;
  gc_messages : list Message
}.

Record SearchKnowledgeInput : Type := {
  sk_query : string;
  sk_limit : option nat;
  sk_threshold : option float;
  sk_type : option KnowledgeService.SearchType
}.

(* ================================================================== *)
(** * The orchestrator: [AssistantAI] *)
(* ================================================================== *)

Module AssistantAI.

Definition init : M unit :=
  done <- get initialized ;;
  if done then ret tt
  else
    (* Ensure personality exists *)
    try_catch (_ <- PersonalityService.getPersonality ;; ret tt)
              (fun _ => _ <- PersonalityService.buildPersonality ;; ret tt) ;;
    modify (set_initialized true).

Definition createConversation (userId : string) (title : option string) : M string :=
  conversation <- ConversationRepository.create userId (or_default title "New Conversation") ;;
  ret (c_uuid conversation).

Definition required : string :=
  "Either conversationId (to continue existing conversation) or userId (to create new conversation) is required".

(** The binary64 value of the threshold [0.7] of a turn's search. *)
Definition turn_threshold : float := 0x1.6666666666666p-1%float.

(** Validation and resolution of the conversation, the common start of
    [sendMessage] and [streamMessage]. *)
Definition resolve (input : SendMessageInput) : M string :=
  (* Validate input *)
  if negb (truthy_str (in_conversationId input)) && negb (truthy_str (in_userId input))
  then throw required
  else
    (* Get or create conversation *)
    if negb (truthy_str (in_conversationId input)) then
      (* Auto-create conversation with userId *)
      createConversation (or_default (in_userId input) "") (Some "New Conversation")
    else
      (* Validate conversation exists *)
      let conversationId := or_default (in_conversationId input) "" in
      conversation <- ConversationRepository.getById conversationId ;;
      match conversation with
      | None => throw ("Conversation not found: " ++ conversationId)
      | Some _ => ret conversationId
      end.

(** [Object.keys(userMetadata).length > 0 ? userMetadata : undefined]. *)
Definition userMetadata (input : SendMessageInput) : option Metadata :=
  match in_context input with
  | Some context => Some [("context", MetaContext context)]
  | None => None
  end.

Definition assistantMetadata (input : SendMessageInput)
           (knowledgeResults : list SearchResult) (streamed : bool) : Metadata :=
  [("knowledgeUsed", MetaBool (Nat.ltb 0 (List.length knowledgeResults)));
   ("knowledgeItemCount", MetaNumber (List.length knowledgeResults))]
  ++ (if streamed then [("streamed", MetaBool true)] else [])
  ++ match in_context input with
     | Some context => [("userContext", MetaContext context)]
     | None => []
     end.

(** [messages.slice(0, -1).map(msg => ({ role: msg.type, content: msg.content }))]. *)
Definition conversationHistory (messages_ : list Message) : list ChatMessage :=
  map (fun msg => {| cm_role := m_type msg; cm_content := m_content msg |})
      (slice_drop_last messages_).

(** Update conversation message count. *)
Definition bump_message_count (conversationId : string) : M unit :=
  conversation <- ConversationRepository.getById conversationId ;;
  match conversation with
  | Some conversation =>
      ConversationRepository.updateMessageCount conversationId
        (c_messageCount conversation + 2)
  | None => ret tt
  end.

Definition sendMessage (input : SendMessageInput) : M SendMessageOutput :=
  init ;;
  conversationId <- resolve input ;;
  (* Save user message with context *)
  userMessage <- MessageRepository.create conversationId user (in_message input)
                   None (userMetadata input) ;;
  (* Get conversation history *)
  messages_ <- MessageRepository.listByConversation conversationId 10 ;;
  let conversationHistory := conversationHistory messages_ in
  (* Search knowledge base *)
  knowledgeResults <- KnowledgeService.search (in_message input) 3 turn_threshold
                        KnowledgeService.hybrid ;;
  let knowledgeContext := KnowledgeService.formatKnowledgeContext knowledgeResults in
  (* Get personality *)
  personality_ <- PersonalityService.getPersonality ;;
  (* Generate AI response *)
  aiResponse <- AIService.generateResponse (in_message input)
                  (bp_systemPrompt personality_) conversationHistory knowledgeContext ;;
  (* Save assistant message with metadata *)
  assistantMessage <- MessageRepository.create conversationId assistant aiResponse
                        (Some (m_uuid userMessage))
                        (Some (assistantMetadata input knowledgeResults false)) ;;
  bump_message_count conversationId ;;
  ret {| out_content := aiResponse;
         out_conversationId := conversationId;
         out_messageId := m_uuid assistantMessage |}.

(** The [try] block of [streamMessage]. *)
Definition stream_turn (input : SendMessageInput) : M unit :=
  conversationId <- resolve input ;;
  yield (ev_start conversationId) ;;
  (* Save user message with context *)
  userMessage <- MessageRepository.create conversationId user (in_message input)
                   None (userMetadata input) ;;
  (* Get conversation history *)
  messages_ <- MessageRepository.listByConversation conversationId 10 ;;
  let conversationHistory := conversationHistory messages_ in
  (* Search knowledge base *)
  knowledgeResults <- KnowledgeService.search (in_message input) 3 turn_threshold
                        KnowledgeService.hybrid ;;
  let knowledgeContext := KnowledgeService.formatKnowledgeContext knowledgeResults in
  (* Get personality *)
  personality_ <- PersonalityService.getPersonality ;;
  (* Stream AI response *)
  fullContent <- AIService.streamResponse (in_message input)
                   (bp_systemPrompt personality_) conversationHistory knowledgeContext
                   (fun fullContent chunk =>
                      yield (ev_delta chunk) ;; ret (fullContent ++ chunk)%string)
                   "" ;;
  (* Save assistant message with metadata *)
  assistantMessage <- MessageRepository.create conversationId assistant fullContent
                        (Some (m_uuid userMessage))
                        (Some (assistantMetadata input knowledgeResults true)) ;;
  bump_message_count conversationId ;;
  yield (ev_final fullContent (m_uuid assistantMessage) conversationId).

Definition streamMessage (input : SendMessageInput) : M unit :=
  init ;;
  try_catch (stream_turn input) (fun error => yield (ev_error error)).

(** The remaining operations of the surface delegate to the services. *)
Definition searchKnowledge (query : string) (limit_ : nat) (threshold : float)
           (type : KnowledgeService.SearchType) : M (list SearchResult) :=
  KnowledgeService.search query limit_ threshold type.
Definition createKnowledgeItem (item : KnowledgeItemInput) : M string :=
  KnowledgeService.createItem item.
Definition updateKnowledgeItem (id : string) (updates : KnowledgeItemUpdates) : M unit :=
  KnowledgeService.updateItem id updates.
Definition buildPersonality : M BuildPersonalityOutput :=
  PersonalityService.buildPersonality.
Definition getPersonality : M BuildPersonalityOutput :=
  PersonalityService.getPersonality.
Definition setPersonality (systemPrompt : string) (profile : option PersonalityProfile)
  : M unit :=
  PersonalityService.setPersonality systemPrompt profile.

Definition deleteKnowledgeItem (id : string) : M unit :=
  KnowledgeService.deleteItem id.

(** [searchKnowledge] from its input object: [input.limit || 5],
    [input.threshold || 0.7], [input.type || 'hybrid']. A limit of 0 and a
    threshold that is 0 or NaN are falsy, and replaced by the defaults. *)
Definition limit_or_5 (limit_ : option nat) : nat :=
  match limit_ with
  | Some (S n) => S n
  | _ => 5
  end.

Definition threshold_or_default (threshold : option float) : float :=
  match threshold with
  | Some x =>
      if PrimFloat.eqb x 0%float || negb (PrimFloat.eqb x x) then turn_threshold else x
  | None => turn_threshold
  end.

Definition searchKnowledgeInput (input : SearchKnowledgeInput) : M (list SearchResult) :=
  searchKnowledge (sk_query input)
                  (limit_or_5 (sk_limit input))
                  (threshold_or_default (sk_threshold input))
                  (match sk_type input with
                   | Some type => type
                   | None => KnowledgeService.hybrid
                   end).

(** ** Conversation methods *)

Definition getConversation (conversationId : string) : M GetConversationOutput :=
  conversation <- ConversationRepository.getById conversationId ;;
  match conversation with
  | None => throw "Conversation not found"
  | Some conversation =>
      (* [listByConversation(conversationId)]: the limit defaults to 50 *)
      messages_ <- MessageRepository.listByConversation conversationId 50 ;;
      ret {| gc_meta := conversation; gc_messages := messages_ |}
  end.

Definition listConversations (userId : string) : M (list Conversation) :=
  ConversationRepository.listByUser userId.

Definition deleteConversation (conversationId : string) : M bool :=
  ConversationRepository.delete_ conversationId.

Definition updateConversationTitle (conversationId title : string) : M unit :=
  conversation <- ConversationRepository.getById conversationId ;;
  match conversation with
  | None => throw ("Conversation not found: " ++ conversationId)
  | Some _ => ConversationRepository.updateTitle conversationId title
  end.

Definition getConversationsByUser (userId : string) : M (list Conversation) :=
  listConversations userId.

(** ** Feedback methods *)

Definition submitFeedback (messageId userId : string) (rating : Rating)
           (options : option FeedbackOptions) : MF MessageFeedback :=
  FeedbackRepository.create messageId userId rating options.

Definition getMessageFeedback (messageId : string) : MF (list MessageFeedback) :=
  FeedbackRepository.getByMessage messageId.

(** [getUserFeedback(userId, limit = 50)]. *)
Definition getUserFeedback (userId : string) (limit_ : option nat)
  : MF (list MessageFeedback) :=
  FeedbackRepository.getByUser userId (match limit_ with Some n => n | None => 50 end).

End AssistantAI.

(* ================================================================== *)
(** * The embedding script: [createChunks] *)
(* ================================================================== *)

Module EmbeddingScript.

(** [config.chunkSize] and [config.chunkOverlap], in characters. *)
Record Config : Type := {
  chunkSize : Z;
  chunkOverlap : Z
}.

Record Chunk : Type := {
  chunk_id : string;
  chunk_index : nat;
  chunk_content : string;
  startLine : Z;
  endLine : Z;
  chunk_size : Z;
  chunk_fileName : string
}.

(** [content.split('\n')]; [line] is the line being read, reversed. *)
Fixpoint split_lines (content : string) (line : list ascii) : list string :=
  match content with
  | EmptyString => [string_of_list_ascii (rev line)]
  | String c rest =>
      if Ascii.eqb c (ascii_of_nat 10)
      then string_of_list_ascii (rev line) :: split_lines rest []
      else split_lines rest (c :: line)
  end.

(** A number in a template literal. *)
Definition decimal (n : nat) : string := NilZero.string_of_uint (Nat.to_uint n).

(** [line.length + 1]: +1 for newline. *)
Definition lineSize (line : string) : Z := Z.of_nat (String.length line) + 1.

(** The variables of the loop over the lines. *)
Record Loop : Type := {
  chunks : list Chunk;
  currentChunk : list string;
  currentSize : Z;
  chunkIndex : nat;
  start : Z                (* [startLine] *)
}.

Definition is_empty {A : Type} (l : list A) : bool :=
  match l with [] => true | _ => false end.

(** The chunk pushed from the variables of the loop, ending at a line. *)
Definition chunk_of (fileId fileName : string) (st : Loop) (endLine_ : Z) : Chunk :=
  {| chunk_id := (fileId ++ "_chunk_" ++ decimal (chunkIndex st))%string;
     chunk_index := chunkIndex st;
     chunk_content := AIService.join AIService.newline (currentChunk st);
     startLine := start st;
     endLine := endLine_;
     chunk_size := currentSize st;
     chunk_fileName := fileName |}.

(** Create overlap: the loop over the lines of the chunk from the last
    one backwards, until one does not fit. *)
Fixpoint overlap_from (overlap : Z) (backwards : list string)
         (overlapLines : list string) (overlapSize : Z) : list string * Z :=
  match backwards with
  | [] => (overlapLines, overlapSize)
  | overlapLine :: before =>
      if Z.leb (overlapSize + Z.of_nat (String.length overlapLine) + 1) overlap
      then overlap_from overlap before (overlapLine :: overlapLines)
                        (overlapSize + (Z.of_nat (String.length overlapLine) + 1))
      else (overlapLines, overlapSize)
  end.

(** The loop [for (let i = 0; i < lines.length; i++)], from line [i] on. *)
Fixpoint loop (cfg : Config) (fileId fileName : string)
         (lines : list string) (i : Z) (st : Loop) : Loop :=
  match lines with
  | [] => st
  | line :: rest =>
      let lineSize := lineSize line in
      let st :=
        if Z.ltb (chunkSize cfg) (currentSize st + lineSize)
           && negb (is_empty (currentChunk st))
        then
          (* Save current chunk *)
          let chunk := chunk_of fileId fileName st (i - 1) in
          let (overlapLines, overlapSize) :=
            overlap_from (chunkOverlap cfg) (rev (currentChunk st)) [] 0 in
          {| chunks := chunks st ++ [chunk];
             currentChunk := overlapLines;
             currentSize := overlapSize;
             chunkIndex := S (chunkIndex st);
             start := i - Z.of_nat (List.length overlapLines) |}
        else st in
      loop cfg fileId fileName rest (i + 1)
           {| chunks := chunks st;
              currentChunk := currentChunk st ++ [line];
              currentSize := currentSize st + lineSize;
              chunkIndex := chunkIndex st;
              start := start st |}
  end.

Definition createChunks (cfg : Config) (content fileId fileName : string) : list Chunk :=
  let lines := split_lines content [] in
  let st := loop cfg fileId fileName lines 0
                 {| chunks := []; currentChunk := []; currentSize := 0;
                    chunkIndex := 0; start := 0 |} in
  (* Save last chunk *)
  if negb (is_empty (currentChunk st))
  then chunks st ++ [chunk_of fileId fileName st (Z.of_nat (List.length lines) - 1)]
  else chunks st.

End EmbeddingScript.

(* ================================================================== *)
(** * Vocabulary of the statements *)
(* ================================================================== *)

(** A call that cannot throw. *)
Definition total {A : Type} (m : M A) : Prop :=
  forall env w, exists a w', m env w = (Ok a, w').

(** The first result carrying a uuid in an array of results. *)
Definition first_with (uuid : string) (results : list SearchResult) : option SearchResult :=
  find (fun r => String.eqb (sr_uuid r) uuid) results.

(** [keeps f m]: whatever happens, the call [m] leaves the component [f]
    of the world as it found it. *)
Definition keeps {X A : Type} (f : World -> X) (m : M A) : Prop :=
  forall env w r w', m env w = (r, w') -> f w' = f w.

(** The rows of the tables in a world. *)
Definition knowledge_rows (w : World) : list KnowledgeRow := rows (knowledge_items (store w)).
Definition conversation_rows (w : World) : list ConversationRow := rows (conversations (store w)).
Definition message_rows (w : World) : list MessageRow := rows (messages (store w)).
Definition personality_rows (w : World) : list PersonalityRow := rows (personality (store w)).

(** An item whose stored embedding is not an array, is an array of
    another length than the query's while the threshold is positive, or is
    a text that parses to one of these, is passed over by the loop of
    [semanticSearch]: it is not added to the results and nothing is
    thrown for it. *)
Definition passed_over (env : Env) (queryEmbedding : list float) (threshold : float)
           (stored : JsValue) : Prop :=
  let wrong v :=
    match v with
    | JsArray ys =>
        List.length queryEmbedding <> List.length ys /\ PrimFloat.ltb 0%float threshold = true
    | _ => True
    end in
  match stored with
  | JsString text => exists v, JSON_parse env text = Ok v /\ wrong v
  | v => wrong v
  end.

(** An input with its [userId] left out. *)
Definition without_user (input : SendMessageInput) : SendMessageInput :=
  {| in_message := in_message input;
     in_conversationId := in_conversationId input;
     in_userId := None;
     in_context := in_context input |}.

(** A call never moves the step counter back. *)
Definition advances {A : Type} (m : M A) : Prop :=
  forall env w r w', m env w = (r, w') -> step w <= step w'.

(** The uuids the store generates are not the empty string. *)
Definition uuids_not_empty (env : Env) : Prop :=
  forall n, gen_random_uuid env n <> "".

Definition messages_table (w : World) : Table MessageRow := messages (store w).
Definition conversations_table (w : World) : Table ConversationRow := conversations (store w).
Definition personality_table (w : World) : Table PersonalityRow := personality (store w).

(** The terminal events of a stream. *)
Definition is_terminal (event : StreamEvent) : bool :=
  match event with
  | ev_final _ _ _ | ev_error _ => true
  | _ => false
  end.

(** The text accumulated from the chunks of a stream. *)
Definition joined (chunks : list string) : string := fold_left String.append chunks "".

(** The errors of the last step of a turn, the update of the message
    count. *)
Definition count_update_error (error : string) : Prop :=
  exists m, error = ("Failed to get conversation: " ++ m)%string
            \/ error = ("Failed to update conversation: " ++ m)%string.

(** ** Sequences of personality operations *)

Inductive PersonalityOp : Type :=
| op_build
| op_set (systemPrompt : string) (profile : option PersonalityProfile).

Definition run_op (op : PersonalityOp) : M unit :=
  match op with
  | op_build => _ <- AssistantAI.buildPersonality ;; ret tt
  | op_set systemPrompt profile => AssistantAI.setPersonality systemPrompt profile
  end.

(** The world after a sequence of operations, each called in the world
    the one before left, whether it returned or threw. *)
Fixpoint run_ops (ops : list PersonalityOp) (env : Env) (w : World) : World :=
  match ops with
  | [] => w
  | op :: rest => run_ops rest env (snd (run_op op env w))
  end.

(** The [lastBuiltAt] of the records stored after each operation of the
    sequence that returned. *)
Fixpoint built_history (ops : list PersonalityOp) (env : Env) (w : World) : list Timestamp :=
  match ops with
  | [] => []
  | op :: rest =>
      let (r, w1) := run_op op env w in
      match r with
      | Ok _ => map last_built_at (personality_rows w1) ++ built_history rest env w1
      | Err _ => built_history rest env w1
      end
  end.

(** The store answers every call. *)
Definition store_reliable (env : Env) : Prop := forall n, db_fault env n = None.

(** The uuids the store generates are not the nil uuid. *)
Definition uuids_not_nil (env : Env) : Prop :=
  forall n, gen_random_uuid env n <> PersonalityRepository.nil_uuid.

(** No personality record carries the nil uuid. *)
Definition no_nil_record (w : World) : Prop :=
  forall r, In r (personality_rows w) -> pers_uuid r <> PersonalityRepository.nil_uuid.

(** The clock has advanced between any two steps. *)
Definition clock_advances (env : Env) : Prop :=
  forall n m, n < m -> (Date_now env n < Date_now env m)%Z.

(** What a personality operation that returns leaves behind: one record,
    built at a clock reading taken during the operation. *)
Definition one_record_built (env : Env) (w w' : World) : Prop :=
  exists row n,
    personality_rows w' = [row] /\
    last_built_at row = Date_now env n /\
    step w <= n < step w' /\
    (exists k, pers_uuid row = gen_random_uuid env k).

(** The store answers the [count] requests from step [first] on. *)
Definition answered (env : Env) (first count : nat) : Prop :=
  forall n, first <= n < first + count -> db_fault env n = None.

(** A conversation of the user that is not deleted. *)
Definition owned_live (userId : string) (r : ConversationRow) : bool :=
  String.eqb (creator_id r) userId
  && match deleted_at r with None => true | Some _ => false end.

(** The vector the loop of [semanticSearch] scores an item with: its
    stored embedding when that is an array, what [JSON.parse] makes of it
    when it is a non-empty text that parses to an array. *)
Definition stored_vector (env : Env) (item : KnowledgeRow) : option (list float) :=
  match embedding item with
  | JsArray ys => Some ys
  | JsString text =>
      if String.eqb text "" then None
      else match JSON_parse env text with
           | Ok (JsArray ys) => Some ys
           | _ => None
           end
  | _ => None
  end.

(** The rows of the feedback table. *)
Definition feedback_rows (fw : FeedbackWorld) : list FeedbackRow :=
  rows (message_feedback fw).

(** The size the embedding script counts for a run of lines. *)
Definition total_size (lines : list string) : Z :=
  fold_right (fun line n => (EmbeddingScript.lineSize line + n)%Z) 0%Z lines.

(** The chunk [c] holds the lines [mid], found in [lines] at the line
    numbers [startLine c] to [endLine c]. *)
Definition holds_lines (lines : list string) (c : EmbeddingScript.Chunk)
           (mid : list string) : Prop :=
  exists pre post,
    lines = pre ++ mid ++ post /\
    EmbeddingScript.startLine c = Z.of_nat (List.length pre) /\
    EmbeddingScript.endLine c = (Z.of_nat (List.length pre + List.length mid) - 1)%Z.

(** Line number [k] lies in one of the chunks. *)
Definition covered (cs : list EmbeddingScript.Chunk) (k : Z) : Prop :=
  Exists (fun c => (EmbeddingScript.startLine c <= k <= EmbeddingScript.endLine c)%Z) cs.

(** The later chunk starts no earlier and ends later. *)
Definition moves_on (c c' : EmbeddingScript.Chunk) : Prop :=
  (EmbeddingScript.startLine c <= EmbeddingScript.startLine c' /\
   EmbeddingScript.endLine c < EmbeddingScript.endLine c')%Z.

(** A chunk of the file that is made of lines of [lines]. *)
Definition well_formed (fileId fileName : string) (lines : list string)
           (c : EmbeddingScript.Chunk) : Prop :=
  exists mid, mid <> [] /\ holds_lines lines c mid /\
    EmbeddingScript.chunk_content c = AIService.join AIService.newline mid /\
    EmbeddingScript.chunk_size c = total_size mid /\
    EmbeddingScript.chunk_id c
    = (fileId ++ "_chunk_" ++ EmbeddingScript.decimal (EmbeddingScript.chunk_index c))%string /\
    EmbeddingScript.chunk_fileName c = fileName.

(** What the loop of [createChunks] keeps true, the lines [done] being
    read: the chunk being filled is made of the last lines read, from line
    [start] on, and the chunks saved are well formed, in order, ended before
    the last line read, and hold every line before [start]. *)
Definition loop_invariant (fileId fileName : string) (done : list string)
           (st : EmbeddingScript.Loop) : Prop :=
  exists before,
    done = before ++ EmbeddingScript.currentChunk st /\
    EmbeddingScript.start st = Z.of_nat (List.length before) /\
    EmbeddingScript.currentSize st = total_size (EmbeddingScript.currentChunk st) /\
    EmbeddingScript.chunkIndex st = List.length (EmbeddingScript.chunks st) /\
    map EmbeddingScript.chunk_index (EmbeddingScript.chunks st)
    = seq 0 (List.length (EmbeddingScript.chunks st)) /\
    Forall (well_formed fileId fileName done) (EmbeddingScript.chunks st) /\
    Forall (fun c => (EmbeddingScript.startLine c <= EmbeddingScript.start st /\
                      EmbeddingScript.endLine c <= Z.of_nat (List.length done) - 2)%Z)
           (EmbeddingScript.chunks st) /\
    StronglySorted moves_on (EmbeddingScript.chunks st) /\
    (forall k, (0 <= k < EmbeddingScript.start st)%Z ->
               covered (EmbeddingScript.chunks st) k).

(* ================================================================== *)
(** * Example worlds and environments *)
(* ================================================================== *)

Definition empty_table {R : Type} : Table R := {| rows := []; next_id := 1 |}.

(** A world with empty tables, before the first call. *)
Definition cold_start : World :=
  {| step := 0;
     store := {| conversations := empty_table; messages := empty_table;
                 knowledge_items := empty_table; personality := empty_table |};
     cache := None; initialized := false; requests := []; yielded := [] |}.

(** The uuid generated at step [n] in the example environments: the
    letter of rank [n]. *)
Definition letter (n : nat) : string := String (ascii_of_nat (65 + n)) "".

(** An environment in which the store answers every call and the model
    provider is down. *)
Definition provider_down : Env :=
  {| db_fault := fun _ => None;
     gen_random_uuid := letter;
     Date_now := fun n => Z.of_nat n;
     embeddings_create := fun _ => Err "503 Service Unavailable";
     chat_create := fun _ => Err "503 Service Unavailable";
     chat_stream := fun _ => ([], Some "503 Service Unavailable");
     textSearch := fun _ _ => true;
     JSON_parse := fun _ => Err "Unexpected end of JSON input";
     defaultPersonality := None |}.

(** An environment in which the store answers every call and the model
    provider answers every request: the embedding of any text is the
    vector (1, 0), a completion is the text [Hello!], a streamed
    completion sends it in two chunks around an empty one. [JSON.parse]
    accepts the text of that vector and rejects everything else. *)
Definition provider_up : Env :=
  {| db_fault := fun _ => None;
     gen_random_uuid := letter;
     Date_now := fun n => Z.of_nat n;
     embeddings_create := fun _ => Ok [1%float; 0%float];
     chat_create := fun _ => Ok (Some "Hello!");
     chat_stream := fun _ => ([Some "Hel"; None; Some "lo!"], None);
     textSearch := fun _ _ => false;
     JSON_parse := fun text =>
       if String.eqb text "[1,0]" then Ok (JsArray [1%float; 0%float])
       else Err "Unexpected end of JSON input";
     defaultPersonality := None |}.

Definition knowledge_row (id : Z) (uuid title : string) (stored : JsValue) : KnowledgeRow :=
  {| know_id := id; know_uuid := uuid; parent_id := None;
     know_title := title; know_description := None; know_type := document;
     know_content := Some title; file_url := None; file_size := None; file_type := None;
     know_metadata := []; embedding := stored; processed_at := Some 0%Z;
     created_by := "admin"; know_created_at := id; know_updated_at := id |}.

Definition with_knowledge (items : list KnowledgeRow) : World :=
  set_store (set_knowledge_items {| rows := items; next_id := 100 |} (store cold_start))
            cold_start.

(** A knowledge base with one sound item, and the same with an item whose
    stored embedding is a text cut short. *)
Definition sound_item : KnowledgeRow :=
  knowledge_row 1 "k1" "Refund policy" (JsArray [1%float; 0%float]).
Definition corrupt_item : KnowledgeRow :=
  knowledge_row 2 "k2" "Shipping" (JsString "[1,0").
Definition sound_base : World := with_knowledge [sound_item].
Definition corrupt_base : World := with_knowledge [sound_item; corrupt_item].

Definition message_row (id : Z) (uuid : string) (type : Role) (content : string) : MessageRow :=
  {| msg_id := id; msg_uuid := uuid; conversation_id := 1; parent_message_id := None;
     msg_type := type; msg_content := content; msg_status := completed;
     msg_metadata := []; msg_created_at := id; msg_updated_at := id |}.

Definition conversation_row (count : Z) : ConversationRow :=
  {| conv_id := 1; conv_uuid := "conv"; creator_id := "u1";
     conv_title := "New Conversation"; message_count := count;
     conv_created_at := 0%Z; conv_updated_at := count; deleted_at := None |}.

(** An initialised assistant with one conversation holding the given
    messages. *)
Definition with_messages (history : list MessageRow) : World :=
  set_initialized true
    (set_store
       (set_messages {| rows := history; next_id := 100 |}
          (set_conversations
             {| rows := [conversation_row (Z.of_nat (List.length history))]; next_id := 2 |}
             (store cold_start)))
       cold_start).

(** Ten messages, [m1] the oldest and [m10] the latest. *)
Definition ten_messages : list MessageRow :=
  [ message_row 1 "m1" user "q1"; message_row 2 "m2" assistant "a1";
    message_row 3 "m3" user "q2"; message_row 4 "m4" assistant "a2";
    message_row 5 "m5" user "q3"; message_row 6 "m6" assistant "a3";
    message_row 7 "m7" user "q4"; message_row 8 "m8" assistant "a4";
    message_row 9 "m9" user "q5"; message_row 10 "m10" assistant "a5" ].

(** The environment [provider_up] with a clock that starts after the
    stored messages. *)
Definition provider_up_later : Env :=
  {| db_fault := db_fault provider_up;
     gen_random_uuid := gen_random_uuid provider_up;
     Date_now := fun n => (1000 + Z.of_nat n)%Z;
     embeddings_create := embeddings_create provider_up;
     chat_create := chat_create provider_up;
     chat_stream := chat_stream provider_up;
     textSearch := textSearch provider_up;
     JSON_parse := JSON_parse provider_up;
     defaultPersonality := defaultPersonality provider_up |}.

Definition continue_conv (message : string) : SendMessageInput :=
  {| in_message := message; in_conversationId := Some "conv";
     in_userId := None; in_context := None |}.

(** The prior turns of the last request sent to the chat endpoint: its
    messages without the system prompt and the new user message. *)
Definition prior_turns (w : World) : list ChatMessage :=
  match last (requests w) (req_embedding "") with
  | req_chat _ (_ :: turns) => removelast turns
  | _ => []
  end.

(** An input that supplies both a conversation and a user. *)
Definition both_ids : SendMessageInput :=
  {| in_message := "hi"; in_conversationId := Some "conv";
     in_userId := Some "u1"; in_context := None |}.

(** The environment [provider_up_later] with one fault of the store, at
    the given step. *)
Definition fault_at (k : nat) : Env :=
  {| db_fault := fun n => if Nat.eqb n k then Some "connection reset" else None;
     gen_random_uuid := gen_random_uuid provider_up_later;
     Date_now := Date_now provider_up_later;
     embeddings_create := embeddings_create provider_up_later;
     chat_create := chat_create provider_up_later;
     chat_stream := chat_stream provider_up_later;
     textSearch := textSearch provider_up_later;
     JSON_parse := JSON_parse provider_up_later;
     defaultPersonality := defaultPersonality provider_up_later |}.

(** A page of the web with content, and an update that brings content. *)
Definition url_item : KnowledgeItemInput :=
  {| ki_parentId := None; ki_title := "Pricing page"; ki_description := None;
     ki_type := url; ki_content := Some "Plans start at 10 USD.";
     ki_fileUrl := Some "https://example.com/pricing"; ki_fileSize := None;
     ki_fileType := None; ki_metadata := None; ki_createdBy := "admin" |}.

Definition content_update : KnowledgeItemUpdates :=
  {| up_parentId := None; up_title := None; up_description := None; up_type := None;
     up_content := Some "Refunds within 30 days."; up_fileUrl := None; up_fileSize := None;
     up_fileType := None; up_metadata := None; up_createdBy := None |}.

(** The environment [provider_up_later] with a model that answers with
    empty contents. *)
Definition provider_silent : Env :=
  {| db_fault := db_fault provider_up_later;
     gen_random_uuid := gen_random_uuid provider_up_later;
     Date_now := Date_now provider_up_later;
     embeddings_create := embeddings_create provider_up_later;
     chat_create := fun _ => Ok (Some "");
     chat_stream := fun _ => ([Some ""; None], None);
     textSearch := textSearch provider_up_later;
     JSON_parse := JSON_parse provider_up_later;
     defaultPersonality := defaultPersonality provider_up_later |}.

Definition conversation_of (id : Z) (uuid creator : string) (updated : Z)
           (deleted : option Z) : ConversationRow :=
  {| conv_id := id; conv_uuid := uuid; creator_id := creator;
     conv_title := "Chat"; message_count := 0;
     conv_created_at := id; conv_updated_at := updated; deleted_at := deleted |}.

(** An initialised assistant with the conversations [c1] and [c4] of the
    user [u1], the deleted conversation [c3] of the same user, and the
    conversation [c2] of [u2]; [c1] holds the two messages [m1] and [m2]. *)
Definition four_conversations : World :=
  set_initialized true
    (set_store
       (set_messages
          {| rows := [message_row 1 "m1" user "q1"; message_row 2 "m2" assistant "a1"];
             next_id := 3 |}
          (set_conversations
             {| rows := [conversation_of 1 "c1" "u1" 5 None;
                         conversation_of 2 "c2" "u2" 7 None;
                         conversation_of 3 "c3" "u1" 8 (Some 8%Z);
                         conversation_of 4 "c4" "u1" 9 None];
                next_id := 5 |}
             (store cold_start)))
       cold_start).

(** An update that empties the content of an item. *)
Definition clear_content : KnowledgeItemUpdates :=
  {| up_parentId := None; up_title := None; up_description := None; up_type := None;
     up_content := Some ""; up_fileUrl := None; up_fileSize := None;
     up_fileType := None; up_metadata := None; up_createdBy := None |}.

(** A knowledge base of two sound items, [k1] older than [k3]. *)
Definition two_items : World :=
  with_knowledge [sound_item; knowledge_row 3 "k3" "Returns" (JsArray [0%float; 1%float])].

(** The assistant of [four_conversations] with no feedback yet. *)
Definition no_feedback : FeedbackWorld :=
  {| app := four_conversations; message_feedback := empty_table |}.

(** A configuration of the embedding script: chunks of 7 characters with
    an overlap of 3. *)
Definition small_chunks : EmbeddingScript.Config :=
  {| EmbeddingScript.chunkSize := 7; EmbeddingScript.chunkOverlap := 3 |}.

(** A content of five lines. *)
Definition five_lines : string :=
  AIService.join AIService.newline ["ab"; "cd"; "e"; "fgh"; "i"].

(* ================================================================== *)
(** * Properties *)
(* ================================================================== *)

Unset Implicit Arguments.
Import KnowledgeService.

(* ------------------------------------------------------------------ *)
(** ** Similarity engine *)
(* ------------------------------------------------------------------ *)

Section FoldFacts.
Context {N : Type} `{JsArith N}.

(** With arrays of one length, [reduce] over [a] reading [b[i]] is a fold
    over the pairs of [a] and [b]. *)
Lemma reduce_pairs (a : list N) :
  forall (b pre : list N) (acc : N),
    List.length a = List.length b ->
    reduce_from (fun sum val i => num_add sum (num_mul val (index_num (pre ++ b) i)))
                a (List.length pre) acc
    = fold_left (fun sum p => num_add sum (num_mul (fst p) (snd p))) (combine a b) acc.
Proof.
  induction a as [|x a IH]; intros [|y b] pre acc Hlen; simpl in *; try discriminate; auto.
  injection Hlen as Hlen.
  replace (index_num (pre ++ y :: b) (List.length pre)) with y
    by (unfold index_num; now rewrite nth_middle).
  specialize (IH b (pre ++ [y]) (num_add acc (num_mul x y)) Hlen).
  rewrite length_app in IH. simpl in IH. rewrite Nat.add_1_r in IH.
  rewrite <- app_assoc in IH. simpl in IH. exact IH.
Qed.

Lemma dotProduct_pairs (a b : list N) :
  List.length a = List.length b ->
  Similarity.dotProduct a b
  = fold_left (fun sum p => num_add sum (num_mul (fst p) (snd p))) (combine a b) num_zero.
Proof.
  intros Hlen. unfold Similarity.dotProduct, reduce.
  exact (reduce_pairs a b [] num_zero Hlen).
Qed.

Lemma reduce_squares (a : list N) :
  forall (i : nat) (acc : N),
    reduce_from (fun sum val (_ : nat) => num_add sum (num_mul val val)) a i acc
    = fold_left (fun sum val => num_add sum (num_mul val val)) a acc.
Proof.
  induction a as [|x a IH]; intros i acc; simpl; auto.
Qed.
End FoldFacts.

(** *** binary64 *)

Lemma float_mul_comm (x y : float) : PrimFloat.mul x y = PrimFloat.mul y x.
Proof.
  apply Prim2SF_inj. rewrite !mul_spec.
  unfold SF64mul.
  destruct (Prim2SF x) as [sx|sx| |sx mx ex], (Prim2SF y) as [sy|sy| |sy my ey];
    simpl; try reflexivity;
    try (rewrite (xorb_comm sx sy); reflexivity).
  rewrite (xorb_comm sx sy), (Pos.mul_comm mx my), (Z.add_comm ex ey). reflexivity.
Qed.

Lemma fold_pairs_swap (a : list float) :
  forall (b : list float) (acc : float),
    fold_left (fun sum p => PrimFloat.add sum (PrimFloat.mul (fst p) (snd p))) (combine a b) acc
    = fold_left (fun sum p => PrimFloat.add sum (PrimFloat.mul (fst p) (snd p))) (combine b a) acc.
Proof.
  induction a as [|x a IH]; intros [|y b] acc; simpl; auto.
  rewrite (float_mul_comm x y). apply IH.
Qed.

Lemma cosine_float_sym (a b : list float) :
  Similarity.cosine a b = Similarity.cosine b a.
Proof.
  unfold Similarity.cosine.
  rewrite (Nat.eqb_sym (List.length b) (List.length a)).
  destruct (Nat.eqb (List.length a) (List.length b)) eqn:Hlen; cbn [negb]; cbv zeta; auto.
  apply Nat.eqb_eq in Hlen.
  rewrite (orb_comm (num_is_zero (Similarity.magnitude b))).
  rewrite (dotProduct_pairs a b Hlen), (dotProduct_pairs b a (eq_sym Hlen)).
  change (@num_mul float float_arith) with PrimFloat.mul.
  change (@num_add float float_arith) with PrimFloat.add.
  rewrite (fold_pairs_swap a b).
  rewrite (float_mul_comm (Similarity.magnitude b) (Similarity.magnitude a)).
  reflexivity.
Qed.

Lemma cosine_float_mismatch (a b : list float) :
  List.length a <> List.length b -> Similarity.cosine a b = 0%float.
Proof.
  intros Hlen. unfold Similarity.cosine.
  apply Nat.eqb_neq in Hlen. rewrite Hlen. reflexivity.
Qed.

Lemma cosine_float_empty_l (b : list float) : Similarity.cosine [] b = 0%float.
Proof. destruct b; reflexivity. Qed.

Lemma cosine_float_empty_r (a : list float) : Similarity.cosine a [] = 0%float.
Proof. rewrite cosine_float_sym. apply cosine_float_empty_l. Qed.

(** *** Exact arithmetic *)

Local Open Scope R_scope.

Lemma step_cauchy_schwarz (d a b x y : R) :
  0 <= a -> 0 <= b -> d * d <= a * b ->
  (d + x * y) * (d + x * y) <= (a + x * x) * (b + y * y).
Proof.
  intros Ha Hb Hd.
  assert (H2 : 2 * d * x * y <= a * (y * y) + b * (x * x)).
  { destruct (Rle_lt_dec (2 * d * x * y) 0) as [Hneg|Hpos].
    - assert (0 <= a * (y * y)) by (apply Rmult_le_pos; nra).
      assert (0 <= b * (x * x)) by (apply Rmult_le_pos; nra).
      lra.
    - assert (Hsq : (2 * d * x * y) * (2 * d * x * y)
                    <= (a * (y * y) + b * (x * x)) * (a * (y * y) + b * (x * x))).
      { assert (0 <= (a * (y * y) - b * (x * x)) * (a * (y * y) - b * (x * x)))
          by apply Rle_0_sqr.
        assert (0 <= (x * y) * (x * y)) by apply Rle_0_sqr.
        assert ((d * d) * ((x * y) * (x * y)) <= (a * b) * ((x * y) * (x * y)))
          by (apply Rmult_le_compat_r; assumption).
        nra. }
      assert (0 <= a * (y * y) + b * (x * x)).
      { assert (0 <= a * (y * y)) by (apply Rmult_le_pos; nra).
        assert (0 <= b * (x * x)) by (apply Rmult_le_pos; nra).
        lra. }
      nra. }
  nra.
Qed.

Lemma cauchy_schwarz_fold (a : list R) :
  forall (b : list R) (d0 a0 b0 : R),
    List.length a = List.length b ->
    0 <= a0 -> 0 <= b0 -> d0 * d0 <= a0 * b0 ->
    let D := fold_left (fun sum p => sum + fst p * snd p) (combine a b) d0 in
    let A := fold_left (fun sum val => sum + val * val) a a0 in
    let B := fold_left (fun sum val => sum + val * val) b b0 in
    D * D <= A * B /\ 0 <= A /\ 0 <= B.
Proof.
  induction a as [|x a IH]; intros [|y b] d0 a0 b0 Hlen Ha Hb Hd; simpl in *;
    try discriminate; auto.
  injection Hlen as Hlen.
  apply IH; auto.
  - assert (0 <= x * x) by apply Rle_0_sqr. lra.
  - assert (0 <= y * y) by apply Rle_0_sqr. lra.
  - apply step_cauchy_schwarz; assumption.
Qed.

Lemma fold_squares_le (a : list R) :
  forall a0 : R, a0 <= fold_left (fun sum val => sum + val * val) a a0.
Proof.
  induction a as [|x a IH]; intros a0; simpl; [lra|].
  specialize (IH (a0 + x * x)). assert (0 <= x * x) by apply Rle_0_sqr. lra.
Qed.

Lemma fold_squares_pos (a : list R) :
  forall a0 : R, 0 <= a0 -> (exists x, In x a /\ x <> 0) ->
                 0 < fold_left (fun sum val => sum + val * val) a a0.
Proof.
  induction a as [|x a IH]; intros a0 Ha (z & Hin & Hz); simpl in *; [contradiction|].
  destruct Hin as [->|Hin].
  - assert (0 < z * z) by (apply Rsqr_pos_lt; assumption).
    pose proof (fold_squares_le a (a0 + z * z)). lra.
  - apply IH; [|exists z; auto].
    assert (0 <= x * x) by apply Rle_0_sqr. lra.
Qed.

Lemma fold_pairs_self (a : list R) :
  forall d0 : R,
    fold_left (fun sum p => sum + fst p * snd p) (combine a a) d0
    = fold_left (fun sum val => sum + val * val) a d0.
Proof.
  induction a as [|x a IH]; intros d0; simpl; auto.
Qed.

Lemma exact_unfold (a b : list R) :
  List.length a = List.length b ->
  cosineSimilarity_exact a b =
    let D := fold_left (fun sum p => sum + fst p * snd p) (combine a b) 0 in
    let A := fold_left (fun sum val => sum + val * val) a 0 in
    let B := fold_left (fun sum val => sum + val * val) b 0 in
    if (if Req_dec_T (sqrt A) 0 then true else false)
       || (if Req_dec_T (sqrt B) 0 then true else false)
    then 0 else D / (sqrt A * sqrt B).
Proof.
  intros Hlen. unfold cosineSimilarity_exact, Similarity.cosine.
  rewrite (proj2 (Nat.eqb_eq _ _) Hlen). cbn [negb]. cbv zeta.
  rewrite (dotProduct_pairs a b Hlen).
  unfold Similarity.magnitude, reduce. rewrite !reduce_squares.
  reflexivity.
Qed.

Lemma cosine_exact_self (a : list R) :
  (exists x, In x a /\ x <> 0) -> cosineSimilarity_exact a a = 1.
Proof.
  intros Hnz. rewrite (exact_unfold a a eq_refl). cbv zeta.
  rewrite fold_pairs_self.
  set (A := fold_left (fun sum val => sum + val * val) a 0).
  assert (HA : 0 < A) by (apply fold_squares_pos; [lra|assumption]).
  assert (Hs : 0 < sqrt A) by (apply sqrt_lt_R0; assumption).
  destruct (Req_dec_T (sqrt A) 0) as [E|_]; [lra|]. simpl.
  rewrite sqrt_sqrt by lra. field. lra.
Qed.

Lemma cosine_exact_range (a b : list R) :
  List.length a = List.length b -> -1 <= cosineSimilarity_exact a b <= 1.
Proof.
  intros Hlen. rewrite (exact_unfold a b Hlen). cbv zeta.
  destruct (cauchy_schwarz_fold a b 0 0 0 Hlen) as (HD & HA & HB); try lra.
  cbv zeta in HD, HA, HB.
  set (D := fold_left (fun sum p => sum + fst p * snd p) (combine a b) 0) in *.
  set (A := fold_left (fun sum val => sum + val * val) a 0) in *.
  set (B := fold_left (fun sum val => sum + val * val) b 0) in *.
  destruct (Req_dec_T (sqrt A) 0) as [EA|NA]; simpl; [lra|].
  destruct (Req_dec_T (sqrt B) 0) as [EB|NB]; simpl; [lra|].
  assert (Hsa : 0 < sqrt A) by (pose proof (sqrt_pos A); lra).
  assert (Hsb : 0 < sqrt B) by (pose proof (sqrt_pos B); lra).
  assert (Hm : 0 < sqrt A * sqrt B) by (apply Rmult_lt_0_compat; assumption).
  assert (Hsq : (sqrt A * sqrt B) * (sqrt A * sqrt B) = A * B).
  { replace ((sqrt A * sqrt B) * (sqrt A * sqrt B))
      with ((sqrt A * sqrt A) * (sqrt B * sqrt B)) by ring.
    rewrite !sqrt_sqrt by assumption. reflexivity. }
  assert (Habs : - (sqrt A * sqrt B) <= D <= sqrt A * sqrt B) by nra.
  split.
  - apply Rmult_le_reg_r with (sqrt A * sqrt B); [assumption|].
    unfold Rdiv. rewrite Rmult_assoc, Rinv_l by lra. lra.
  - apply Rmult_le_reg_r with (sqrt A * sqrt B); [assumption|].
    unfold Rdiv. rewrite Rmult_assoc, Rinv_l by lra. lra.
Qed.

Local Close Scope R_scope.




(* ------------------------------------------------------------------ *)
(** ** Reasoning about calls *)
(* ------------------------------------------------------------------ *)

Lemma bind_Ok {A B : Type} (m : M A) (k : A -> M B) env w b w' :
  bind m k env w = (Ok b, w') ->
  exists a w1, m env w = (Ok a, w1) /\ k a env w1 = (Ok b, w').
Proof.
  unfold bind. destruct (m env w) as [[a|e] w1]; intros H; [|discriminate].
  exists a, w1. auto.
Qed.

Lemma bind_inv {A B : Type} (m : M A) (k : A -> M B) env w r w' :
  bind m k env w = (r, w') ->
  (exists a w1, m env w = (Ok a, w1) /\ k a env w1 = (r, w')) \/
  (exists e, m env w = (Err e, w') /\ r = Err e).
Proof.
  unfold bind. destruct (m env w) as [[a|e] w1]; intros H.
  - left. exists a, w1. auto.
  - right. exists e. injection H as <- <-. auto.
Qed.

Lemma bind_eq_Ok {A B : Type} (m : M A) (k : A -> M B) env w a w1 :
  m env w = (Ok a, w1) -> bind m k env w = k a env w1.
Proof. unfold bind. intros ->. reflexivity. Qed.

Lemma bind_eq_Err {A B : Type} (m : M A) (k : A -> M B) env w e w1 :
  m env w = (Err e, w1) -> bind m k env w = (Err e, w1).
Proof. unfold bind. intros ->. reflexivity. Qed.

Lemma total_ret {A : Type} (a : A) : total (ret a).
Proof. intros env w. exists a, w. reflexivity. Qed.

Lemma total_bind {A B : Type} (m : M A) (k : A -> M B) :
  total m -> (forall a, total (k a)) -> total (bind m k).
Proof.
  intros Hm Hk env w. destruct (Hm env w) as (a & w1 & E).
  rewrite (bind_eq_Ok _ _ _ _ _ _ E). apply Hk.
Qed.

Lemma total_try_catch {A : Type} (body : M A) (handler : string -> M A) :
  (forall e, total (handler e)) -> total (try_catch body handler).
Proof.
  intros Hh env w. unfold try_catch.
  destruct (body env w) as [[a|e] w1]; [exists a, w1; reflexivity | apply Hh].
Qed.

Lemma total_store_call {A : Type} (run : string -> Store -> DbResult A * Store) :
  total (store_call run).
Proof.
  intros env w. unfold store_call.
  destruct (db_fault env (step w)); [eauto|].
  destruct (run _ _); eauto.
Qed.

Lemma total_config {A : Type} (f : Env -> A) : total (config f).
Proof. intros env w. eexists _, _. reflexivity. Qed.

Lemma total_semanticSearch query limit_ threshold :
  total (KnowledgeService.semanticSearch query limit_ threshold).
Proof. apply total_try_catch. intros e. apply total_ret. Qed.

Lemma total_keywordSearch query limit_ :
  total (KnowledgeRepository.keywordSearch query limit_).
Proof.
  unfold KnowledgeRepository.keywordSearch.
  apply total_bind; [apply total_config|]. intros matching.
  apply total_bind; [apply total_store_call|].
  intros [data|error]; apply total_ret.
Qed.

(* ------------------------------------------------------------------ *)
(** ** Hybrid search *)
(* ------------------------------------------------------------------ *)

Lemma dedup_acc (results : list SearchResult) :
  forall seen combined,
    dedup results seen combined = combined ++ dedup results seen [].
Proof.
  induction results as [|r rest IH]; intros seen combined; simpl.
  - now rewrite app_nil_r.
  - destruct (existsb (String.eqb (sr_uuid r)) seen); simpl.
    + apply IH.
    + rewrite (IH _ (combined ++ [r])), (IH _ [r]). now rewrite <- app_assoc.
Qed.

Lemma existsb_eqb_In (u : string) (seen : list string) :
  existsb (String.eqb u) seen = true <-> In u seen.
Proof.
  rewrite existsb_exists. split.
  - intros (x & Hin & E). apply String.eqb_eq in E. now subst.
  - intros Hin. exists u. split; [assumption | apply String.eqb_refl].
Qed.

Lemma dedup_spec (results : list SearchResult) :
  forall seen,
    NoDup (map sr_uuid (dedup results seen [])) /\
    (forall r, In r (dedup results seen []) ->
               ~ In (sr_uuid r) seen /\ first_with (sr_uuid r) results = Some r).
Proof.
  induction results as [|x rest IH]; intros seen; simpl.
  - split; [constructor | intros r []].
  - destruct (existsb (String.eqb (sr_uuid x)) seen) eqn:Eseen; simpl.
    + apply existsb_eqb_In in Eseen.
      destruct (IH seen) as (Hnd & Hfirst). split; [assumption|].
      intros r Hr. destruct (Hfirst r Hr) as (Hns & Hf). split; [assumption|].
      unfold first_with in *. simpl.
      destruct (String.eqb (sr_uuid x) (sr_uuid r)) eqn:E; [|assumption].
      apply String.eqb_eq in E. rewrite E in Eseen. contradiction.
    + assert (Hnot : ~ In (sr_uuid x) seen).
      { intros Hin. apply existsb_eqb_In in Hin. congruence. }
      rewrite dedup_acc. simpl.
      destruct (IH (sr_uuid x :: seen)) as (Hnd & Hfirst). split.
      * constructor; [|assumption].
        intros Hin. apply in_map_iff in Hin. destruct Hin as (r & Er & Hr).
        destruct (Hfirst r Hr) as (Hns & _). apply Hns. left. now symmetry.
      * intros r [<-|Hr].
        -- split; [assumption|]. unfold first_with. simpl. now rewrite String.eqb_refl.
        -- destruct (Hfirst r Hr) as (Hns & Hf). split.
           ++ intros Hin. apply Hns. now right.
           ++ unfold first_with in *. simpl.
              destruct (String.eqb (sr_uuid x) (sr_uuid r)) eqn:E; [|assumption].
              apply String.eqb_eq in E. exfalso. apply Hns. now left.
Qed.

Lemma In_firstn {A : Type} (n : nat) (l : list A) (x : A) :
  In x (firstn n l) -> In x l.
Proof.
  revert n. induction l as [|y l IH]; intros [|n] Hin; simpl in *; try contradiction.
  destruct Hin as [->|Hin]; [now left | right; eauto].
Qed.

Lemma NoDup_firstn {A : Type} (n : nat) (l : list A) : NoDup l -> NoDup (firstn n l).
Proof.
  revert n. induction l as [|x l IH]; intros [|n] Hnd; simpl; try constructor.
  - inversion Hnd as [|? ? Hx Hl]; subst.
    intros Hin. apply Hx. eapply In_firstn; eassumption.
  - inversion Hnd; subst. auto.
Qed.

Lemma ceil_half_bounds (n : nat) : n <= 2 * ceil_half n <= n + 1.
Proof.
  unfold ceil_half.
  destruct (Nat.Even_Odd_dec (S n)) as [He|Ho].
  - pose proof (Nat.Even_double _ He) as Hd. unfold Nat.double in Hd. lia.
  - pose proof (Nat.Odd_double _ Ho) as Hd. unfold Nat.double in Hd. lia.
Qed.

Lemma find_app_l {A : Type} (f : A -> bool) (l l' : list A) (x : A) :
  find f (l ++ l') = Some x -> (exists y, In y l /\ f y = true) -> In x l.
Proof.
  induction l as [|z l IH]; simpl; intros Hf (y & Hin & Hy); [contradiction|].
  destruct (f z) eqn:Ez.
  - injection Hf as <-. now left.
  - destruct Hin as [->|Hin]; [congruence|]. right. apply IH; eauto.
Qed.


(* ------------------------------------------------------------------ *)
(** ** What a call leaves unchanged *)
(* ------------------------------------------------------------------ *)

Section Keeps.
Context {X : Type} (f : World -> X).

Lemma keeps_ret {A : Type} (a : A) : keeps f (ret a).
Proof. intros env w r w' H. injection H as <- <-. reflexivity. Qed.

Lemma keeps_throw {A : Type} (message : string) : keeps f (@throw A message).
Proof. intros env w r w' H. injection H as <- <-. reflexivity. Qed.

Lemma keeps_config {A : Type} (g : Env -> A) : keeps f (config g).
Proof. intros env w r w' H. injection H as <- <-. reflexivity. Qed.

Lemma keeps_get {A : Type} (g : World -> A) : keeps f (get g).
Proof. intros env w r w' H. injection H as <- <-. reflexivity. Qed.

Lemma keeps_bind {A B : Type} (m : M A) (k : A -> M B) :
  keeps f m -> (forall a, keeps f (k a)) -> keeps f (bind m k).
Proof.
  intros Hm Hk env w r w' H. apply bind_inv in H.
  destruct H as [(a & w1 & Em & Ek) | (e & Em & _)].
  - rewrite (Hk a env w1 r w' Ek). exact (Hm env w _ w1 Em).
  - exact (Hm env w _ w' Em).
Qed.

Lemma keeps_try_catch {A : Type} (body : M A) (handler : string -> M A) :
  keeps f body -> (forall e, keeps f (handler e)) -> keeps f (try_catch body handler).
Proof.
  intros Hb Hh env w r w' H. unfold try_catch in H.
  destruct (body env w) as [[a|e] w1] eqn:Eb.
  - injection H as <- <-. exact (Hb env w _ _ Eb).
  - rewrite (Hh e env w1 r w' H). exact (Hb env w _ _ Eb).
Qed.

Lemma keeps_modify (g : World -> World) :
  (forall w, f (g w) = f w) -> keeps f (modify g).
Proof. intros Hg env w r w' H. injection H as <- <-. apply Hg. Qed.

Hypothesis f_step : forall n w, f (set_step n w) = f w.

Lemma keeps_ask {A : Type} (g : Env -> nat -> A) : keeps f (ask g).
Proof. intros env w r w' H. injection H as <- <-. apply f_step. Qed.

Lemma keeps_new_Date : keeps f new_Date.
Proof. apply keeps_ask. Qed.

Lemma keeps_store_call {A : Type} (run : string -> Store -> DbResult A * Store) :
  (forall u s w, f (set_store (snd (run u s)) w) = f (set_store s w)) ->
  keeps f (store_call run).
Proof.
  intros Hrun env w r w' H. unfold store_call in H.
  destruct (db_fault env (step w)).
  - injection H as <- <-. apply f_step.
  - specialize (Hrun (gen_random_uuid env (step w)) (store w) (set_step (S (step w)) w)).
    destruct (run _ _) as [answer s']. injection H as <- <-.
    simpl in Hrun. rewrite Hrun.
    destruct w; simpl. apply (f_step (S step0)
      {| step := step0; store := store0; cache := cache0; initialized := initialized0;
         requests := requests0; yielded := yielded0 |}).
Qed.

Lemma keeps_select {R : Type} (q : Store -> list R) : keeps f (select q).
Proof. apply keeps_store_call. reflexivity. Qed.

Lemma keeps_select_single {R : Type} (q : Store -> list R) : keeps f (select_single q).
Proof. apply keeps_store_call. reflexivity. Qed.
End Keeps.

Ltac keeps_leaf :=
  first
    [ apply keeps_ret
    | apply keeps_throw
    | apply keeps_config
    | apply keeps_get
    | apply keeps_ask; intros; reflexivity
    | apply keeps_new_Date; intros; reflexivity
    | apply keeps_select; intros; reflexivity
    | apply keeps_select_single; intros; reflexivity
    | apply keeps_modify; intros; reflexivity
    | apply keeps_store_call; [intros; reflexivity | intros; reflexivity] ].

Ltac keeps_tac :=
  repeat
    first
      [ keeps_leaf
      | apply keeps_bind; [| intros ?]
      | apply keeps_try_catch; [| intros ?]
      | match goal with
        | |- keeps _ (match ?x with _ => _ end) => destruct x
        | |- keeps _ (if ?b then _ else _) => destruct b
        end ].

(* ------------------------------------------------------------------ *)
(** ** Semantic search and the embedding provider *)
(* ------------------------------------------------------------------ *)

Lemma generateEmbedding_run (text : string) env w :
  AIService.generateEmbedding text env w =
    (match embeddings_create env (step w) with
     | Ok e => Ok e
     | Err message => Err message
     end,
     set_step (S (step w))
       (set_requests (requests w ++ [req_embedding (substring0 8000 text)]) w)).
Proof.
  unfold AIService.generateEmbedding, bind, send, modify, ask. simpl.
  destruct (embeddings_create env (step w)); reflexivity.
Qed.

(** C6. When the call to the embedding provider fails during a semantic
    search, the search returns the empty array instead of throwing, in
    semantic mode of [search] as well, and the store is left as it was. *)
Theorem semanticSearch_embedding_failure
        (query : string) (limit_ : nat) (threshold : float)
        (env : Env) (w : World) (message : string) :
  embeddings_create env (step w) = Err message ->
  exists w',
    semanticSearch query limit_ threshold env w = (Ok [], w') /\
    search query limit_ threshold semantic env w = (Ok [], w') /\
    store w' = store w.
Proof.
  intros Hfail.
  assert (E : semanticSearch query limit_ threshold env w =
              (Ok [], set_step (S (step w))
                        (set_requests (requests w ++ [req_embedding (substring0 8000 query)]) w))).
  { unfold semanticSearch, try_catch, bind. rewrite generateEmbedding_run, Hfail. reflexivity. }
  eexists. split; [exact E|]. split; [exact E | reflexivity].
Qed.

(** C6 at a provider that is down. *)
Lemma semanticSearch_embedding_failure_witness :
  exists w',
    semanticSearch "refund policy" 5 AssistantAI.turn_threshold provider_down cold_start
      = (Ok [], w') /\
    search "refund policy" 5 AssistantAI.turn_threshold semantic provider_down cold_start
      = (Ok [], w') /\
    store w' = store cold_start.
Proof.
  apply (semanticSearch_embedding_failure "refund policy" 5 AssistantAI.turn_threshold
           provider_down cold_start "503 Service Unavailable").
  reflexivity.
Defined.

(* ------------------------------------------------------------------ *)
(** ** Store calls *)
(* ------------------------------------------------------------------ *)

Lemma store_call_inv {A : Type} (run : string -> Store -> DbResult A * Store) env w r w' :
  store_call run env w = (r, w') ->
  exists answer,
    r = Ok answer /\ step w' = S (step w) /\
    match db_fault env (step w) with
    | Some m => answer = DbError_ (DbFault m) /\ store w' = store w
    | None => (answer, store w') = run (gen_random_uuid env (step w)) (store w)
    end.
Proof.
  unfold store_call. intros H.
  destruct (db_fault env (step w)) as [m|].
  - injection H as <- <-. eexists. repeat split.
  - destruct (run _ _) as [answer s']. injection H as <- <-.
    eexists. repeat split.
Qed.

(** A successful insertion appends the row built from the next key and
    the uuid generated at this step; neither was in the table. *)
Lemma insert_inv {R : Type} (table : Store -> Table R)
      (set_table : Table R -> Store -> Store) (key : R -> Z) (uuid : R -> string)
      (values : Z -> string -> R) env w row w' :
  (forall t s, table (set_table t s) = t) ->
  insert table set_table key uuid values env w = (Ok (DbData row), w') ->
  row = values (next_id (table (store w))) (gen_random_uuid env (step w)) /\
  rows (table (store w')) = rows (table (store w)) ++ [row] /\
  store w' = set_table {| rows := rows (table (store w)) ++ [row];
                          next_id := next_id (table (store w)) + 1 |} (store w) /\
  (forall r, In r (rows (table (store w))) -> uuid r <> uuid row /\ key r <> key row) /\
  db_fault env (step w) = None /\
  step w' = S (step w).
Proof.
  intros Hlens H. unfold insert in H. apply store_call_inv in H.
  destruct H as (answer & Ea & Hstep & H). injection Ea as <-.
  destruct (db_fault env (step w)) as [m|]; [destruct H; discriminate|].
  destruct (existsb _ _) eqn:Ex; [discriminate|].
  injection H as -> Hs. rewrite Hs, Hlens. simpl. repeat split; auto.
  - intros E. assert (Hex : existsb
        (fun r0 => (key r0 =? key (values (next_id (table (store w)))
                                         (gen_random_uuid env (step w))))%Z
                   || String.eqb (uuid r0) (uuid (values (next_id (table (store w)))
                                                        (gen_random_uuid env (step w)))))
        (rows (table (store w))) = true).
    { apply existsb_exists. exists r. split; [assumption|].
      rewrite E, String.eqb_refl. apply orb_true_r. }
    congruence.
  - intros E. assert (Hex : existsb
        (fun r0 => (key r0 =? key (values (next_id (table (store w)))
                                         (gen_random_uuid env (step w))))%Z
                   || String.eqb (uuid r0) (uuid (values (next_id (table (store w)))
                                                        (gen_random_uuid env (step w)))))
        (rows (table (store w))) = true).
    { apply existsb_exists. exists r. split; [assumption|].
      rewrite E, Z.eqb_refl. reflexivity. }
    congruence.
Qed.

(** An insertion that is refused or faulted leaves the rows as they were. *)
Lemma insert_error_rows {R : Type} (table : Store -> Table R)
      (set_table : Table R -> Store -> Store) (key : R -> Z) (uuid : R -> string)
      (values : Z -> string -> R) env w error w' :
  (forall t s, table (set_table t s) = t) ->
  insert table set_table key uuid values env w = (Ok (DbError_ error), w') ->
  rows (table (store w')) = rows (table (store w)).
Proof.
  intros Hlens H. unfold insert in H. apply store_call_inv in H.
  destruct H as (answer & Ea & Hstep & H). injection Ea as <-.
  destruct (db_fault env (step w)) as [m|].
  - destruct H as (_ & ->). reflexivity.
  - destruct (existsb _ _) eqn:Ex; [|discriminate].
    injection H as _ Hs. rewrite Hs, Hlens. reflexivity.
Qed.

Lemma update_inv {R : Type} (table : Store -> Table R)
      (set_table : Table R -> Store -> Store)
      (selected : R -> bool) (values : R -> R) (check : bool) env w w' :
  (forall t s, table (set_table t s) = t) ->
  update table set_table selected values check env w = (Ok (DbData tt), w') ->
  check = true /\
  store w' = set_table {| rows := map (fun r => if selected r then values r else r)
                                      (rows (table (store w)));
                          next_id := next_id (table (store w)) |} (store w) /\
  rows (table (store w')) = map (fun r => if selected r then values r else r)
                                (rows (table (store w))) /\
  db_fault env (step w) = None.
Proof.
  intros Hlens H. unfold update in H. apply store_call_inv in H.
  destruct H as (answer & Ea & Hstep & H). injection Ea as <-.
  destruct (db_fault env (step w)) as [m|]; [destruct H; discriminate|].
  destruct check; [|discriminate].
  injection H as Hs. rewrite Hs, Hlens. auto.
Qed.

(* ------------------------------------------------------------------ *)
(** ** Embeddings of created and updated knowledge items *)
(* ------------------------------------------------------------------ *)

Create HintDb keeps.

Ltac keeps_known := solve [auto with keeps nocore].

(** [use_keeps f E]: from the run [E] of a call that keeps [f], the
    equation between the two worlds. *)
Ltac use_keeps f E :=
  match type of E with
  | ?m ?env ?w = (?r, ?w') =>
      let K := fresh "K" in
      assert (K : f w' = f w)
        by (apply (fun Hk : keeps f m => Hk env w r w' E);
            first [ keeps_known | keeps_tac; keeps_known ])
  end.

Lemma create_keeps_requests item embedding_ :
  keeps requests (KnowledgeRepository.create item embedding_).
Proof. unfold KnowledgeRepository.create, insert. keeps_tac. Qed.

Lemma update_keeps_requests itemId updates embedding_ :
  keeps requests (KnowledgeRepository.update_ itemId updates embedding_).
Proof. unfold KnowledgeRepository.update_, update. keeps_tac. Qed.

#[export] Hint Resolve create_keeps_requests update_keeps_requests : keeps.

Lemma create_row item embedding_ env w uuid w' :
  KnowledgeRepository.create item embedding_ env w = (Ok uuid, w') ->
  exists row,
    knowledge_rows w' = knowledge_rows w ++ [row] /\
    know_uuid row = uuid /\
    know_type row = ki_type item /\
    know_content row = ki_content item /\
    embedding row = match embedding_ with Some e => JsArray e | None => JsNull end.
Proof.
  unfold KnowledgeRepository.create. intros H.
  apply bind_Ok in H. destruct H as (created_at & w1 & E1 & H).
  apply bind_Ok in H. destruct H as (updated_at & w2 & E2 & H).
  apply bind_Ok in H. destruct H as (parent & w3 & E3 & H).
  apply bind_Ok in H. destruct H as (processed & w4 & E4 & H).
  apply bind_Ok in H. destruct H as (answer & w5 & E5 & H).
  destruct answer as [data|error]; [|discriminate].
  injection H as <- <-.
  apply (insert_inv knowledge_items set_knowledge_items) in E5; [|reflexivity].
  destruct E5 as (Hrow & Hrows & _).
  use_keeps knowledge_rows E1. use_keeps knowledge_rows E2.
  use_keeps knowledge_rows E3. use_keeps knowledge_rows E4.
  exists data. unfold knowledge_rows in *. rewrite Hrows, K2, K1, K0, K.
  rewrite Hrow. simpl. repeat split; reflexivity.
Qed.

Lemma update_rows itemId updates embedding_ env w w' :
  KnowledgeRepository.update_ itemId updates embedding_ env w = (Ok tt, w') ->
  forall row, In row (knowledge_rows w') -> know_uuid row = itemId ->
    (forall e, embedding_ = Some e -> embedding row = JsArray e) /\
    (forall c, up_content updates = Some c -> know_content row = Some c).
Proof.
  unfold KnowledgeRepository.update_. intros H.
  apply bind_Ok in H. destruct H as (updated_at & w1 & E1 & H).
  apply bind_Ok in H. destruct H as (processed & w2 & E2 & H).
  apply bind_Ok in H. destruct H as (answer & w3 & E3 & H).
  destruct answer as [[]|error]; [|discriminate].
  injection H as <-.
  apply (update_inv knowledge_items set_knowledge_items) in E3; [|reflexivity].
  destruct E3 as (_ & _ & Hrows & _).
  intros row Hin Huuid. unfold knowledge_rows in Hin. rewrite Hrows in Hin.
  apply in_map_iff in Hin. destruct Hin as (r & Er & _).
  destruct (String.eqb (know_uuid r) itemId) eqn:Esel.
  - subst row. simpl. split.
    + intros e ->. reflexivity.
    + intros c ->. reflexivity.
  - subst row. apply String.eqb_neq in Esel. contradiction.
Qed.


(* ------------------------------------------------------------------ *)
(** ** Stored embeddings of the wrong shape *)
(* ------------------------------------------------------------------ *)

Lemma float_positive_not_le_zero (threshold : float) :
  PrimFloat.ltb 0%float threshold = true -> PrimFloat.leb threshold 0%float = false.
Proof.
  rewrite ltb_spec, leb_spec. unfold SFltb, SFleb.
  change (Prim2SF 0%float) with (S754_zero false).
  destruct (Prim2SF threshold) as [s|s| |s m e]; simpl; try discriminate.
  - destruct s; [discriminate | reflexivity].
  - destruct s; [discriminate | reflexivity].
Qed.

Lemma score_items_passed_over env queryEmbedding threshold item rest results w :
  passed_over env queryEmbedding threshold (embedding item) ->
  KnowledgeRepository.score_items queryEmbedding threshold (item :: rest) results env w
  = KnowledgeRepository.score_items queryEmbedding threshold rest results env w.
Proof.
  assert (Hwrong : forall v,
             match v with
             | JsArray ys =>
                 List.length queryEmbedding <> List.length ys
                 /\ PrimFloat.ltb 0%float threshold = true
             | _ => True
             end ->
             (if KnowledgeRepository.isArray v
              then if PrimFloat.leb threshold (cosineSimilarity (JsArray queryEmbedding) v)
                   then true else false
              else false) = false).
  { intros [| s | ys | t]; simpl; auto. intros (Hlen & Hpos).
    rewrite (cosine_float_mismatch _ _ Hlen).
    now rewrite (float_positive_not_le_zero _ Hpos). }
  unfold passed_over. simpl.
  destruct (embedding item) as [| text | ys | t] eqn:Estored; simpl.
  - reflexivity.
  - intros (v & Hparse & Hv).
    destruct (String.eqb text ""); simpl; [reflexivity|].
    unfold bind at 1. unfold bind at 1. unfold config at 1. rewrite Hparse. cbn [ret].
    specialize (Hwrong v Hv).
    destruct v as [| s | ys | t]; simpl in *; try reflexivity.
    destruct (PrimFloat.leb threshold (Similarity.cosine queryEmbedding ys));
      [discriminate | reflexivity].
  - intros Hv. specialize (Hwrong (JsArray ys) Hv). simpl in Hwrong.
    unfold bind at 1. cbn [ret]. simpl.
    destruct (PrimFloat.leb threshold (Similarity.cosine queryEmbedding ys));
      [discriminate | reflexivity].
  - intros _. destruct t; reflexivity.
Qed.

(** A stored text that [JSON.parse] rejects makes the loop throw. *)
Lemma score_items_unparsable env queryEmbedding threshold item rest results w text message :
  embedding item = JsString text -> text <> "" ->
  JSON_parse env text = Err message ->
  KnowledgeRepository.score_items queryEmbedding threshold (item :: rest) results env w
  = (Err message, w).
Proof.
  intros Estored Hne Hparse. simpl. rewrite Estored. simpl.
  apply String.eqb_neq in Hne. rewrite Hne. simpl.
  unfold bind at 1. unfold bind at 1. unfold config at 1. rewrite Hparse. reflexivity.
Qed.

(** C7, at a knowledge base holding a sound item and an item whose stored
    embedding is the text [[1,0] cut short, which [JSON.parse] rejects:
    the loop of the repository's [semanticSearch] throws the SyntaxError;
    the service catches it and returns no result at all, although the
    sound item matches the query with score 1, as the search over the
    base without the corrupt item shows. *)
Theorem semanticSearch_unparsable_embedding :
  fst (KnowledgeRepository.semanticSearch [1%float; 0%float] 5 AssistantAI.turn_threshold
         provider_up corrupt_base)
  = Err "Unexpected end of JSON input" /\
  fst (semanticSearch "refunds" 5 AssistantAI.turn_threshold provider_up corrupt_base)
  = Ok [] /\
  fst (semanticSearch "refunds" 5 AssistantAI.turn_threshold provider_up sound_base)
  = Ok [KnowledgeRepository.toResult sound_item 1%float].
Proof.
  split; [|split]; vm_compute; reflexivity.
Qed.

(* ------------------------------------------------------------------ *)
(** ** The history handed to the model *)
(* ------------------------------------------------------------------ *)

(** What [listByConversation] returns: the first [limit] messages of the
    conversation in ascending order of creation, that is the oldest ones. *)
Lemma listByConversation_oldest conversationId limit_ env w messages_ w' :
  MessageRepository.listByConversation conversationId limit_ env w = (Ok messages_, w') ->
  exists convData,
    single (ConversationRepository.by_uuid conversationId (store w)) = DbData convData /\
    messages_ =
      map (fun row => MessageRepository.mapRow row conversationId)
          (firstn limit_
             (ascending msg_created_at
                (MessageRepository.of_conversation (conv_id convData) (store w)))) /\
    store w' = store w.
Proof.
  unfold MessageRepository.listByConversation. intros H.
  apply bind_Ok in H. destruct H as (conv & w1 & E1 & H).
  destruct conv as [convData|error]; [|discriminate].
  apply bind_Ok in H. destruct H as (answer & w2 & E2 & H).
  destruct answer as [data|error]; [|discriminate].
  injection H as <- <-.
  apply store_call_inv in E1. destruct E1 as (a1 & Ea1 & _ & E1). injection Ea1 as <-.
  apply store_call_inv in E2. destruct E2 as (a2 & Ea2 & _ & E2). injection Ea2 as <-.
  destruct (db_fault env (step w)); [destruct E1; discriminate|].
  destruct (db_fault env (step w1)); [destruct E2; discriminate|].
  injection E1 as E1 Hs1. injection E2 as E2 Hs2.
  exists convData. rewrite Hs2, Hs1. repeat split; auto.
  rewrite E2, Hs1. reflexivity.
Qed.

(** Once the conversation holds ten messages or more, the prior turns are
    its nine oldest messages, whichever message was just inserted. *)
Lemma conversationHistory_oldest_nine conversationId (stored : list MessageRow) :
  9 < List.length stored ->
  AssistantAI.conversationHistory
    (map (fun row => MessageRepository.mapRow row conversationId) (firstn 10 stored))
  = map (fun row => {| cm_role := msg_type row; cm_content := msg_content row |})
        (firstn 9 stored).
Proof.
  intros Hlen. unfold AssistantAI.conversationHistory, slice_drop_last.
  rewrite <- firstn_map, removelast_firstn by (rewrite length_map; exact Hlen).
  rewrite firstn_map, map_map. reflexivity.
Qed.

(** C2, at a conversation that holds ten messages [m1] ... [m10] when the
    eleventh, [q6], is sent: the call succeeds, and the prior turns handed
    to the model are the nine oldest messages [m1] ... [m9]. The nine most
    recent messages before the new one, [m2] ... [m10], are not what is
    sent: the latest reply [a5] is missing. On a conversation of two
    messages the same call hands over both. *)
Theorem sendMessage_history_is_oldest :
  (let run := AssistantAI.sendMessage (continue_conv "q6") provider_up_later
                                      (with_messages ten_messages) in
   fst run = Ok {| out_content := "Hello!"; out_conversationId := "conv";
                   out_messageId := letter 21 |} /\
   map cm_content (prior_turns (snd run))
   = ["q1"; "a1"; "q2"; "a2"; "q3"; "a3"; "q4"; "a4"; "q5"] /\
   ~ In "a5" (map cm_content (prior_turns (snd run)))) /\
  (let run := AssistantAI.sendMessage (continue_conv "q2") provider_up_later
                                      (with_messages (firstn 2 ten_messages)) in
   map cm_content (prior_turns (snd run)) = ["q1"; "a1"]).
Proof.
  split; [split; [|split] |].
  - vm_compute. reflexivity.
  - vm_compute. reflexivity.
  - vm_compute. intros H. repeat (destruct H as [H|H]; [discriminate H|]). exact H.
  - vm_compute. reflexivity.
Qed.

(* ------------------------------------------------------------------ *)
(** ** What the services leave unchanged *)
(* ------------------------------------------------------------------ *)

Section KeepsTables.
Context {X : Type} (f : World -> X).
Hypothesis f_step : forall n w, f (set_step n w) = f w.
Context {R : Type} (table : Store -> Table R) (set_table : Table R -> Store -> Store).
Hypothesis f_table : forall t s w, f (set_store (set_table t s) w) = f (set_store s w).

Lemma keeps_insert (key : R -> Z) (uuid : R -> string) (values : Z -> string -> R) :
  keeps f (insert table set_table key uuid values).
Proof.
  apply keeps_store_call; [assumption|]. intros u s w. cbv beta zeta.
  destruct (existsb _ (rows (table s))); apply f_table.
Qed.

Lemma keeps_update (selected : R -> bool) (values : R -> R) (check : bool) :
  keeps f (update table set_table selected values check).
Proof.
  apply keeps_store_call; [assumption|]. intros u s w. cbv beta zeta.
  destruct check; [apply f_table | reflexivity].
Qed.

Lemma keeps_delete (selected : R -> bool) :
  keeps f (delete table set_table selected).
Proof.
  apply keeps_store_call; [assumption|]. intros u s w. cbv beta zeta. apply f_table.
Qed.
End KeepsTables.

Ltac keeps_table :=
  first
    [ apply keeps_insert; intros; reflexivity
    | apply keeps_update; intros; reflexivity
    | apply keeps_delete; intros; reflexivity ].

Ltac keeps_all := repeat first [ keeps_known | keeps_table | progress keeps_tac ].

Lemma score_items_keeps {X : Type} (f : World -> X) queryEmbedding threshold data :
  forall results,
    keeps f (KnowledgeRepository.score_items queryEmbedding threshold data results).
Proof.
  induction data as [|item rest IH]; intros results; simpl.
  - apply keeps_ret.
  - destruct (truthy (embedding item)); [|apply IH].
    apply keeps_bind.
    + destruct (embedding item); keeps_tac.
    + intros v. destruct (KnowledgeRepository.isArray v); [|apply IH].
      destruct (PrimFloat.leb _ _); apply IH.
Qed.

Section ReadOnly.
(** A component that only the step counter and the log of requests do
  not belong to. *)
Context {X : Type} (f : World -> X).
Hypothesis f_step : forall n w, f (set_step n w) = f w.
Hypothesis f_requests : forall r w, f (set_requests r w) = f w.
Hypothesis f_store : forall s w, store w = s -> f (set_store s w) = f w.

Lemma keeps_send (r : Request) : keeps f (send r).
Proof. apply keeps_modify. intros w. apply f_requests. Qed.

Lemma keeps_read {A : Type} (run : Store -> DbResult A) :
  keeps f (store_call (fun _ s => (run s, s))).
Proof.
  intros env w r w' H. unfold store_call in H.
  destruct (db_fault env (step w)); injection H as <- <-.
  - apply f_step.
  - rewrite f_store; [apply f_step | reflexivity].
Qed.

Lemma generateEmbedding_keeps text : keeps f (AIService.generateEmbedding text).
Proof.
  unfold AIService.generateEmbedding.
  apply keeps_bind; [apply keeps_send|]. intros _.
  apply keeps_bind; [apply keeps_ask; assumption|]. intros [e|m]; keeps_tac.
Qed.

Lemma repository_semanticSearch_keeps queryEmbedding limit_ threshold :
  keeps f (KnowledgeRepository.semanticSearch queryEmbedding limit_ threshold).
Proof.
  unfold KnowledgeRepository.semanticSearch.
  apply keeps_bind; [apply keeps_read|]. intros [data|error]; [|apply keeps_throw].
  apply keeps_bind; [apply score_items_keeps|]. intros results. apply keeps_ret.
Qed.

Lemma semanticSearch_keeps query limit_ threshold :
  keeps f (semanticSearch query limit_ threshold).
Proof.
  unfold semanticSearch. apply keeps_try_catch.
  - apply keeps_bind; [apply generateEmbedding_keeps|]. intros q.
    apply repository_semanticSearch_keeps.
  - intros e. apply keeps_ret.
Qed.

Lemma keywordSearch_keeps query limit_ :
  keeps f (KnowledgeRepository.keywordSearch query limit_).
Proof.
  unfold KnowledgeRepository.keywordSearch.
  apply keeps_bind; [apply keeps_config|]. intros matching.
  apply keeps_bind; [apply keeps_read|]. intros [data|error]; apply keeps_ret.
Qed.

Lemma search_keeps query limit_ threshold type :
  keeps f (search query limit_ threshold type).
Proof.
  unfold search. destruct type.
  - apply semanticSearch_keeps.
  - apply keywordSearch_keeps.
  - apply keeps_bind; [apply semanticSearch_keeps|]. intros sem.
    apply keeps_bind; [apply keywordSearch_keeps|]. intros kw. apply keeps_ret.
Qed.

Lemma getTopItems_keeps limit_ : keeps f (getTopItems limit_).
Proof.
  unfold getTopItems, KnowledgeRepository.listRecent.
  apply keeps_bind; [|intros items; apply keeps_ret].
  apply keeps_bind; [apply keeps_read|]. intros [data|error]; keeps_tac.
Qed.

Lemma generateResponse_keeps userMessage systemPrompt history context :
  keeps f (AIService.generateResponse userMessage systemPrompt history context).
Proof.
  unfold AIService.generateResponse.
  apply keeps_bind; [apply keeps_send|]. intros _.
  apply keeps_bind; [apply keeps_ask; assumption|]. intros [c|m]; keeps_tac.
Qed.

Lemma summarizeKnowledgeBase_keeps items :
  keeps f (AIService.summarizeKnowledgeBase items).
Proof.
  unfold AIService.summarizeKnowledgeBase. destruct items; [apply keeps_ret|].
  apply keeps_bind; [apply keeps_send|]. intros _.
  apply keeps_bind; [apply keeps_ask; assumption|]. intros [c|m]; keeps_tac.
Qed.

Lemma listByConversation_keeps conversationId limit_ :
  keeps f (MessageRepository.listByConversation conversationId limit_).
Proof.
  unfold MessageRepository.listByConversation.
  apply keeps_bind; [apply keeps_read|]. intros [convData|error]; [|apply keeps_throw].
  apply keeps_bind; [apply keeps_read|]. intros [data|error]; keeps_tac.
Qed.

Lemma getById_keeps conversationId :
  keeps f (ConversationRepository.getById conversationId).
Proof.
  unfold ConversationRepository.getById.
  apply keeps_bind; [apply keeps_read|]. intros [data|[|m]]; keeps_tac.
Qed.
End ReadOnly.

Section PersonalityOnly.
(** A component that the personality table, the cache, the
  [initialized] flag, the step counter and the log of requests do not
  belong to. *)
Context {X : Type} (f : World -> X).
Hypothesis f_step : forall n w, f (set_step n w) = f w.
Hypothesis f_requests : forall r w, f (set_requests r w) = f w.
Hypothesis f_store : forall s w, store w = s -> f (set_store s w) = f w.
Hypothesis f_cache : forall c w, f (set_cache c w) = f w.
Hypothesis f_initialized : forall b w, f (set_initialized b w) = f w.
Hypothesis f_personality :
  forall t s w, f (set_store (set_personality t s) w) = f (set_store s w).

Lemma cache_get_keeps : keeps f PersonalityService.cache_get.
Proof.
  unfold PersonalityService.cache_get.
  apply keeps_bind; [apply keeps_get|]. intros [entry|]; [|apply keeps_ret].
  apply keeps_bind; [apply keeps_ask; assumption|]. intros now.
  destruct (Z.ltb _ _); [|apply keeps_ret].
  apply keeps_bind; [apply keeps_modify; intros; apply f_cache|]. intros _. apply keeps_ret.
Qed.

Lemma cache_set_keeps value : keeps f (PersonalityService.cache_set value).
Proof.
  unfold PersonalityService.cache_set.
  apply keeps_bind; [apply keeps_ask; assumption|]. intros now.
  apply keeps_modify. intros; apply f_cache.
Qed.

Lemma cache_delete_keeps : keeps f PersonalityService.cache_delete.
Proof. apply keeps_modify. intros; apply f_cache. Qed.

Lemma save_keeps name systemPrompt profile :
  keeps f (PersonalityRepository.save name systemPrompt profile).
Proof.
  unfold PersonalityRepository.save.
  apply keeps_bind; [apply keeps_delete; assumption|]. intros _.
  apply keeps_bind; [apply keeps_ask; assumption|]. intros built.
  apply keeps_bind; [apply keeps_insert; assumption|]. intros [data|error]; keeps_tac.
Qed.

Lemma get_keeps : keeps f PersonalityRepository.get_.
Proof.
  unfold PersonalityRepository.get_.
  apply keeps_bind; [apply keeps_read; assumption|]. intros [data|[|m]]; keeps_tac.
Qed.

Lemma save_and_cache_keeps name systemPrompt profile :
  keeps f (PersonalityService.save_and_cache name systemPrompt profile).
Proof.
  unfold PersonalityService.save_and_cache.
  apply keeps_bind; [apply save_keeps|]. intros _.
  apply keeps_bind; [apply cache_set_keeps|]. intros _. apply keeps_ret.
Qed.

Lemma buildPersonality_keeps : keeps f PersonalityService.buildPersonality.
Proof.
  unfold PersonalityService.buildPersonality.
  apply keeps_bind; [apply cache_delete_keeps|]. intros _.
  apply keeps_bind; [apply keeps_config|]. intros custom.
  apply keeps_bind; [apply keeps_config|]. intros cfgName.
  apply keeps_bind; [apply keeps_config|]. intros cfgTone.
  destruct (truthy_str custom); [apply save_and_cache_keeps|].
  apply keeps_bind; [apply getTopItems_keeps; assumption|]. intros [|item items].
  - apply save_and_cache_keeps.
  - apply keeps_bind; [apply summarizeKnowledgeBase_keeps; assumption|].
    intros kbSummary. apply save_and_cache_keeps.
Qed.

Lemma getPersonality_keeps : keeps f PersonalityService.getPersonality.
Proof.
  unfold PersonalityService.getPersonality.
  apply keeps_bind; [apply cache_get_keeps|]. intros [cached|]; [apply keeps_ret|].
  apply keeps_bind; [apply get_keeps|]. intros [existing|].
  - apply keeps_bind; [apply cache_set_keeps|]. intros _. apply keeps_ret.
  - apply buildPersonality_keeps.
Qed.

Lemma setPersonality_keeps systemPrompt profile :
  keeps f (PersonalityService.setPersonality systemPrompt profile).
Proof.
  unfold PersonalityService.setPersonality.
  apply keeps_bind; [apply cache_delete_keeps|]. intros _.
  apply keeps_bind; [apply save_keeps|]. intros _. apply keeps_ret.
Qed.

Lemma init_keeps : keeps f AssistantAI.init.
Proof.
  unfold AssistantAI.init.
  apply keeps_bind; [apply keeps_get|]. intros [|]; [apply keeps_ret|].
  apply keeps_bind.
  - apply keeps_try_catch.
    + apply keeps_bind; [apply getPersonality_keeps|]. intros _. apply keeps_ret.
    + intros e. apply keeps_bind; [apply buildPersonality_keeps|]. intros _.
      apply keeps_ret.
  - intros _. apply keeps_modify. intros; apply f_initialized.
Qed.
End PersonalityOnly.

(** The side conditions of the sections above, for a projection. *)
Ltac projection :=
  intros; try subst;
  repeat match goal with w : World |- _ => destruct w end;
  reflexivity.

#[export] Hint Extern 1 (keeps _ AssistantAI.init) =>
  apply init_keeps; projection : keeps.
#[export] Hint Extern 1 (keeps _ PersonalityService.getPersonality) =>
  apply getPersonality_keeps; projection : keeps.
#[export] Hint Extern 1 (keeps _ PersonalityService.buildPersonality) =>
  apply buildPersonality_keeps; projection : keeps.
#[export] Hint Extern 1 (keeps _ (PersonalityService.setPersonality _ _)) =>
  apply setPersonality_keeps; projection : keeps.
#[export] Hint Extern 1 (keeps _ (search _ _ _ _)) =>
  apply search_keeps; projection : keeps.
#[export] Hint Extern 1 (keeps _ (getTopItems _)) =>
  apply getTopItems_keeps; projection : keeps.
#[export] Hint Extern 1 (keeps _ (AIService.generateResponse _ _ _ _)) =>
  apply generateResponse_keeps; projection : keeps.
#[export] Hint Extern 1 (keeps _ (AIService.summarizeKnowledgeBase _)) =>
  apply summarizeKnowledgeBase_keeps; projection : keeps.
#[export] Hint Extern 1 (keeps _ (MessageRepository.listByConversation _ _)) =>
  apply listByConversation_keeps; projection : keeps.
#[export] Hint Extern 1 (keeps _ (ConversationRepository.getById _)) =>
  apply getById_keeps; projection : keeps.

(** The chat tables of a world. *)
Lemma init_keeps_chat :
  keeps conversation_rows AssistantAI.init /\ keeps message_rows AssistantAI.init.
Proof. split; keeps_known. Qed.

(* ------------------------------------------------------------------ *)
(** ** Validation of the input of a turn *)
(* ------------------------------------------------------------------ *)

Lemma resolve_neither input env w :
  truthy_str (in_conversationId input) = false ->
  truthy_str (in_userId input) = false ->
  AssistantAI.resolve input env w = (Err AssistantAI.required, w).
Proof. intros Hc Hu. unfold AssistantAI.resolve. rewrite Hc, Hu. reflexivity. Qed.

Lemma resolve_without_user input :
  truthy_str (in_conversationId input) = true ->
  AssistantAI.resolve input = AssistantAI.resolve (without_user input).
Proof. intros Hc. unfold AssistantAI.resolve. simpl. rewrite Hc. reflexivity. Qed.

(** C3 (as amended). An input that supplies neither [conversationId] nor
    [userId] is rejected before any conversation or message is persisted:
    once initialisation has run, [sendMessage] throws the error that asks
    for one of them, and [streamMessage] yields that error as its only
    event (a failure of the initialisation itself is thrown by both). An
    input that supplies both is accepted: [conversationId] is used and
    [userId] is not looked at. *)
Theorem conversation_or_user_required :
  (forall input env w,
      truthy_str (in_conversationId input) = false ->
      truthy_str (in_userId input) = false ->
      exists r w1,
        AssistantAI.init env w = (r, w1) /\
        conversation_rows w1 = conversation_rows w /\
        message_rows w1 = message_rows w /\
        AssistantAI.sendMessage input env w
        = (match r with Ok _ => Err AssistantAI.required | Err e => Err e end, w1) /\
        AssistantAI.streamMessage input env w
        = match r with
          | Ok _ => (Ok tt, set_yielded (yielded w1 ++ [ev_error AssistantAI.required]) w1)
          | Err e => (Err e, w1)
          end) /\
  (forall input env w,
      truthy_str (in_conversationId input) = true ->
      AssistantAI.sendMessage input env w
      = AssistantAI.sendMessage (without_user input) env w /\
      AssistantAI.streamMessage input env w
      = AssistantAI.streamMessage (without_user input) env w).
Proof.
  split.
  - intros input env w Hc Hu.
    destruct (AssistantAI.init env w) as [r w1] eqn:Einit.
    exists r, w1. split; [reflexivity|].
    destruct init_keeps_chat as (Kc & Km).
    split; [exact (Kc _ _ _ _ Einit)|]. split; [exact (Km _ _ _ _ Einit)|].
    unfold AssistantAI.sendMessage, AssistantAI.streamMessage.
    destruct r as [[]|e].
    + rewrite !(bind_eq_Ok _ _ _ _ _ _ Einit). split.
      * apply bind_eq_Err. apply resolve_neither; assumption.
      * unfold try_catch, AssistantAI.stream_turn.
        rewrite (bind_eq_Err _ _ _ _ _ _ (resolve_neither _ _ w1 Hc Hu)). reflexivity.
    + rewrite !(bind_eq_Err _ _ _ _ _ _ Einit). split; reflexivity.
  - intros input env w Hc.
    unfold AssistantAI.sendMessage, AssistantAI.streamMessage, AssistantAI.stream_turn.
    rewrite (resolve_without_user _ Hc). split; reflexivity.
Qed.

(** C3 at an input with neither identifier, sent to a fresh assistant. *)
Lemma conversation_or_user_required_witness :
  exists w1,
    AssistantAI.sendMessage
      {| in_message := "hi"; in_conversationId := None; in_userId := Some "";
         in_context := None |} provider_up cold_start
    = (Err AssistantAI.required, w1) /\
    conversation_rows w1 = [] /\ message_rows w1 = [].
Proof.
  destruct conversation_or_user_required as (Hneither & _).
  destruct (Hneither
              {| in_message := "hi"; in_conversationId := None; in_userId := Some "";
                 in_context := None |} provider_up cold_start eq_refl eq_refl)
    as (r & w1 & Einit & Hc & Hm & Hsend & _).
  exists w1. split; [|split; assumption].
  rewrite Hsend. vm_compute in Einit. injection Einit as <- _. reflexivity.
Defined.

(** C3 (as stated) fails: an input that supplies both identifiers is not
    rejected. The call succeeds in the conversation named and its two
    messages are persisted. *)
Lemma both_ids_accepted :
  fst (AssistantAI.sendMessage both_ids provider_up_later (with_messages []))
  = Ok {| out_content := "Hello!"; out_conversationId := "conv";
          out_messageId := letter 21 |} /\
  List.length
    (message_rows (snd (AssistantAI.sendMessage both_ids provider_up_later
                          (with_messages [])))) = 2.
Proof. split; vm_compute; reflexivity. Qed.

(* ------------------------------------------------------------------ *)
(** ** The steps of a turn *)
(* ------------------------------------------------------------------ *)

Lemma single_inv {R : Type} (selected : list R) (r : R) :
  single selected = DbData r -> selected = [r].
Proof.
  destruct selected as [|x [|y l]]; simpl; intros H; try discriminate.
  injection H as ->. reflexivity.
Qed.

Lemma select_single_inv {R : Type} (q : Store -> list R) env w answer w' :
  select_single q env w = (Ok answer, w') ->
  store w' = store w /\ step w' = S (step w) /\
  answer = match db_fault env (step w) with
           | Some m => DbError_ (DbFault m)
           | None => single (q (store w))
           end.
Proof.
  intros H. apply store_call_inv in H. destruct H as (a & Ea & Hstep & H).
  injection Ea as <-.
  destruct (db_fault env (step w)).
  - destruct H as (-> & ->). auto.
  - injection H as -> ->. auto.
Qed.

Lemma filter_fresh {R : Type} (p : R -> bool) (old : list R) (row : R) :
  (forall r, In r old -> p r = false) -> p row = true ->
  filter p (old ++ [row]) = [row].
Proof.
  intros Hold Hrow. rewrite filter_app. simpl. rewrite Hrow.
  replace (filter p old) with (@nil R); [reflexivity|].
  symmetry. induction old as [|x old IH]; simpl; [reflexivity|].
  rewrite (Hold x (or_introl eq_refl)). apply IH. intros r Hr. apply Hold. now right.
Qed.

Lemma new_Date_inv env w t w' :
  new_Date env w = (Ok t, w') -> w' = set_step (S (step w)) w.
Proof. unfold new_Date, ask. intros H. injection H as _ <-. reflexivity. Qed.

(** The parent the repository stores for a message: the key of the row
    that carries the uuid given, when the store answers the lookup with
    exactly one row; no parent otherwise. *)
Lemma message_create_inv conversationId type content parentMessageId metadata env w m w' :
  MessageRepository.create conversationId type content parentMessageId metadata env w
  = (Ok m, w') ->
  exists convData row,
    single (ConversationRepository.by_uuid conversationId (store w)) = DbData convData /\
    message_rows w' = message_rows w ++ [row] /\
    conversations (store w') = conversations (store w) /\
    m = MessageRepository.mapRow row conversationId /\
    conversation_id row = conv_id convData /\
    msg_type row = type /\ msg_content row = content /\ msg_status row = completed /\
    (forall r, In r (message_rows w) -> msg_uuid r <> msg_uuid row) /\
    S (step w) < step w' /\
    parent_message_id row =
      match parentMessageId with
      | Some parentMessageId =>
          if String.eqb parentMessageId "" then None
          else match db_fault env (S (step w)) with
               | Some _ => None
               | None =>
                   match single (MessageRepository.by_uuid parentMessageId (store w)) with
                   | DbData parentData => Some (msg_id parentData)
                   | DbError_ _ => None
                   end
               end
      | None => None
      end /\
    (exists n, msg_uuid row = gen_random_uuid env n).
Proof.
  unfold MessageRepository.create. intros H.
  apply bind_Ok in H. destruct H as (conv & w1 & E1 & H).
  apply select_single_inv in E1. destruct E1 as (S1 & T1 & A1).
  destruct conv as [convData|convError]; [|discriminate].
  apply bind_Ok in H. destruct H as (parentId & w2 & E2 & H).
  apply bind_Ok in H. destruct H as (created_at & w3 & E3 & H).
  apply bind_Ok in H. destruct H as (updated_at & w4 & E4 & H).
  apply bind_Ok in H. destruct H as (answer & w5 & E5 & H).
  destruct answer as [data|error]; [|discriminate].
  injection H as <- <-.
  apply new_Date_inv in E3. apply new_Date_inv in E4.
  apply (insert_inv messages set_messages) in E5; [|reflexivity].
  destruct E5 as (Hrow & Hrows & Hstore & Hfresh & _ & T5).
  assert (P : store w2 = store w1 /\ step w1 <= step w2 /\
              parentId =
                match parentMessageId with
                | Some parentMessageId =>
                    if String.eqb parentMessageId "" then None
                    else match db_fault env (step w1) with
                         | Some _ => None
                         | None =>
                             match single (MessageRepository.by_uuid parentMessageId
                                             (store w1)) with
                             | DbData parentData => Some (msg_id parentData)
                             | DbError_ _ => None
                             end
                         end
                | None => None
                end).
  { destruct parentMessageId as [pid|];
      [|unfold ret in E2; injection E2 as <- <-; auto].
    destruct (String.eqb pid ""); cbv iota in E2;
      [unfold ret in E2; injection E2 as <- <-; auto|].
    apply bind_Ok in E2. destruct E2 as (parent & wp & Ep & E2).
    apply select_single_inv in Ep. destruct Ep as (Sp & Tp & Ap).
    destruct (db_fault env (step w1)); subst parent.
    - unfold ret in E2. injection E2 as <- <-. rewrite Tp. auto.
    - destruct (single (MessageRepository.by_uuid pid (store w1)));
        unfold ret in E2; injection E2 as <- <-; rewrite Tp; auto. }
  destruct P as (S2 & T2 & Hparent).
  assert (Hs4 : store w4 = store w).
  { rewrite E4, E3. simpl. rewrite S2, S1. reflexivity. }
  assert (Hdata : conv_id convData = conversation_id data /\ type = msg_type data
                  /\ content = msg_content data /\ completed = msg_status data
                  /\ parentId = parent_message_id data).
  { rewrite Hrow. simpl. auto. }
  destruct Hdata as (D1 & D2 & D3 & D4 & D5).
  exists convData, data.
  destruct (db_fault env (step w)) eqn:F1; [discriminate|].
  unfold message_rows. rewrite Hstore, Hs4 in *. simpl.
  repeat split; auto.
  - intros r Hr. exact (proj1 (Hfresh r Hr)).
  - rewrite T5, E4, E3. simpl. lia.
  - rewrite <- D5, Hparent, T1, S1. reflexivity.
  - exists (step w4). rewrite Hrow. reflexivity.
Qed.

Lemma conversation_create_inv userId title env w c w' :
  ConversationRepository.create userId title env w = (Ok c, w') ->
  exists row,
    conversation_rows w' = conversation_rows w ++ [row] /\
    messages (store w') = messages (store w) /\
    c = ConversationRepository.mapRow row /\
    message_count row = 0%Z /\ deleted_at row = None /\ creator_id row = userId /\
    (forall r, In r (conversation_rows w) -> conv_uuid r <> conv_uuid row).
Proof.
  unfold ConversationRepository.create. intros H.
  apply bind_Ok in H. destruct H as (created_at & w1 & E1 & H).
  apply bind_Ok in H. destruct H as (updated_at & w2 & E2 & H).
  apply bind_Ok in H. destruct H as (answer & w3 & E3 & H).
  destruct answer as [data|error]; [|discriminate].
  injection H as <- <-.
  apply new_Date_inv in E1. apply new_Date_inv in E2.
  apply (insert_inv conversations set_conversations) in E3; [|reflexivity].
  destruct E3 as (Hrow & Hrows & Hstore & Hfresh & _).
  assert (Hs2 : store w2 = store w) by (rewrite E2, E1; reflexivity).
  exists data. unfold conversation_rows. rewrite Hstore, Hs2 in *. simpl.
  repeat split; auto; try (rewrite Hrow; reflexivity).
  intros r Hr. exact (proj1 (Hfresh r Hr)).
Qed.

Lemma getById_inv conversationId env w c w' :
  ConversationRepository.getById conversationId env w = (Ok c, w') ->
  store w' = store w /\ db_fault env (step w) = None /\
  match single (ConversationRepository.live_by_uuid conversationId (store w)) with
  | DbData row => c = Some (ConversationRepository.mapRow row)
  | DbError_ _ => c = None
  end.
Proof.
  unfold ConversationRepository.getById. intros H.
  apply bind_Ok in H. destruct H as (answer & w1 & E1 & H).
  apply select_single_inv in E1. destruct E1 as (S1 & T1 & A1).
  destruct (db_fault env (step w)).
  - subst answer. discriminate.
  - subst answer. unfold single in *.
    destruct (ConversationRepository.live_by_uuid conversationId (store w)) as [|x [|y l]];
      unfold ret in H; injection H as <- <-; auto.
Qed.

Lemma resolve_inv input env w conversationId w1 :
  AssistantAI.resolve input env w = (Ok conversationId, w1) ->
  messages (store w1) = messages (store w) /\
  if truthy_str (in_conversationId input)
  then in_conversationId input = Some conversationId /\ store w1 = store w /\
       exists row,
         single (ConversationRepository.live_by_uuid conversationId (store w)) = DbData row
  else exists row,
         conversation_rows w1 = conversation_rows w ++ [row] /\
         conv_uuid row = conversationId /\
         message_count row = 0%Z /\ deleted_at row = None /\
         (forall r, In r (conversation_rows w) -> conv_uuid r <> conversationId).
Proof.
  unfold AssistantAI.resolve. intros H.
  destruct (truthy_str (in_conversationId input)) eqn:Hc; simpl in H.
  - apply bind_Ok in H. destruct H as (c & w2 & E & H).
    apply getById_inv in E. destruct E as (S2 & _ & Hrow).
    assert (Hid : in_conversationId input
                  = Some (or_default (in_conversationId input) "")).
    { unfold truthy_str in Hc. unfold or_default.
      destruct (in_conversationId input) as [x|]; [|discriminate].
      destruct (String.eqb x ""); [discriminate | reflexivity]. }
    destruct (single _) as [row|error] eqn:Es; subst c; [|discriminate].
    unfold ret in H. injection H as <- <-. rewrite S2. repeat split; auto.
    exists row. assumption.
  - destruct (truthy_str (in_userId input)); simpl in H; [|discriminate].
    unfold AssistantAI.createConversation in H.
    apply bind_Ok in H. destruct H as (c & w2 & E & H).
    apply conversation_create_inv in E.
    destruct E as (row & Hrows & Hm & Hc' & Hcount & Hdel & _ & Hfresh).
    unfold ret in H. injection H as <- <-. split; [assumption|].
    exists row. subst c. simpl. repeat split; auto.
Qed.

Lemma updateMessageCount_inv conversationId count env w w' :
  ConversationRepository.updateMessageCount conversationId count env w = (Ok tt, w') ->
  messages (store w') = messages (store w) /\
  exists updated_at,
    conversation_rows w' =
      map (fun r =>
             if String.eqb (conv_uuid r) conversationId
             then {| conv_id := conv_id r; conv_uuid := conv_uuid r;
                     creator_id := creator_id r; conv_title := conv_title r;
                     message_count := count;
                     conv_created_at := conv_created_at r; conv_updated_at := updated_at;
                     deleted_at := deleted_at r |}
             else r)
          (conversation_rows w).
Proof.
  unfold ConversationRepository.updateMessageCount. intros H.
  apply bind_Ok in H. destruct H as (updated_at & w1 & E1 & H).
  apply bind_Ok in H. destruct H as (answer & w2 & E2 & H).
  destruct answer as [[]|error]; [|discriminate].
  injection H as <-.
  apply new_Date_inv in E1.
  apply (update_inv conversations set_conversations) in E2; [|reflexivity].
  destruct E2 as (_ & Hstore & Hrows & _).
  unfold conversation_rows. rewrite Hrows, Hstore, E1. simpl.
  split; [reflexivity|]. exists updated_at. reflexivity.
Qed.

Lemma bump_message_count_inv conversationId env w w' :
  AssistantAI.bump_message_count conversationId env w = (Ok tt, w') ->
  messages (store w') = messages (store w) /\
  match single (ConversationRepository.live_by_uuid conversationId (store w)) with
  | DbData c =>
      exists updated_at,
        conversation_rows w' =
          map (fun r =>
                 if String.eqb (conv_uuid r) conversationId
                 then {| conv_id := conv_id r; conv_uuid := conv_uuid r;
                         creator_id := creator_id r; conv_title := conv_title r;
                         message_count := message_count c + 2;
                         conv_created_at := conv_created_at r;
                         conv_updated_at := updated_at;
                         deleted_at := deleted_at r |}
                 else r)
              (conversation_rows w)
  | DbError_ _ => store w' = store w
  end.
Proof.
  unfold AssistantAI.bump_message_count. intros H.
  apply bind_Ok in H. destruct H as (c & w1 & E1 & H).
  apply getById_inv in E1. destruct E1 as (S1 & _ & Hc).
  destruct (single _) as [row|error]; subst c.
  - apply updateMessageCount_inv in H. destruct H as (Hm & t & Hrows).
    unfold conversation_rows in *. rewrite S1 in *. split; [assumption|].
    exists t. exact Hrows.
  - unfold ret in H. injection H as <-. rewrite S1. auto.
Qed.

(* ------------------------------------------------------------------ *)
(** ** The step counter only advances *)
(* ------------------------------------------------------------------ *)

Lemma adv_ret {A : Type} (a : A) : advances (ret a).
Proof. intros env w r w' H. injection H as <- <-. lia. Qed.

Lemma adv_throw {A : Type} (message : string) : advances (@throw A message).
Proof. intros env w r w' H. injection H as <- <-. lia. Qed.

Lemma adv_config {A : Type} (g : Env -> A) : advances (config g).
Proof. intros env w r w' H. injection H as <- <-. lia. Qed.

Lemma adv_get {A : Type} (g : World -> A) : advances (get g).
Proof. intros env w r w' H. injection H as <- <-. lia. Qed.

Lemma adv_modify (g : World -> World) :
  (forall w, step (g w) = step w) -> advances (modify g).
Proof. intros Hg env w r w' H. injection H as <- <-. rewrite Hg. lia. Qed.

Lemma adv_ask {A : Type} (g : Env -> nat -> A) : advances (ask g).
Proof. intros env w r w' H. injection H as <- <-. simpl. lia. Qed.

Lemma adv_store_call {A : Type} (run : string -> Store -> DbResult A * Store) :
  advances (store_call run).
Proof.
  intros env w r w' H. apply store_call_inv in H.
  destruct H as (_ & _ & -> & _). lia.
Qed.

Lemma adv_bind {A B : Type} (m : M A) (k : A -> M B) :
  advances m -> (forall a, advances (k a)) -> advances (bind m k).
Proof.
  intros Hm Hk env w r w' H. apply bind_inv in H.
  destruct H as [(a & w1 & Em & Ek) | (e & Em & _)].
  - pose proof (Hm _ _ _ _ Em). pose proof (Hk a _ _ _ _ Ek). lia.
  - exact (Hm _ _ _ _ Em).
Qed.

Lemma adv_try_catch {A : Type} (body : M A) (handler : string -> M A) :
  advances body -> (forall e, advances (handler e)) -> advances (try_catch body handler).
Proof.
  intros Hb Hh env w r w' H. unfold try_catch in H.
  destruct (body env w) as [[a|e] w1] eqn:Eb.
  - injection H as <- <-. exact (Hb _ _ _ _ Eb).
  - pose proof (Hb _ _ _ _ Eb). pose proof (Hh e _ _ _ _ H). lia.
Qed.

Lemma adv_score_items queryEmbedding threshold data :
  forall results,
    advances (KnowledgeRepository.score_items queryEmbedding threshold data results).
Proof.
  induction data as [|item rest IH]; intros results; simpl.
  - apply adv_ret.
  - destruct (truthy (embedding item)); [|apply IH].
    apply adv_bind.
    + destruct (embedding item); try apply adv_ret.
      apply adv_bind; [apply adv_config|]. intros [v|m]; [apply adv_ret | apply adv_throw].
    + intros v. destruct (KnowledgeRepository.isArray v); [|apply IH].
      destruct (PrimFloat.leb _ _); apply IH.
Qed.

Lemma adv_for_await {A : Type} (body : A -> string -> M A) chunks failure :
  (forall acc chunk, advances (body acc chunk)) ->
  forall acc, advances (AIService.for_await chunks failure body acc).
Proof.
  intros Hbody. induction chunks as [|chunk rest IH]; intros acc; simpl.
  - destruct failure; [apply adv_throw | apply adv_ret].
  - destruct chunk as [content|]; [|apply IH].
    destruct (String.eqb content ""); [apply IH|].
    apply adv_bind; [apply Hbody | intros acc'; apply IH].
Qed.

Create HintDb adv.
#[export] Hint Resolve adv_ret adv_throw adv_config adv_get adv_ask adv_store_call
  adv_score_items : adv.

Ltac adv_tac :=
  repeat
    first
      [ solve [auto with adv nocore]
      | apply adv_modify; intros; reflexivity
      | apply adv_for_await; intros
      | apply adv_bind; [| intros ?]
      | apply adv_try_catch; [| intros ?]
      | match goal with
        | |- advances (match ?x with _ => _ end) => destruct x
        | |- advances (if ?b then _ else _) => destruct b
        end ].

Lemma adv_message_create conversationId type content parentMessageId metadata :
  advances (MessageRepository.create conversationId type content parentMessageId metadata).
Proof.
  unfold MessageRepository.create, select_single, new_Date, insert. adv_tac.
Qed.

Lemma adv_listByConversation conversationId limit_ :
  advances (MessageRepository.listByConversation conversationId limit_).
Proof. unfold MessageRepository.listByConversation, select_single, select. adv_tac. Qed.

Lemma adv_getById conversationId : advances (ConversationRepository.getById conversationId).
Proof. unfold ConversationRepository.getById, select_single. adv_tac. Qed.

Lemma adv_generateEmbedding text : advances (AIService.generateEmbedding text).
Proof. unfold AIService.generateEmbedding, send. adv_tac. Qed.

#[export] Hint Resolve adv_message_create adv_listByConversation adv_getById
  adv_generateEmbedding : adv.

Lemma adv_search query limit_ threshold type : advances (search query limit_ threshold type).
Proof.
  unfold search, semanticSearch, KnowledgeRepository.semanticSearch,
    KnowledgeRepository.keywordSearch, select.
  adv_tac.
Qed.

Lemma adv_generateResponse userMessage systemPrompt history context :
  advances (AIService.generateResponse userMessage systemPrompt history context).
Proof. unfold AIService.generateResponse, send. adv_tac. Qed.

Lemma adv_save name systemPrompt profile :
  advances (PersonalityRepository.save name systemPrompt profile).
Proof. unfold PersonalityRepository.save, delete, insert, new_Date. adv_tac. Qed.

#[export] Hint Resolve adv_search adv_generateResponse adv_save : adv.

Lemma adv_buildPersonality : advances PersonalityService.buildPersonality.
Proof.
  unfold PersonalityService.buildPersonality, PersonalityService.cache_delete,
    PersonalityService.config_customInstructions, PersonalityService.config_name,
    PersonalityService.config_tone, PersonalityService.save_and_cache,
    PersonalityService.cache_set, getTopItems, KnowledgeRepository.listRecent,
    AIService.summarizeKnowledgeBase, send, select, new_Date.
  adv_tac.
Qed.

#[export] Hint Resolve adv_buildPersonality : adv.

Lemma adv_getPersonality : advances PersonalityService.getPersonality.
Proof.
  unfold PersonalityService.getPersonality, PersonalityService.cache_get,
    PersonalityService.cache_set, PersonalityRepository.get_, select_single, new_Date.
  adv_tac.
Qed.

Lemma adv_setPersonality systemPrompt profile :
  advances (PersonalityService.setPersonality systemPrompt profile).
Proof.
  unfold PersonalityService.setPersonality, PersonalityService.cache_delete. adv_tac.
Qed.

#[export] Hint Resolve adv_getPersonality adv_setPersonality : adv.

Lemma adv_init : advances AssistantAI.init.
Proof. unfold AssistantAI.init. adv_tac. Qed.

Lemma adv_resolve input : advances (AssistantAI.resolve input).
Proof.
  unfold AssistantAI.resolve, AssistantAI.createConversation,
    ConversationRepository.create, insert, new_Date.
  adv_tac.
Qed.

Lemma adv_bump_message_count conversationId :
  advances (AssistantAI.bump_message_count conversationId).
Proof.
  unfold AssistantAI.bump_message_count, ConversationRepository.updateMessageCount,
    update, new_Date.
  adv_tac.
Qed.

#[export] Hint Resolve adv_init adv_resolve adv_bump_message_count : adv.

(* ------------------------------------------------------------------ *)
(** ** A buffered turn *)
(* ------------------------------------------------------------------ *)

Lemma filter_map_same {R : Type} (p : R -> bool) (g : R -> R) (l : list R) :
  (forall r, p (g r) = p r) -> filter p (map g l) = map g (filter p l).
Proof.
  intros Hp. induction l as [|x l IH]; simpl; [reflexivity|].
  rewrite Hp. destruct (p x); simpl; now rewrite IH.
Qed.

Lemma filter_none {R : Type} (p : R -> bool) (l : list R) :
  (forall r, In r l -> p r = false) -> filter p l = [].
Proof.
  induction l as [|x l IH]; intros H; simpl; [reflexivity|].
  rewrite (H x (or_introl eq_refl)). apply IH. intros r Hr. apply H. now right.
Qed.

(** The conversation a turn runs in, once resolved: the only row with the
    uuid, live, as the later steps of the turn find it. *)
Lemma resolved_conversation input env w conversationId w1 convData :
  AssistantAI.resolve input env w = (Ok conversationId, w1) ->
  single (ConversationRepository.by_uuid conversationId (store w1)) = DbData convData ->
  single (ConversationRepository.live_by_uuid conversationId (store w1)) = DbData convData /\
  messages (store w1) = messages (store w) /\
  if truthy_str (in_conversationId input)
  then single (ConversationRepository.by_uuid conversationId (store w)) = DbData convData
  else ConversationRepository.by_uuid conversationId (store w) = []
       /\ message_count convData = 0%Z.
Proof.
  intros Hres Hby. apply resolve_inv in Hres. destruct Hres as (Hm & Hres).
  apply single_inv in Hby.
  destruct (truthy_str (in_conversationId input)).
  - destruct Hres as (_ & Hs & row & Hlive). rewrite Hs in *.
    split; [|split; [assumption | now rewrite Hby]].
    unfold ConversationRepository.live_by_uuid in *. rewrite Hby in *. simpl in *.
    destruct (deleted_at convData); [discriminate | reflexivity].
  - destruct Hres as (row & Hrows & Hu & Hcount & Hdel & Hfresh).
    assert (Hold : ConversationRepository.by_uuid conversationId (store w) = []).
    { apply filter_none. intros r Hr. apply String.eqb_neq. apply Hfresh. exact Hr. }
    assert (Hnew : ConversationRepository.by_uuid conversationId (store w1) = [row]).
    { unfold ConversationRepository.by_uuid. unfold conversation_rows in Hrows.
      rewrite Hrows. apply filter_fresh.
      - intros r Hr. apply String.eqb_neq. apply Hfresh. exact Hr.
      - apply String.eqb_eq. exact Hu. }
    rewrite Hnew in Hby. injection Hby as <-.
    split; [|split; [assumption | split; assumption]].
    unfold ConversationRepository.live_by_uuid. rewrite Hnew. simpl.
    rewrite Hdel. reflexivity.
Qed.

(** C1 (as amended). After a successful [sendMessage], the user message
    and the assistant message of the turn are the two rows added to the
    messages, both in the conversation returned; the assistant row's parent
    is the key of the user row, unless the store faulted the lookup of the
    parent (one call made during the turn), whose error is not looked at:
    the assistant row then has no parent. The message count of the
    conversation is 2 more than before the call, 2 for a conversation the
    call created. *)
Theorem sendMessage_turn (input : SendMessageInput) (env : Env) (w : World)
        (out : SendMessageOutput) (w' : World) :
  uuids_not_empty env ->
  AssistantAI.sendMessage input env w = (Ok out, w') ->
  exists (userRow assistantRow : MessageRow) (conv : ConversationRow) (lookup : nat),
    message_rows w' = message_rows w ++ [userRow; assistantRow] /\
    single (ConversationRepository.by_uuid (out_conversationId out) (store w')) = DbData conv /\
    conversation_id userRow = conv_id conv /\
    msg_type userRow = user /\ msg_content userRow = in_message input /\
    conversation_id assistantRow = conv_id conv /\
    msg_type assistantRow = assistant /\ msg_content assistantRow = out_content out /\
    msg_uuid assistantRow = out_messageId out /\
    step w <= lookup < step w' /\
    parent_message_id assistantRow =
      match db_fault env lookup with
      | None => Some (msg_id userRow)
      | Some _ => None
      end /\
    if truthy_str (in_conversationId input)
    then exists before,
        single (ConversationRepository.by_uuid (out_conversationId out) (store w))
        = DbData before /\
        conv_id before = conv_id conv /\
        message_count conv = (message_count before + 2)%Z
    else ConversationRepository.by_uuid (out_conversationId out) (store w) = [] /\
         message_count conv = 2%Z.
Proof.
  intros Huuid H. unfold AssistantAI.sendMessage in H.
  apply bind_Ok in H. destruct H as ([] & w0 & Einit & H).
  apply bind_Ok in H. destruct H as (cid & w1 & Eres & H).
  apply bind_Ok in H. destruct H as (userMessage & w2 & Euser & H).
  apply bind_Ok in H. destruct H as (messages_ & w3 & Elist & H).
  apply bind_Ok in H. destruct H as (knowledgeResults & w4 & Esearch & H).
  apply bind_Ok in H. destruct H as (personality_ & w5 & Epers & H).
  apply bind_Ok in H. destruct H as (aiResponse & w6 & Eai & H).
  apply bind_Ok in H. destruct H as (assistantMessage & w7 & Easst & H).
  apply bind_Ok in H. destruct H as ([] & w8 & Ebump & H).
  unfold ret in H. injection H as <- <-. simpl.
  (* the step counter *)
  pose proof (adv_init _ _ _ _ Einit) as A0.
  pose proof (adv_resolve _ _ _ _ _ Eres) as A1.
  pose proof (adv_message_create _ _ _ _ _ _ _ _ _ Euser) as A2.
  pose proof (adv_listByConversation _ _ _ _ _ _ Elist) as A3.
  pose proof (adv_search _ _ _ _ _ _ _ _ Esearch) as A4.
  pose proof (adv_getPersonality _ _ _ _ Epers) as A5.
  pose proof (adv_generateResponse _ _ _ _ _ _ _ _ Eai) as A6.
  pose proof (adv_bump_message_count _ _ _ _ _ Ebump) as A8.
  (* the tables between the steps *)
  use_keeps messages_table Einit. use_keeps conversations_table Einit.
  use_keeps messages_table Elist. use_keeps conversations_table Elist.
  use_keeps messages_table Esearch. use_keeps conversations_table Esearch.
  use_keeps messages_table Epers. use_keeps conversations_table Epers.
  use_keeps messages_table Eai. use_keeps conversations_table Eai.
  unfold messages_table, conversations_table in *.
  (* the two messages *)
  apply message_create_inv in Euser.
  destruct Euser as (convData & userRow & Hconv & Hrows2 & Hc2 & Hum & U1 & U2 & U3 & _
                     & Ufresh & _ & _ & (nu & Ugen)).
  apply message_create_inv in Easst.
  destruct Easst as (convData' & asstRow & Hconv' & Hrows7 & Hc7 & Ham & B1 & B2 & B3 & _
                     & _ & T7 & Bparent & _).
  destruct (resolved_conversation _ _ _ _ _ _ Eres Hconv) as (Hlive & Hm1 & Hbefore).
  assert (Hc6 : conversations (store w6) = conversations (store w1))
    by (rewrite K8, K6, K4, K2; exact Hc2).
  assert (Hm6 : message_rows w6 = message_rows w ++ [userRow]).
  { unfold message_rows in *. rewrite K7, K5, K3, K1, Hrows2, Hm1, K. reflexivity. }
  assert (convData' = convData).
  { unfold ConversationRepository.by_uuid in *. rewrite Hc6, Hconv in Hconv'.
    now injection Hconv'. }
  subst convData'.
  (* the count *)
  apply bump_message_count_inv in Ebump. destruct Ebump as (Hm8 & Hbump).
  assert (Hlive7 : single (ConversationRepository.live_by_uuid cid (store w7))
                   = DbData convData).
  { unfold ConversationRepository.live_by_uuid, ConversationRepository.by_uuid in *.
    rewrite Hc7, Hc6. exact Hlive. }
  rewrite Hlive7 in Hbump. destruct Hbump as (t & Hrows8).
  set (g := fun r : ConversationRow =>
              if String.eqb (conv_uuid r) cid
              then {| conv_id := conv_id r; conv_uuid := conv_uuid r;
                      creator_id := creator_id r; conv_title := conv_title r;
                      message_count := message_count convData + 2;
                      conv_created_at := conv_created_at r; conv_updated_at := t;
                      deleted_at := deleted_at r |}
              else r) in *.
  assert (Hby8 : ConversationRepository.by_uuid cid (store w8) = [g convData]).
  { unfold ConversationRepository.by_uuid. unfold conversation_rows in Hrows8.
    rewrite Hrows8, Hc7, Hc6.
    rewrite filter_map_same.
    - apply single_inv in Hconv. unfold ConversationRepository.by_uuid in Hconv.
      rewrite Hconv. reflexivity.
    - intros r. unfold g. destruct (String.eqb (conv_uuid r) cid) eqn:E; simpl; now rewrite E. }
  assert (Hcid : String.eqb (conv_uuid convData) cid = true).
  { apply single_inv in Hconv. unfold ConversationRepository.by_uuid in Hconv.
    assert (Hin : In convData (filter (fun r => String.eqb (conv_uuid r) cid)
                                      (rows (conversations (store w1)))))
      by (rewrite Hconv; now left).
    apply filter_In in Hin. exact (proj2 Hin). }
  (* the parent *)
  assert (Hparent : parent_message_id asstRow =
                    match db_fault env (S (step w6)) with
                    | None => Some (msg_id userRow)
                    | Some _ => None
                    end).
  { rewrite Bparent. subst userMessage. simpl.
    assert (Hne : String.eqb (msg_uuid userRow) "" = false).
    { apply String.eqb_neq. rewrite Ugen. apply Huuid. }
    rewrite Hne. destruct (db_fault env (S (step w6))); [reflexivity|].
    unfold MessageRepository.by_uuid. unfold message_rows in Hm6. rewrite Hm6.
    rewrite filter_fresh; [reflexivity | | apply String.eqb_refl].
    intros r Hr. apply String.eqb_neq. apply Ufresh.
    unfold message_rows. rewrite Hm1, K. exact Hr. }
  exists userRow, asstRow, (g convData), (S (step w6)).
  split.
  { unfold message_rows in *. rewrite Hm8, Hrows7, Hm6, <- app_assoc. reflexivity. }
  split; [rewrite Hby8; reflexivity|].
  assert (Hg : conv_id (g convData) = conv_id convData
               /\ message_count (g convData) = (message_count convData + 2)%Z).
  { unfold g. rewrite Hcid. simpl. auto. }
  destruct Hg as (Hg1 & Hg2). rewrite Hg1, Hg2.
  split; [assumption|]. split; [assumption|]. split; [assumption|].
  split; [assumption|]. split; [assumption|]. split; [assumption|].
  split; [subst assistantMessage; reflexivity|].
  split; [lia|]. split; [exact Hparent|].
  unfold ConversationRepository.by_uuid in *. rewrite <- K0.
  destruct (truthy_str (in_conversationId input)).
  - exists convData. auto.
  - destruct Hbefore as (Hnone & Hzero). rewrite Hzero. auto.
Qed.

Lemma provider_up_later_uuids : uuids_not_empty provider_up_later.
Proof. intros n. discriminate. Qed.

(** C1 at the first turn of an existing conversation, the store answering
    every call: the two messages are added and the assistant message's
    parent is the key of the user message. *)
Lemma sendMessage_turn_witness :
  exists userRow assistantRow,
    message_rows (snd (AssistantAI.sendMessage (continue_conv "hi") provider_up_later
                         (with_messages [])))
    = [userRow; assistantRow] /\
    parent_message_id assistantRow = Some (msg_id userRow).
Proof.
  destruct (sendMessage_turn (continue_conv "hi") provider_up_later (with_messages [])
              {| out_content := "Hello!"; out_conversationId := "conv";
                 out_messageId := letter 21 |}
              (snd (AssistantAI.sendMessage (continue_conv "hi") provider_up_later
                      (with_messages [])))
              provider_up_later_uuids)
    as (userRow & assistantRow & conv & lookup & Hrows & _ & _ & _ & _ & _ & _ & _ & _
        & _ & Hparent & _).
  - vm_compute. reflexivity.
  - exists userRow, assistantRow. split; [exact Hrows | exact Hparent].
Defined.

(** C1 (as stated) fails when the store faults the lookup of the parent,
    the call made at step 18 of this turn: [sendMessage] succeeds, both
    messages are persisted and the count is raised by 2, but the assistant
    message has no parent. *)
Lemma parent_lookup_fault_ignored :
  let run := AssistantAI.sendMessage (continue_conv "hi") (fault_at 18) (with_messages []) in
  fst run = Ok {| out_content := "Hello!"; out_conversationId := "conv";
                  out_messageId := letter 21 |} /\
  map msg_type (message_rows (snd run)) = [user; assistant] /\
  map parent_message_id (message_rows (snd run)) = [None; None] /\
  map message_count (conversation_rows (snd run)) = [2%Z].
Proof. repeat split; vm_compute; reflexivity. Qed.

(* ------------------------------------------------------------------ *)
(** ** A streamed turn *)
(* ------------------------------------------------------------------ *)

Tactic Notation "binv" hyp(H) ident(a) ident(w) ident(E) :=
  apply bind_inv in H;
  let x := fresh "x" in
  let Hx := fresh "Hx" in
  destruct H as [(a & w & E & H) | (x & H & Hx)];
  [| first [ injection Hx as -> | subst ] ].

Lemma yield_run event env w :
  yield event env w = (Ok tt, set_yielded (yielded w ++ [event]) w).
Proof. reflexivity. Qed.

(** The streaming loop yields one delta per chunk consumed, touches
    nothing else, and returns the text accumulated unless the stream
    fails. *)
Lemma for_await_deltas chunks failure :
  forall acc env w r w',
    AIService.for_await chunks failure
      (fun fullContent chunk => yield (ev_delta chunk) ;; ret (fullContent ++ chunk)%string)
      acc env w = (r, w') ->
    exists ds,
      w' = set_yielded (yielded w ++ map ev_delta ds) w /\
      r = match failure with
          | Some message => Err message
          | None => Ok (fold_left String.append ds acc)
          end.
Proof.
  induction chunks as [|chunk rest IH]; intros acc env w r w' H; simpl in H.
  - exists []. simpl. rewrite app_nil_r.
    destruct failure; injection H as <- <-; split; try reflexivity; now destruct w.
  - destruct chunk as [content|]; [|apply (IH _ _ _ _ _ H)].
    destruct (String.eqb content ""); [apply (IH _ _ _ _ _ H)|].
    unfold bind at 1 in H. unfold bind at 1 in H. rewrite yield_run in H.
    cbn [ret] in H.
    apply IH in H. destruct H as (ds & -> & ->).
    exists (content :: ds). simpl. split; [|reflexivity].
    rewrite <- app_assoc. reflexivity.
Qed.

Lemma keeps_yielded_message_create conversationId type content parentMessageId metadata :
  keeps yielded
        (MessageRepository.create conversationId type content parentMessageId metadata).
Proof. unfold MessageRepository.create. keeps_all. Qed.

Lemma keeps_yielded_resolve input : keeps yielded (AssistantAI.resolve input).
Proof.
  unfold AssistantAI.resolve, AssistantAI.createConversation, ConversationRepository.create.
  keeps_all.
Qed.

Lemma keeps_message_rows_resolve input : keeps message_rows (AssistantAI.resolve input).
Proof.
  unfold AssistantAI.resolve, AssistantAI.createConversation, ConversationRepository.create.
  keeps_all.
Qed.

Lemma keeps_yielded_bump conversationId :
  keeps yielded (AssistantAI.bump_message_count conversationId).
Proof.
  unfold AssistantAI.bump_message_count, ConversationRepository.updateMessageCount.
  keeps_all.
Qed.

Lemma keeps_message_rows_bump conversationId :
  keeps message_rows (AssistantAI.bump_message_count conversationId).
Proof.
  unfold AssistantAI.bump_message_count, ConversationRepository.updateMessageCount.
  keeps_all.
Qed.

#[export] Hint Resolve keeps_yielded_message_create keeps_yielded_resolve
  keeps_message_rows_resolve keeps_yielded_bump keeps_message_rows_bump : keeps.

(** A message that could not be created is not in the table. *)
Lemma message_create_err conversationId type content parentMessageId metadata env w e w' :
  MessageRepository.create conversationId type content parentMessageId metadata env w
  = (Err e, w') ->
  message_rows w' = message_rows w.
Proof.
  unfold MessageRepository.create. intros H.
  binv H conv w1 E1; [|use_keeps message_rows H; assumption].
  use_keeps message_rows E1.
  destruct conv as [convData|convError];
    [|unfold throw in H; injection H as _ <-; assumption].
  binv H parentId w2 E2; [|use_keeps message_rows H; congruence].
  use_keeps message_rows E2.
  binv H created_at w3 E3; [|use_keeps message_rows H; congruence].
  use_keeps message_rows E3.
  binv H updated_at w4 E4; [|use_keeps message_rows H; congruence].
  use_keeps message_rows E4.
  binv H answer w5 E5.
  - destruct answer as [data|error]; [discriminate|].
    unfold throw in H. injection H as _ <-.
    apply (insert_error_rows messages set_messages) in E5; [|reflexivity].
    unfold message_rows in *. congruence.
  - unfold insert in H. apply store_call_inv in H. destruct H as (? & ? & _). discriminate.
Qed.

Lemma bump_message_count_err conversationId env w e w' :
  AssistantAI.bump_message_count conversationId env w = (Err e, w') ->
  count_update_error e.
Proof.
  unfold AssistantAI.bump_message_count. intros H.
  binv H c w1 E1.
  - destruct c as [c|]; [|discriminate].
    unfold ConversationRepository.updateMessageCount in H.
    binv H t w2 E2; [|discriminate].
    binv H answer w3 E3.
    + destruct answer as [[]|error]; [discriminate|].
      unfold throw in H. injection H as <- _. exists (error_message error). now right.
    + unfold update in H. apply store_call_inv in H. destruct H as (? & ? & _). discriminate.
  - unfold ConversationRepository.getById in H.
    binv H answer w1 E1.
    + destruct answer as [data|[|m]]; try discriminate.
      unfold throw in H. injection H as <- _. exists m. now left.
    + unfold select_single in H. apply store_call_inv in H.
      destruct H as (? & ? & _). discriminate.
Qed.

Lemma streamResponse_deltas userMessage systemPrompt history context env w r w' :
  AIService.streamResponse userMessage systemPrompt history context
    (fun fullContent chunk => yield (ev_delta chunk) ;; ret (fullContent ++ chunk)%string)
    "" env w = (r, w') ->
  exists ds,
    yielded w' = yielded w ++ map ev_delta ds /\
    message_rows w' = message_rows w /\
    forall content, r = Ok content -> content = joined ds.
Proof.
  unfold AIService.streamResponse. intros H.
  unfold bind at 1 in H. unfold send, modify in H.
  unfold bind at 1 in H. unfold ask in H.
  apply for_await_deltas in H. destruct H as (ds & -> & ->).
  exists ds. simpl. repeat split.
  intros content Hc. destruct (snd _); [discriminate|]. injection Hc as <-. reflexivity.
Qed.

(** The runs of the [try] block of [streamMessage]: it returns after
    [start], the deltas and [final], with the two messages added; or it
    throws before [start] or after [start] and some deltas, having added
    no message, the user message alone, or, when what throws is the update
    of the message count, both messages. *)
Lemma stream_turn_run input env w r w' :
  AssistantAI.stream_turn input env w = (r, w') ->
  match r with
  | Ok _ =>
      exists cid ds u a,
        yielded w' = yielded w
                     ++ ev_start cid :: map ev_delta ds
                     ++ [ev_final (joined ds) (msg_uuid a) cid] /\
        message_rows w' = message_rows w ++ [u; a] /\
        msg_type u = user /\ msg_type a = assistant /\ msg_content a = joined ds
  | Err e =>
      exists events,
        yielded w' = yielded w ++ events /\
        (events = [] \/ exists cid ds, events = ev_start cid :: map ev_delta ds) /\
        (message_rows w' = message_rows w \/
         (exists u, message_rows w' = message_rows w ++ [u] /\ msg_type u = user) \/
         (exists u a, message_rows w' = message_rows w ++ [u; a] /\
                      msg_type u = user /\ msg_type a = assistant /\
                      count_update_error e))
  end.
Proof.
  unfold AssistantAI.stream_turn. intros H.
  (* resolve *)
  binv H cid w1 E1.
  2: { use_keeps yielded H. use_keeps message_rows H.
       exists []. rewrite app_nil_r. auto. }
  use_keeps yielded E1. use_keeps message_rows E1.
  (* start *)
  binv H u0 w2 E2; [|discriminate].
  rewrite yield_run in E2. injection E2 as _ E2.
  assert (Y2 : yielded w2 = yielded w ++ ev_start cid :: map ev_delta [])
    by (subst w2; simpl; congruence).
  assert (R2 : message_rows w2 = message_rows w) by (subst w2; exact K0).
  clear K K0 E2.
  (* the user message *)
  binv H userMessage w3 E3.
  2: { use_keeps yielded H. apply message_create_err in H.
       exists (ev_start cid :: map ev_delta []).
       split; [congruence|]. split; [right; exists cid, []; reflexivity|].
       left. congruence. }
  use_keeps yielded E3.
  apply message_create_inv in E3.
  destruct E3 as (convData & u & _ & Hrows3 & _ & _ & _ & Utype & _).
  assert (Y3 : yielded w3 = yielded w ++ ev_start cid :: map ev_delta []) by congruence.
  assert (R3 : message_rows w3 = message_rows w ++ [u]) by congruence.
  clear K Hrows3 Y2 R2.
  (* history, search, personality *)
  binv H messages_ w4 E4.
  2: { use_keeps yielded H. use_keeps message_rows H.
       exists (ev_start cid :: map ev_delta []).
       split; [congruence|]. split; [right; exists cid, []; reflexivity|].
       right; left. exists u. split; [congruence | assumption]. }
  use_keeps yielded E4. use_keeps message_rows E4.
  assert (Y4 : yielded w4 = yielded w ++ ev_start cid :: map ev_delta []) by congruence.
  assert (R4 : message_rows w4 = message_rows w ++ [u]) by congruence.
  clear K K0 Y3 R3.
  binv H knowledgeResults w5 E5.
  2: { use_keeps yielded H. use_keeps message_rows H.
       exists (ev_start cid :: map ev_delta []).
       split; [congruence|]. split; [right; exists cid, []; reflexivity|].
       right; left. exists u. split; [congruence | assumption]. }
  use_keeps yielded E5. use_keeps message_rows E5.
  assert (Y5 : yielded w5 = yielded w ++ ev_start cid :: map ev_delta []) by congruence.
  assert (R5 : message_rows w5 = message_rows w ++ [u]) by congruence.
  clear K K0 Y4 R4.
  binv H personality_ w6 E6.
  2: { use_keeps yielded H. use_keeps message_rows H.
       exists (ev_start cid :: map ev_delta []).
       split; [congruence|]. split; [right; exists cid, []; reflexivity|].
       right; left. exists u. split; [congruence | assumption]. }
  use_keeps yielded E6. use_keeps message_rows E6.
  assert (Y6 : yielded w6 = yielded w ++ ev_start cid :: map ev_delta []) by congruence.
  assert (R6 : message_rows w6 = message_rows w ++ [u]) by congruence.
  clear K K0 Y5 R5.
  (* the stream *)
  assert (Hstream : forall r7 w7 ,
             AIService.streamResponse (in_message input) (bp_systemPrompt personality_)
               (AssistantAI.conversationHistory messages_)
               (formatKnowledgeContext knowledgeResults)
               (fun fullContent chunk =>
                  yield (ev_delta chunk) ;; ret (fullContent ++ chunk)%string)
               "" env w6 = (r7, w7) ->
             exists ds,
               yielded w7 = yielded w ++ ev_start cid :: map ev_delta ds /\
               message_rows w7 = message_rows w ++ [u] /\
               forall content, r7 = Ok content -> content = joined ds).
  { intros r7 w7 E. apply streamResponse_deltas in E. destruct E as (ds & Hy & Hr & Hc).
    exists ds. split; [|split; [congruence | exact Hc]].
    rewrite Hy, Y6. simpl. rewrite <- app_assoc. reflexivity. }
  binv H fullContent w7 E7.
  2: { apply Hstream in H. destruct H as (ds & Hy & Hr & _).
       exists (ev_start cid :: map ev_delta ds).
       split; [assumption|]. split; [right; exists cid, ds; reflexivity|].
       right; left. exists u. auto. }
  apply Hstream in E7. destruct E7 as (ds & Y7 & R7 & Hcontent).
  specialize (Hcontent fullContent eq_refl). subst fullContent.
  clear Hstream Y6 R6.
  (* the assistant message *)
  binv H assistantMessage w8 E8.
  2: { use_keeps yielded H. apply message_create_err in H.
       exists (ev_start cid :: map ev_delta ds).
       split; [congruence|]. split; [right; exists cid, ds; reflexivity|].
       right; left. exists u. split; [congruence | assumption]. }
  use_keeps yielded E8.
  apply message_create_inv in E8.
  destruct E8 as (convData' & a & _ & Hrows8 & _ & Ham & _ & Atype & Acontent & _).
  assert (Y8 : yielded w8 = yielded w ++ ev_start cid :: map ev_delta ds) by congruence.
  assert (R8 : message_rows w8 = message_rows w ++ [u; a]).
  { rewrite Hrows8, R7, <- app_assoc. reflexivity. }
  clear K Hrows8 Y7 R7.
  (* the count *)
  binv H u1 w9 E9.
  2: { use_keeps yielded H. use_keeps message_rows H. apply bump_message_count_err in H.
       exists (ev_start cid :: map ev_delta ds).
       split; [congruence|]. split; [right; exists cid, ds; reflexivity|].
       right; right. exists u, a. split; [congruence | auto]. }
  use_keeps yielded E9. use_keeps message_rows E9.
  (* final *)
  rewrite yield_run in H. injection H as <- Hw'.
  assert (R9 : message_rows w' = message_rows w9) by (subst w'; reflexivity).
  assert (Y9 : yielded w' = yielded w9
                            ++ [ev_final (joined ds) (m_uuid assistantMessage) cid])
    by (subst w'; reflexivity).
  exists cid, ds, u, a. subst assistantMessage. simpl in Y9.
  split; [|split; [congruence | auto]].
  rewrite Y9, K, Y8. rewrite <- app_assoc. reflexivity.
Qed.

Lemma no_terminal_before (events : list StreamEvent) :
  events = [] \/ (exists cid ds, events = ev_start cid :: map ev_delta ds) ->
  forallb (fun event => negb (is_terminal event)) events = true.
Proof.
  intros [-> | (cid & ds & ->)]; [reflexivity|]. simpl.
  induction ds as [|d ds IH]; simpl; auto.
Qed.

(** C9 (as amended). Once initialisation has succeeded, a [streamMessage]
    consumed to completion does not throw, and what it yields is: nothing
    or a [start] followed by deltas, none of them terminal, and then
    exactly one terminal event, [final] or [error]. With [final] the two
    messages of the turn have been added, the assistant message carrying
    the identifier and the content of the event, the concatenation of the
    deltas. With [error] no message, or the user message alone, has been
    added, unless the error is that of the update of the message count,
    the step after the assistant message is persisted: then both messages
    have been added. *)
Theorem streamMessage_events (input : SendMessageInput) (env : Env) (w w0 : World) :
  AssistantAI.init env w = (Ok tt, w0) ->
  exists (w' : World) (events : list StreamEvent) (terminal : StreamEvent),
    AssistantAI.streamMessage input env w = (Ok tt, w') /\
    yielded w' = yielded w ++ events ++ [terminal] /\
    is_terminal terminal = true /\
    forallb (fun event => negb (is_terminal event)) events = true /\
    (events = [] \/ exists cid ds, events = ev_start cid :: map ev_delta ds) /\
    match terminal with
    | ev_final content messageId conversationId =>
        exists ds u a,
          events = ev_start conversationId :: map ev_delta ds /\
          content = joined ds /\
          message_rows w' = message_rows w ++ [u; a] /\
          msg_type u = user /\ msg_type a = assistant /\
          msg_uuid a = messageId /\ msg_content a = content
    | ev_error error =>
        message_rows w' = message_rows w \/
        (exists u, message_rows w' = message_rows w ++ [u] /\ msg_type u = user) \/
        (exists u a, message_rows w' = message_rows w ++ [u; a] /\
                     msg_type u = user /\ msg_type a = assistant /\
                     count_update_error error)
    | _ => False
    end.
Proof.
  intros Einit. unfold AssistantAI.streamMessage.
  rewrite (bind_eq_Ok _ _ _ _ _ _ Einit). unfold try_catch.
  use_keeps yielded Einit. use_keeps message_rows Einit.
  destruct (AssistantAI.stream_turn input env w0) as [[[]|e] wb] eqn:Eb;
    apply stream_turn_run in Eb.
  - destruct Eb as (cid & ds & u & a & Hy & Hr & Hu & Ha & Hc).
    exists wb, (ev_start cid :: map ev_delta ds), (ev_final (joined ds) (msg_uuid a) cid).
    split; [reflexivity|].
    split; [rewrite Hy, K; reflexivity|].
    split; [reflexivity|].
    split; [apply no_terminal_before; right; exists cid, ds; reflexivity|].
    split; [right; exists cid, ds; reflexivity|].
    exists ds, u, a. rewrite Hr, K0. auto 10.
  - destruct Eb as (events & Hy & Hshape & Hrows).
    exists (set_yielded (yielded wb ++ [ev_error e]) wb), events, (ev_error e).
    split; [reflexivity|].
    split; [simpl; rewrite Hy, K, <- app_assoc; reflexivity|].
    split; [reflexivity|].
    split; [apply no_terminal_before; assumption|].
    split; [assumption|].
    change (message_rows (set_yielded (yielded wb ++ [ev_error e]) wb))
      with (message_rows wb).
    rewrite <- K0. exact Hrows.
Qed.

(** C9 at the first turn of an existing conversation: the stream ends
    with one terminal event. *)
Lemma streamMessage_events_witness :
  exists w' events terminal,
    AssistantAI.streamMessage (continue_conv "hi") provider_up_later (with_messages [])
    = (Ok tt, w') /\
    yielded w' = events ++ [terminal] /\
    is_terminal terminal = true /\
    forallb (fun event => negb (is_terminal event)) events = true.
Proof.
  destruct (streamMessage_events (continue_conv "hi") provider_up_later
              (with_messages []) (with_messages []) eq_refl)
    as (w' & events & terminal & Hrun & Hy & Ht & Hn & _).
  exists w', events, terminal. auto.
Defined.

(** C9 (as stated) fails when the update of the message count fails, here
    on a fault of the store at step 24: the stream ends with [error], and
    the assistant message has been persisted. *)
Lemma stream_error_after_persist :
  let run := AssistantAI.streamMessage (continue_conv "hi") (fault_at 24)
                                       (with_messages []) in
  yielded (snd run)
  = [ev_start "conv"; ev_delta "Hel"; ev_delta "lo!";
     ev_error "Failed to update conversation: connection reset"] /\
  map msg_type (message_rows (snd run)) = [user; assistant] /\
  map msg_content (message_rows (snd run)) = ["hi"; "Hello!"].
Proof. repeat split; vm_compute; reflexivity. Qed.

(* ------------------------------------------------------------------ *)
(** ** The personality record *)
(* ------------------------------------------------------------------ *)

Lemma filter_nil_uuid w :
  no_nil_record w ->
  filter (fun r => negb (negb (String.eqb (pers_uuid r) PersonalityRepository.nil_uuid)))
         (personality_rows w) = [].
Proof.
  intros Hnil. apply filter_none. intros r Hr.
  rewrite negb_involutive. apply String.eqb_neq. exact (Hnil r Hr).
Qed.

(** With a store that answers, [save] replaces whatever records there are
    by one, built at the clock reading it takes. *)
Lemma save_run name systemPrompt profile env w :
  store_reliable env -> no_nil_record w ->
  exists row w',
    PersonalityRepository.save name systemPrompt profile env w
    = (Ok (PersonalityRepository.mapRow row), w') /\
    personality_rows w' = [row] /\
    last_built_at row = Date_now env (S (step w)) /\
    pers_uuid row = gen_random_uuid env (S (S (step w))) /\
    step w' = 3 + step w /\
    cache w' = cache w.
Proof.
  intros Hrel Hnil.
  unfold PersonalityRepository.save.
  unfold bind at 1. unfold delete, store_call at 1. rewrite Hrel. cbv zeta beta.
  set (w1 := set_store _ (set_step (S (step w)) w)).
  unfold bind at 1. unfold new_Date, ask. cbv zeta beta.
  unfold bind at 1. unfold insert, store_call.
  change (step (set_step (S (step w1)) w1)) with (S (S (step w))).
  rewrite Hrel. cbv zeta beta.
  assert (Hrows : rows (personality (store (set_step (S (step w1)) w1))) = []).
  { unfold w1. simpl. apply (filter_nil_uuid w Hnil). }
  rewrite Hrows. simpl existsb. cbv iota.
  eexists. eexists. split; [reflexivity|].
  unfold personality_rows. simpl. repeat split.
Qed.

Lemma save_and_cache_run name systemPrompt profile env w :
  store_reliable env -> no_nil_record w ->
  exists result w',
    PersonalityService.save_and_cache name systemPrompt profile env w = (Ok result, w') /\
    one_record_built env w w'.
Proof.
  intros Hrel Hnil.
  destruct (save_run name systemPrompt (Some profile) env w Hrel Hnil)
    as (row & w1 & Hsave & Hrows & Hbuilt & Huuid & Hstep & _).
  unfold PersonalityService.save_and_cache.
  rewrite (bind_eq_Ok _ _ _ _ _ _ Hsave).
  unfold PersonalityService.cache_set, new_Date, ask, modify, bind, ret.
  eexists. eexists. split; [reflexivity|].
  exists row, (S (step w)). simpl. unfold personality_rows in *. simpl.
  split; [assumption|]. split; [assumption|]. split; [lia|].
  exists (S (S (step w))). assumption.
Qed.

Lemma adv_getTopItems limit_ : advances (getTopItems limit_).
Proof. unfold getTopItems, KnowledgeRepository.listRecent, select. adv_tac. Qed.

Lemma adv_summarizeKnowledgeBase items : advances (AIService.summarizeKnowledgeBase items).
Proof. unfold AIService.summarizeKnowledgeBase, send. adv_tac. Qed.

Lemma keeps_personality_rows_getTopItems limit_ : keeps personality_rows (getTopItems limit_).
Proof. keeps_known. Qed.

Lemma keeps_personality_rows_summarize items :
  keeps personality_rows (AIService.summarizeKnowledgeBase items).
Proof. keeps_known. Qed.

Lemma buildPersonality_run env w r w' :
  store_reliable env -> no_nil_record w ->
  PersonalityService.buildPersonality env w = (r, w') ->
  match r with
  | Ok _ => one_record_built env w w'
  | Err _ => personality_rows w' = personality_rows w
  end.
Proof.
  intros Hrel Hnil. unfold PersonalityService.buildPersonality.
  unfold PersonalityService.cache_delete, PersonalityService.config_customInstructions,
    PersonalityService.config_name, PersonalityService.config_tone.
  unfold bind at 1. unfold modify at 1. cbv beta iota zeta.
  unfold bind at 1. unfold config at 1. cbv beta iota zeta.
  unfold bind at 1. unfold config at 1. cbv beta iota zeta.
  unfold bind at 1. unfold config at 1. cbv beta iota zeta.
  set (w0 := set_cache None w).
  assert (Hnil0 : no_nil_record w0) by exact Hnil.
  assert (Hw0 : personality_rows w0 = personality_rows w) by reflexivity.
  assert (Hlift : forall wa, step w0 <= step wa -> personality_rows wa = personality_rows w0 ->
                    forall name systemPrompt profile,
                      PersonalityService.save_and_cache name systemPrompt profile env wa
                      = (r, w') ->
                      match r with
                      | Ok _ => one_record_built env w w'
                      | Err _ => personality_rows w' = personality_rows w
                      end).
  { intros wa Hstep Hrows name systemPrompt profile H.
    assert (Hnila : no_nil_record wa).
    { intros x Hx. apply Hnil. unfold personality_rows in *. rewrite Hrows in Hx. exact Hx. }
    destruct (save_and_cache_run name systemPrompt profile env wa Hrel Hnila)
      as (result & w1 & Hrun & row & n & H1 & H2 & H3 & H4).
    rewrite Hrun in H. injection H as <- <-.
    exists row, n. split; [assumption|]. split; [assumption|].
    split; [simpl in Hstep; lia | assumption]. }
  destruct (truthy_str _).
  - intros H. exact (Hlift w0 (Nat.le_refl _) eq_refl _ _ _ H).
  - intros H. binv H topItems w1 E1.
    2: { use_keeps personality_rows H. exact K. }
    use_keeps personality_rows E1.
    pose proof (adv_getTopItems _ _ _ _ _ E1) as A1.
    destruct topItems as [|item items].
    + exact (Hlift w1 A1 K _ _ _ H).
    + binv H kbSummary w2 E2.
      2: { use_keeps personality_rows H. congruence. }
      use_keeps personality_rows E2.
      pose proof (adv_summarizeKnowledgeBase _ _ _ _ _ E2) as A2.
      refine (Hlift w2 _ _ _ _ _ H); [lia | congruence].
Qed.

Lemma setPersonality_run systemPrompt profile env w :
  store_reliable env -> no_nil_record w ->
  exists w',
    PersonalityService.setPersonality systemPrompt profile env w = (Ok tt, w') /\
    one_record_built env w w'.
Proof.
  intros Hrel Hnil. unfold PersonalityService.setPersonality.
  unfold PersonalityService.cache_delete. unfold bind at 1. unfold modify at 1.
  cbv beta iota zeta.
  set (w0 := set_cache None w).
  destruct (save_run
              match profile with
              | Some p => or_default (Some (pp_name p)) "AI Assistant"
              | None => "AI Assistant"
              end systemPrompt profile env w0 Hrel Hnil)
    as (row & w1 & Hsave & Hrows & Hbuilt & Huuid & Hstep & _).
  rewrite (bind_eq_Ok _ _ _ _ _ _ Hsave). unfold ret.
  exists w1. split; [reflexivity|].
  exists row, (S (step w)). split; [assumption|]. split; [assumption|].
  split; [simpl in Hstep; lia|]. exists (S (S (step w))). assumption.
Qed.

(** One operation of a sequence. *)
Lemma run_op_run op env w r w' :
  store_reliable env -> no_nil_record w ->
  run_op op env w = (r, w') ->
  step w <= step w' /\
  match r with
  | Ok _ => one_record_built env w w'
  | Err _ => personality_rows w' = personality_rows w
  end.
Proof.
  intros Hrel Hnil H. split.
  - destruct op; simpl in H.
    + unfold AssistantAI.buildPersonality in H.
      refine ((_ : advances (_ <- PersonalityService.buildPersonality ;; ret tt)) _ _ _ _ H).
      adv_tac.
    + exact (adv_setPersonality _ _ _ _ _ _ H).
  - destruct op; simpl in H.
    + unfold AssistantAI.buildPersonality in H.
      binv H result w1 E1.
      * unfold ret in H. injection H as <- <-.
        exact (buildPersonality_run _ _ _ _ Hrel Hnil E1).
      * exact (buildPersonality_run _ _ _ _ Hrel Hnil H).
    + destruct (setPersonality_run systemPrompt profile env w Hrel Hnil)
        as (w1 & Hrun & Hone).
      unfold AssistantAI.setPersonality in H. rewrite Hrun in H.
      injection H as <- <-. exact Hone.
Qed.

Lemma run_ops_singleton env :
  store_reliable env -> uuids_not_nil env ->
  forall ops w,
    no_nil_record w -> List.length (personality_rows w) <= 1 ->
    List.length (personality_rows (run_ops ops env w)) <= 1 /\
    (forall t, In t (built_history ops env w) -> exists n, step w <= n /\ t = Date_now env n) /\
    (built_history ops env w <> [] ->
     exists row, personality_rows (run_ops ops env w) = [row] /\
                 last_built_at row = last (built_history ops env w) 0%Z) /\
    (built_history ops env w = [] ->
     personality_rows (run_ops ops env w) = personality_rows w) /\
    (clock_advances env -> StronglySorted Z.lt (built_history ops env w)).
Proof.
  intros Hrel Huuid. induction ops as [|op rest IH]; intros w Hnil Hlen.
  - simpl. split; [assumption|]. split; [intros t []|].
    split; [intros H; now contradiction H|]. split; [reflexivity|].
    intros _. constructor.
  - simpl. destruct (run_op op env w) as [r w1] eqn:Erun. simpl.
    destruct (run_op_run _ _ _ _ _ Hrel Hnil Erun) as (Hstep & Hcase).
    destruct r as [[]|e].
    + destruct Hcase as (row & n & Hrows & Hbuilt & Hn & (k & Hk)).
      assert (Hnil1 : no_nil_record w1).
      { intros x Hx. rewrite Hrows in Hx. destruct Hx as [<-|[]]. rewrite Hk. apply Huuid. }
      assert (Hlen1 : List.length (personality_rows w1) <= 1) by (rewrite Hrows; simpl; lia).
      destruct (IH w1 Hnil1 Hlen1) as (I1 & I2 & I3 & I4 & I5).
      rewrite Hrows. simpl.
      split; [assumption|]. split; [|split; [|split]].
      * intros t [<-|Ht].
        -- exists n. split; [lia | assumption].
        -- destruct (I2 t Ht) as (n' & Hn' & Et). exists n'. split; [lia | assumption].
      * intros _. destruct (built_history rest env w1) as [|t0 hist] eqn:Ehist.
        -- exists row. rewrite (I4 eq_refl). split; [assumption | reflexivity].
        -- destruct I3 as (row' & Hrow' & Hlast'); [discriminate|].
           exists row'. split; [assumption|].
           rewrite Hlast'. reflexivity.
      * discriminate.
      * intros Hclock. constructor; [apply I5; assumption|].
        apply Forall_forall. intros t Ht. destruct (I2 t Ht) as (n' & Hn' & ->).
        rewrite Hbuilt. apply Hclock. lia.
    + assert (Hnil1 : no_nil_record w1).
      { intros x Hx. apply Hnil. unfold personality_rows in *. rewrite Hcase in Hx. exact Hx. }
      assert (Hlen1 : List.length (personality_rows w1) <= 1) by (rewrite Hcase; assumption).
      destruct (IH w1 Hnil1 Hlen1) as (I1 & I2 & I3 & I4 & I5).
      split; [assumption|]. split; [|split; [|split]].
      * intros t Ht. destruct (I2 t Ht) as (n' & Hn' & Et). exists n'. split; [lia | assumption].
      * assumption.
      * intros Hh. rewrite (I4 Hh). assumption.
      * assumption.
Qed.

(** C8 (as amended). With a store that answers every call and starting
    from at most one personality record, after any sequence of build and
    set operations at most one record exists; as soon as one operation of
    the sequence has returned exactly one exists, and it carries the
    [lastBuiltAt] of the last operation that returned (an operation that
    throws leaves the records as they were). That timestamp is the clock
    reading taken by the save, so over the sequence it increases strictly
    provided the clock has advanced between steps. *)
Theorem personality_singleton (env : Env) (ops : list PersonalityOp) (w : World) :
  store_reliable env -> uuids_not_nil env ->
  no_nil_record w -> List.length (personality_rows w) <= 1 ->
  List.length (personality_rows (run_ops ops env w)) <= 1 /\
  (built_history ops env w <> [] ->
   exists row, personality_rows (run_ops ops env w) = [row] /\
               last_built_at row = last (built_history ops env w) 0%Z) /\
  (built_history ops env w = [] ->
   personality_rows (run_ops ops env w) = personality_rows w) /\
  (clock_advances env -> StronglySorted Z.lt (built_history ops env w)).
Proof.
  intros Hrel Huuid Hnil Hlen.
  destruct (run_ops_singleton env Hrel Huuid ops w Hnil Hlen) as (H1 & _ & H3 & H4 & H5).
  auto.
Qed.

Lemma provider_up_reliable : store_reliable provider_up.
Proof. intros n. reflexivity. Qed.

Lemma provider_up_uuids : uuids_not_nil provider_up.
Proof. intros n H. discriminate H. Qed.

Lemma provider_up_clock : clock_advances provider_up.
Proof. intros n m Hnm. simpl. lia. Qed.

(** C8 at a build, a set and a build again, from a store without a
    record: one record exists at the end, and the three timestamps
    increase strictly. *)
Lemma personality_singleton_witness :
  List.length
    (personality_rows
       (run_ops [op_build; op_set "Answer briefly." None; op_build] provider_up cold_start))
  = 1 /\
  StronglySorted Z.lt
    (built_history [op_build; op_set "Answer briefly." None; op_build] provider_up cold_start).
Proof.
  destruct (personality_singleton provider_up
              [op_build; op_set "Answer briefly." None; op_build] cold_start
              provider_up_reliable provider_up_uuids)
    as (_ & Hone & _ & Hsorted).
  - intros r [].
  - simpl. lia.
  - split.
    + destruct Hone as (row & Hrows & _); [vm_compute; discriminate|].
      rewrite Hrows. reflexivity.
    + apply Hsorted. exact provider_up_clock.
Defined.

(** C8 (as stated) fails: a build that throws, here on the summary of a
    knowledge base of one item while the model provider is down, leaves
    the store without any personality record. *)
Lemma failed_build_leaves_no_record :
  fst (run_op op_build provider_down sound_base) = Err "503 Service Unavailable" /\
  personality_rows (run_ops [op_build] provider_down sound_base) = [].
Proof. split; vm_compute; reflexivity. Qed.

(** The answer of the delete in [save] is not looked at: when the store
    faults it (here at step 3, the delete of the second set), the new
    record is inserted next to the old one. *)
Lemma unchecked_delete_keeps_old_record :
  map system_prompt
      (personality_rows
         (run_ops [op_set "Answer briefly." None; op_set "Answer at length." None]
                  (fault_at 3) cold_start))
  = ["Answer briefly."; "Answer at length."].
Proof. vm_compute. reflexivity. Qed.


(* ------------------------------------------------------------------ *)
(** ** Facts on the example worlds *)
(* ------------------------------------------------------------------ *)

Lemma provider_up_answers first count : answered provider_up first count.
Proof. intros n _. reflexivity. Qed.

Lemma cold_start_no_nil : no_nil_record cold_start.
Proof. intros r []. Qed.

(* ------------------------------------------------------------------ *)
(** ** Conversations and their messages *)
(* ------------------------------------------------------------------ *)

(** *** General lemmas *)

Lemma store_call_run {A : Type} (run : string -> Store -> DbResult A * Store) env w :
  db_fault env (step w) = None ->
  store_call run env w
  = (Ok (fst (run (gen_random_uuid env (step w)) (store w))),
     set_store (snd (run (gen_random_uuid env (step w)) (store w)))
               (set_step (S (step w)) w)).
Proof.
  intros H. unfold store_call. rewrite H.
  destruct (run _ _); reflexivity.
Qed.

Lemma store_call_fault {A : Type} (run : string -> Store -> DbResult A * Store) env w m :
  db_fault env (step w) = Some m ->
  store_call run env w = (Ok (DbError_ (DbFault m)), set_step (S (step w)) w).
Proof. intros H. unfold store_call. rewrite H. reflexivity. Qed.

Lemma insert_by_perm {A : Type} (before : A -> A -> bool) (x : A) (l : list A) :
  Permutation (insert_by before x l) (x :: l).
Proof.
  induction l as [|y l IH]; simpl; [reflexivity|].
  destruct (before y x); [|reflexivity].
  rewrite IH. apply perm_swap.
Qed.

Lemma sort_by_perm {A : Type} (before : A -> A -> bool) (l : list A) :
  Permutation (sort_by before l) l.
Proof.
  unfold sort_by. induction l as [|x l IH]; simpl; [reflexivity|].
  rewrite insert_by_perm. now constructor.
Qed.

Section Sorting.
Context {A : Type} (before : A -> A -> bool) (R : A -> A -> Prop).
Hypothesis before_R : forall y x, before y x = true -> R y x.
Hypothesis not_before_R : forall y x, before y x = false -> R x y.
Hypothesis R_trans : forall a b c, R a b -> R b c -> R a c.

Lemma insert_by_sorted (x : A) (l : list A) :
  StronglySorted R l -> StronglySorted R (insert_by before x l).
Proof.
  induction 1 as [|y l Hs IH Hall]; simpl.
  - repeat constructor.
  - destruct (before y x) eqn:E.
    + constructor; [assumption|].
      eapply Permutation_Forall; [symmetry; apply insert_by_perm|].
      constructor; [apply before_R; assumption | assumption].
    + constructor; [constructor; assumption|].
      constructor; [apply not_before_R; assumption|].
      apply Forall_impl with (P := R y); [|assumption].
      intros z Hz. apply R_trans with y; [apply not_before_R; assumption | assumption].
Qed.

Lemma sort_by_sorted (l : list A) : StronglySorted R (sort_by before l).
Proof.
  unfold sort_by. induction l as [|x l IH]; simpl; [constructor|].
  apply insert_by_sorted. assumption.
Qed.
End Sorting.

Lemma descending_sorted {A : Type} (column : A -> Z) (l : list A) :
  StronglySorted (fun a b => (column b <= column a)%Z) (descending column l).
Proof.
  unfold descending. apply sort_by_sorted.
  - intros y x H. apply Z.ltb_lt in H. lia.
  - intros y x H. apply Z.ltb_ge in H. lia.
  - intros a b c H1 H2. lia.
Qed.

Lemma ascending_sorted {A : Type} (column : A -> Z) (l : list A) :
  StronglySorted (fun a b => (column a <= column b)%Z) (ascending column l).
Proof.
  unfold ascending. apply sort_by_sorted.
  - intros y x H. apply Z.ltb_lt in H. lia.
  - intros y x H. apply Z.ltb_ge in H. lia.
  - intros a b c H1 H2. lia.
Qed.

Lemma StronglySorted_map {A B : Type} (f : A -> B) (R : B -> B -> Prop) (l : list A) :
  StronglySorted (fun a b => R (f a) (f b)) l -> StronglySorted R (map f l).
Proof.
  induction 1 as [|x l Hs IH Hall]; simpl; constructor; auto.
  apply Forall_map. assumption.
Qed.

Lemma StronglySorted_firstn {A : Type} (R : A -> A -> Prop) (n : nat) (l : list A) :
  StronglySorted R l -> StronglySorted R (firstn n l).
Proof.
  intros H. revert n. induction H as [|x l Hs IH Hall]; intros [|n]; simpl;
    try constructor; auto.
  apply Forall_forall. intros y Hy. apply In_firstn in Hy.
  rewrite Forall_forall in Hall. auto.
Qed.

Lemma filter_andb {A : Type} (p q : A -> bool) (l : list A) :
  filter q (filter p l) = filter (fun x => p x && q x) l.
Proof.
  induction l as [|x l IH]; simpl; [reflexivity|].
  destruct (p x); simpl; [destruct (q x)|]; rewrite IH; reflexivity.
Qed.

(** *** ListConversations *)

Lemma listByUser_inv userId env w cs w' :
  ConversationRepository.listByUser userId env w = (Ok cs, w') ->
  cs = map ConversationRepository.mapRow
           (ConversationRepository.live_of_user userId (store w)) /\
  Permutation cs
    (map ConversationRepository.mapRow (filter (owned_live userId) (conversation_rows w))) /\
  store w' = store w.
Proof.
  unfold ConversationRepository.listByUser. intros H.
  apply bind_Ok in H. destruct H as (answer & w1 & E & H).
  apply store_call_inv in E. destruct E as (a & Ea & _ & E). injection Ea as <-.
  destruct (db_fault env (step w)); [destruct E as (-> & _); discriminate|].
  injection E as -> Hs. unfold ret in H. injection H as <- <-.
  split; [reflexivity|]. split; [|exact Hs].
  apply Permutation_map. unfold ConversationRepository.live_of_user, descending.
  rewrite sort_by_perm, filter_andb. reflexivity.
Qed.

(** X1. [listConversations] returns the conversations of the user that are
    not deleted, each of them once and no other, the most recently updated
    first, and leaves the store as it was. *)
Theorem listConversations_live_recent_first userId env w cs w' :
  AssistantAI.listConversations userId env w = (Ok cs, w') ->
  Permutation cs
    (map ConversationRepository.mapRow (filter (owned_live userId) (conversation_rows w))) /\
  StronglySorted (fun a b => (c_updatedAt b <= c_updatedAt a)%Z) cs /\
  (forall c, In c cs -> c_creatorId c = userId /\ c_deletedAt c = None) /\
  store w' = store w.
Proof.
  unfold AssistantAI.listConversations. intros H.
  apply listByUser_inv in H. destruct H as (Hcs & Hperm & Hs).
  split; [exact Hperm|]. split; [|split; [|exact Hs]].
  - rewrite Hcs. apply StronglySorted_map. apply descending_sorted.
  - intros c Hc. apply (Permutation_in _ Hperm) in Hc.
    apply in_map_iff in Hc. destruct Hc as (row & <- & Hrow).
    apply filter_In in Hrow. destruct Hrow as (_ & Hrow).
    unfold owned_live in Hrow. apply andb_prop in Hrow. destruct Hrow as (Hu & Hd).
    apply String.eqb_eq in Hu. simpl.
    split; [assumption|]. destruct (deleted_at row); [discriminate | reflexivity].
Qed.

(** X1 on [four_conversations]: of the three conversations of [u1] the
    deleted [c3] is not listed, and [c4], updated last, comes first. *)
Lemma listConversations_live_recent_first_witness :
  exists cs w',
    AssistantAI.listConversations "u1" provider_up four_conversations = (Ok cs, w') /\
    map c_uuid cs = ["c4"; "c1"] /\
    StronglySorted (fun a b => (c_updatedAt b <= c_updatedAt a)%Z) cs.
Proof.
  destruct (AssistantAI.listConversations "u1" provider_up four_conversations)
    as [[cs|e] w'] eqn:E; [|vm_compute in E; discriminate E].
  exists cs, w'. split; [reflexivity|].
  destruct (listConversations_live_recent_first "u1" provider_up four_conversations cs w' E)
    as (_ & Hsorted & _).
  split; [|exact Hsorted].
  vm_compute in E. injection E as <- _. reflexivity.
Defined.

(** *** DeleteConversation *)

Lemma Forall2_map_r {A B : Type} (P : A -> B -> Prop) (f : A -> B) (l : list A) :
  (forall x, In x l -> P x (f x)) -> Forall2 P l (map f l).
Proof.
  induction l as [|x l IH]; simpl; intros H; constructor.
  - apply H. now left.
  - apply IH. intros y Hy. apply H. now right.
Qed.

Lemma conversation_delete_inv conversationId env w b w' :
  ConversationRepository.delete_ conversationId env w = (Ok b, w') ->
  b = true /\
  messages (store w') = messages (store w) /\
  knowledge_items (store w') = knowledge_items (store w) /\
  personality (store w') = personality (store w) /\
  conversation_rows w' =
    map (fun r =>
           if String.eqb (conv_uuid r) conversationId
           then {| conv_id := conv_id r; conv_uuid := conv_uuid r;
                   creator_id := creator_id r; conv_title := conv_title r;
                   message_count := message_count r;
                   conv_created_at := conv_created_at r;
                   conv_updated_at := conv_updated_at r;
                   deleted_at := Some (Date_now env (step w)) |}
           else r)
        (conversation_rows w).
Proof.
  unfold ConversationRepository.delete_. intros H.
  apply bind_Ok in H. destruct H as (deleted & w1 & E1 & H).
  apply bind_Ok in H. destruct H as (answer & w2 & E2 & H).
  destruct answer as [[]|error]; [|discriminate].
  unfold ret in H. injection H as <- <-.
  unfold new_Date, ask in E1. injection E1 as <- <-.
  apply (update_inv conversations set_conversations) in E2; [|reflexivity].
  destruct E2 as (_ & Hstore & Hrows & _).
  unfold conversation_rows. rewrite Hrows, Hstore. simpl. auto.
Qed.

Lemma live_by_uuid_map conversationId (g : ConversationRow -> ConversationRow) s t :
  (forall r, conv_uuid (g r) = conv_uuid r) ->
  (forall r, String.eqb (conv_uuid r) conversationId = true -> deleted_at (g r) <> None) ->
  rows (conversations s) =
    map (fun r => if String.eqb (conv_uuid r) conversationId then g r else r) t ->
  ConversationRepository.live_by_uuid conversationId s = [].
Proof.
  intros Hu Hd Hrows.
  unfold ConversationRepository.live_by_uuid, ConversationRepository.by_uuid.
  rewrite Hrows. clear Hrows.
  induction t as [|r t IH]; simpl; [reflexivity|].
  destruct (String.eqb (conv_uuid r) conversationId) eqn:E.
  - rewrite Hu, E. simpl. specialize (Hd r E).
    destruct (deleted_at (g r)); [apply IH | contradiction].
  - rewrite E. apply IH.
Qed.



(** *** After deletion *)

Lemma getById_not_live conversationId env w r w' :
  ConversationRepository.live_by_uuid conversationId (store w) = [] ->
  ConversationRepository.getById conversationId env w = (r, w') ->
  store w' = store w /\
  match db_fault env (step w) with
  | None => r = Ok None
  | Some m => r = Err ("Failed to get conversation: " ++ m)
  end.
Proof.
  intros Hnone H. unfold ConversationRepository.getById, select_single, bind in H.
  destruct (db_fault env (step w)) as [m|] eqn:F.
  - rewrite (store_call_fault _ _ _ _ F) in H. simpl in H. unfold throw in H.
    injection H as <- <-. split; reflexivity.
  - rewrite (store_call_run _ _ _ F) in H. simpl in H. rewrite Hnone in H. simpl in H.
    unfold ret in H. injection H as <- <-. split; reflexivity.
Qed.

Lemma live_by_uuid_rows conversationId w w' :
  conversation_rows w' = conversation_rows w ->
  ConversationRepository.live_by_uuid conversationId (store w')
  = ConversationRepository.live_by_uuid conversationId (store w).
Proof.
  unfold conversation_rows, ConversationRepository.live_by_uuid,
    ConversationRepository.by_uuid. intros ->. reflexivity.
Qed.

Lemma truthy_or_default x :
  x <> "" -> truthy_str (Some x) = true /\ or_default (Some x) "" = x.
Proof.
  intros Hx. unfold truthy_str, or_default.
  destruct (String.eqb x "") eqn:E; [apply String.eqb_eq in E; contradiction|].
  split; reflexivity.
Qed.

Lemma resolve_not_live input conversationId env w r w' :
  conversationId <> "" ->
  in_conversationId input = Some conversationId ->
  ConversationRepository.live_by_uuid conversationId (store w) = [] ->
  AssistantAI.resolve input env w = (r, w') ->
  store w' = store w /\
  match db_fault env (step w) with
  | None => r = Err ("Conversation not found: " ++ conversationId)
  | Some m => r = Err ("Failed to get conversation: " ++ m)
  end.
Proof.
  intros Hne Hin Hnone H. unfold AssistantAI.resolve in H. rewrite Hin in H.
  destruct (truthy_or_default _ Hne) as (Ht & Hd). rewrite Ht, Hd in H. simpl in H.
  destruct (ConversationRepository.getById conversationId env w) as [c w1] eqn:E.
  destruct (getById_not_live _ _ _ _ _ Hnone E) as (Hs & Hr).
  unfold bind in H. rewrite E in H.
  destruct (db_fault env (step w)); subst c.
  - injection H as <- <-. auto.
  - unfold throw in H. injection H as <- <-. auto.
Qed.

(** X3. After a [deleteConversation] that succeeded, for an id that is
    not empty: [getConversation] of it fails, with [Conversation not found] when
    the store answers; no [listConversations] shows it; a turn sent into it
    fails without storing a message or changing a conversation; and
    [updateConversationTitle] of it fails without changing the store. *)
Theorem deleted_conversation_is_gone conversationId env w b w1 :
  conversationId <> "" ->
  AssistantAI.deleteConversation conversationId env w = (Ok b, w1) ->
  (forall r w2,
      AssistantAI.getConversation conversationId env w1 = (r, w2) ->
      store w2 = store w1 /\
      r = match db_fault env (step w1) with
          | None => Err "Conversation not found"
          | Some m => Err ("Failed to get conversation: " ++ m)
          end) /\
  (forall userId cs w2,
      AssistantAI.listConversations userId env w1 = (Ok cs, w2) ->
      ~ In conversationId (map c_uuid cs)) /\
  (forall input r w2,
      in_conversationId input = Some conversationId ->
      AssistantAI.sendMessage input env w1 = (r, w2) ->
      (exists e, r = Err e) /\
      message_rows w2 = message_rows w1 /\
      conversation_rows w2 = conversation_rows w1) /\
  (forall title r w2,
      AssistantAI.updateConversationTitle conversationId title env w1 = (r, w2) ->
      (exists e, r = Err e) /\ store w2 = store w1).
Proof.
  intros Hne Hdel. unfold AssistantAI.deleteConversation in Hdel.
  apply conversation_delete_inv in Hdel. destruct Hdel as (_ & _ & _ & _ & Hrows).
  assert (Hgone : ConversationRepository.live_by_uuid conversationId (store w1) = []).
  { eapply live_by_uuid_map; [| |exact Hrows]; intros r; simpl; [reflexivity|].
    intros _. discriminate. }
  split; [|split; [|split]].
  - intros r w2 H. unfold AssistantAI.getConversation, bind in H.
    destruct (ConversationRepository.getById conversationId env w1) as [c w3] eqn:E.
    destruct (getById_not_live _ _ _ _ _ Hgone E) as (Hs & Hr).
    destruct (db_fault env (step w1)); subst c.
    + injection H as <- <-. auto.
    + unfold throw in H. injection H as <- <-. auto.
  - intros userId cs w2 H Hin.
    unfold AssistantAI.listConversations in H.
    apply listByUser_inv in H. destruct H as (_ & Hperm & _).
    apply in_map_iff in Hin. destruct Hin as (c & Hu & Hc).
    apply (Permutation_in _ Hperm) in Hc. apply in_map_iff in Hc.
    destruct Hc as (row & <- & Hrow). simpl in Hu.
    apply filter_In in Hrow. destruct Hrow as (Hrow & Hlive).
    assert (Hl : In row (ConversationRepository.live_by_uuid conversationId (store w1))).
    { unfold ConversationRepository.live_by_uuid, ConversationRepository.by_uuid.
      apply filter_In. split.
      - apply filter_In. split; [exact Hrow | rewrite Hu; apply String.eqb_refl].
      - unfold owned_live in Hlive. apply andb_prop in Hlive. apply Hlive. }
    rewrite Hgone in Hl. exact Hl.
  - intros input r w2 Hin H. unfold AssistantAI.sendMessage in H.
    destruct init_keeps_chat as (Kc & Km).
    apply bind_inv in H. destruct H as [(u & w3 & Einit & H) | (e & H & ->)].
    + pose proof (Kc _ _ _ _ Einit) as Hc3. pose proof (Km _ _ _ _ Einit) as Hm3.
      assert (Hgone3 : ConversationRepository.live_by_uuid conversationId (store w3) = []).
      { rewrite (live_by_uuid_rows _ _ _ Hc3). exact Hgone. }
      apply bind_inv in H. destruct H as [(cid & w4 & Eres & H) | (e & H & ->)].
      * destruct (resolve_not_live _ _ _ _ _ _ Hne Hin Hgone3 Eres) as (_ & Hr).
        destruct (db_fault env (step w3)); discriminate.
      * destruct (resolve_not_live _ _ _ _ _ _ Hne Hin Hgone3 H) as (Hs & _).
        split; [eexists; reflexivity|].
        unfold message_rows, conversation_rows in *. rewrite Hs. auto.
    + split; [eexists; reflexivity|].
      split; [exact (Km _ _ _ _ H) | exact (Kc _ _ _ _ H)].
  - intros title r w2 H. unfold AssistantAI.updateConversationTitle, bind in H.
    destruct (ConversationRepository.getById conversationId env w1) as [c w3] eqn:E.
    destruct (getById_not_live _ _ _ _ _ Hgone E) as (Hs & Hr).
    destruct (db_fault env (step w1)); subst c.
    + injection H as <- <-. split; [eexists; reflexivity | assumption].
    + unfold throw in H. injection H as <- <-. split; [eexists; reflexivity | assumption].
Qed.

(** X3 on [four_conversations]: after [c1] is deleted it is not found and
    not listed for its user. *)
Lemma deleted_conversation_is_gone_witness :
  exists w1,
    AssistantAI.deleteConversation "c1" provider_up four_conversations = (Ok true, w1) /\
    fst (AssistantAI.getConversation "c1" provider_up w1) = Err "Conversation not found" /\
    ~ In "c1" (map c_uuid match fst (AssistantAI.listConversations "u1" provider_up w1) with
                          | Ok cs => cs
                          | Err _ => []
                          end).
Proof.
  destruct (AssistantAI.deleteConversation "c1" provider_up four_conversations)
    as [[b|e] w1] eqn:E; [|vm_compute in E; discriminate E].
  assert (Hne : "c1" <> "") by discriminate.
  destruct (deleted_conversation_is_gone "c1" provider_up four_conversations b w1 Hne E)
    as (Hget & Hlist & _ & _).
  assert (Hb : b = true) by (vm_compute in E; injection E as <- _; reflexivity).
  subst b. exists w1. split; [reflexivity|]. split.
  - destruct (AssistantAI.getConversation "c1" provider_up w1) as [r w2] eqn:Eg.
    destruct (Hget r w2 eq_refl) as (_ & ->). reflexivity.
  - destruct (AssistantAI.listConversations "u1" provider_up w1) as [[cs|e] w2] eqn:El.
    + exact (Hlist "u1" cs w2 El).
    + intros [].
Defined.

(** *** Run lemmas *)

Lemma select_single_run {R : Type} (q : Store -> list R) env w :
  db_fault env (step w) = None ->
  select_single q env w = (Ok (single (q (store w))), set_step (S (step w)) w).
Proof. intros H. unfold select_single. rewrite (store_call_run _ _ _ H). reflexivity. Qed.

Lemma select_run {R : Type} (q : Store -> list R) env w :
  db_fault env (step w) = None ->
  select q env w = (Ok (DbData (q (store w))), set_step (S (step w)) w).
Proof. intros H. unfold select. rewrite (store_call_run _ _ _ H). reflexivity. Qed.

Lemma StronglySorted_split {A : Type} (R : A -> A -> Prop) (n : nat) (l : list A) :
  StronglySorted R l ->
  forall x y, In x (firstn n l) -> In y (skipn n l) -> R x y.
Proof.
  intros H. revert n. induction H as [|a l Hs IH Hall]; intros n x y Hx Hy.
  - destruct n; destruct Hx.
  - destruct n as [|n]; [destruct Hx|]. simpl in Hx, Hy.
    destruct Hx as [<-|Hx].
    + rewrite Forall_forall in Hall. apply Hall.
      rewrite <- (firstn_skipn n l). apply in_or_app. now right.
    + apply (IH n); assumption.
Qed.

(** *** UpdateConversationTitle *)

Lemma getById_run conversationId env w :
  ConversationRepository.getById conversationId env w =
  (match db_fault env (step w) with
   | Some m => Err ("Failed to get conversation: " ++ m)
   | None =>
       match ConversationRepository.live_by_uuid conversationId (store w) with
       | [row] => Ok (Some (ConversationRepository.mapRow row))
       | _ => Ok None
       end
   end, set_step (S (step w)) w).
Proof.
  unfold ConversationRepository.getById, select_single, bind.
  destruct (db_fault env (step w)) as [m|] eqn:F.
  - rewrite (store_call_fault _ _ _ _ F). reflexivity.
  - rewrite (store_call_run _ _ _ F). simpl.
    destruct (ConversationRepository.live_by_uuid conversationId (store w)) as [|x [|y l]];
      reflexivity.
Qed.

Lemma updateTitle_run conversationId title env w :
  ConversationRepository.updateTitle conversationId title env w =
  match db_fault env (S (step w)) with
  | Some m => (Err ("Failed to update conversation title: " ++ m),
               set_step (S (S (step w))) w)
  | None =>
      (Ok tt,
       set_store
         (set_conversations
            {| rows :=
                 map (fun r =>
                        if String.eqb (conv_uuid r) conversationId
                        then {| conv_id := conv_id r; conv_uuid := conv_uuid r;
                                creator_id := creator_id r; conv_title := title;
                                message_count := message_count r;
                                conv_created_at := conv_created_at r;
                                conv_updated_at := Date_now env (step w);
                                deleted_at := deleted_at r |}
                        else r)
                     (rows (conversations (store w)));
               next_id := next_id (conversations (store w)) |}
            (store w))
         (set_step (S (S (step w))) w))
  end.
Proof.
  unfold ConversationRepository.updateTitle, update, new_Date, ask, bind.
  cbv beta iota zeta.
  change (step (set_step (S (step w)) w)) with (S (step w)).
  destruct (db_fault env (S (step w))) as [m|] eqn:F.
  - rewrite store_call_fault with (m := m) by exact F. reflexivity.
  - rewrite store_call_run by exact F. reflexivity.
Qed.

(** X4. [updateConversationTitle] never touches a message. When it
    succeeds there is exactly one conversation of that uuid that is not
    deleted, and the rows of that uuid get the new title and the time of the
    update as [updated_at], every other column and every other row staying as
    it was. When it fails the store is as it was; if the store answered the
    first request the error is [Conversation not found: <id>], no single live
    conversation carrying the uuid, or [Failed to update conversation title:
    ...]. *)
Theorem updateConversationTitle_effect conversationId title env w r w' :
  AssistantAI.updateConversationTitle conversationId title env w = (r, w') ->
  message_rows w' = message_rows w /\
  match r with
  | Ok _ =>
      (exists row,
          ConversationRepository.live_by_uuid conversationId (store w) = [row]) /\
      Forall2 (fun old new =>
                 conv_id new = conv_id old /\ conv_uuid new = conv_uuid old /\
                 creator_id new = creator_id old /\
                 message_count new = message_count old /\
                 conv_created_at new = conv_created_at old /\
                 deleted_at new = deleted_at old /\
                 if String.eqb (conv_uuid old) conversationId
                 then conv_title new = title /\
                      conv_updated_at new = Date_now env (S (step w))
                 else conv_title new = conv_title old /\
                      conv_updated_at new = conv_updated_at old)
              (conversation_rows w) (conversation_rows w')
  | Err e =>
      store w' = store w /\
      (db_fault env (step w) = None ->
       (e = ("Conversation not found: " ++ conversationId)%string /\
        forall row, ConversationRepository.live_by_uuid conversationId (store w) <> [row])
       \/ exists m, e = ("Failed to update conversation title: " ++ m)%string)
  end.
Proof.
  unfold AssistantAI.updateConversationTitle, bind. rewrite getById_run.
  destruct (db_fault env (step w)) as [m|] eqn:F.
  - intros H. injection H as <- <-. split; [reflexivity|]. split; [reflexivity|].
    intros; discriminate.
  - destruct (ConversationRepository.live_by_uuid conversationId (store w))
      as [|row [|row' l]] eqn:L.
    + intros H. unfold throw in H. injection H as <- <-.
      split; [reflexivity|]. split; [reflexivity|]. intros _. left.
      split; [reflexivity | discriminate].
    + rewrite updateTitle_run. simpl.
      destruct (db_fault env (S (S (step w)))) as [m|] eqn:F2;
        intros H; injection H as <- <-.
      * split; [reflexivity|]. split; [reflexivity|].
        intros _. right. eexists. reflexivity.
      * split; [reflexivity|]. split; [exists row; reflexivity|].
        unfold conversation_rows. simpl.
        apply Forall2_map_r. intros r _.
        destruct (String.eqb (conv_uuid r) conversationId); simpl; repeat split.
    + intros H. unfold throw in H. injection H as <- <-.
      split; [reflexivity|]. split; [reflexivity|]. intros _. left.
      split; [reflexivity | discriminate].
Qed.

(** X4 on [four_conversations]: renaming [c1] changes its title and no
    other. *)
Lemma updateConversationTitle_effect_witness :
  exists w',
    AssistantAI.updateConversationTitle "c1" "Refunds" provider_up four_conversations
    = (Ok tt, w') /\
    message_rows w' = message_rows four_conversations /\
    map conv_title (conversation_rows w') = ["Refunds"; "Chat"; "Chat"; "Chat"].
Proof.
  destruct (AssistantAI.updateConversationTitle "c1" "Refunds" provider_up four_conversations)
    as [[[]|e] w'] eqn:E; [|vm_compute in E; discriminate E].
  destruct (updateConversationTitle_effect "c1" "Refunds" provider_up four_conversations
              (Ok tt) w' E) as (Hm & _).
  exists w'. split; [reflexivity|]. split; [exact Hm|].
  vm_compute in E. injection E as <-. reflexivity.
Defined.

(** *** GetConversation *)

Lemma listByConversation_run conversationId limit_ env w conv :
  answered env (step w) 2 ->
  ConversationRepository.by_uuid conversationId (store w) = [conv] ->
  MessageRepository.listByConversation conversationId limit_ env w =
  (Ok (map (fun row => MessageRepository.mapRow row conversationId)
           (firstn limit_
              (ascending msg_created_at
                 (MessageRepository.of_conversation (conv_id conv) (store w))))),
   set_step (S (S (step w))) w).
Proof.
  intros Ha Hconv. unfold MessageRepository.listByConversation, bind.
  rewrite select_single_run by (apply Ha; lia). rewrite Hconv. simpl.
  rewrite select_run by (apply Ha; simpl; lia). reflexivity.
Qed.

Lemma live_is_by_uuid conversationId s row :
  ConversationRepository.live_by_uuid conversationId s = [row] ->
  In row (ConversationRepository.by_uuid conversationId s) /\ deleted_at row = None.
Proof.
  unfold ConversationRepository.live_by_uuid. intros H.
  assert (Hin : In row (filter (fun r => match deleted_at r with None => true | Some _ => false end)
                               (ConversationRepository.by_uuid conversationId s)))
    by (rewrite H; now left).
  apply filter_In in Hin. destruct Hin as (Hin & Hd).
  split; [assumption|]. destruct (deleted_at row); [discriminate | reflexivity].
Qed.

(** X5. A [getConversation] that succeeds changes nothing in the store.
    It returns the single conversation of that uuid, which is not deleted, and
    at most 50 of its messages, in ascending order of creation, all of them
    stored messages of that conversation; a message of the conversation that
    is left out was created no earlier than any of the 50 returned, so that a
    longer conversation shows its oldest 50 messages. *)
Theorem getConversation_oldest_fifty conversationId env w out w' :
  AssistantAI.getConversation conversationId env w = (Ok out, w') ->
  store w' = store w /\
  exists conv,
    ConversationRepository.by_uuid conversationId (store w) = [conv] /\
    deleted_at conv = None /\
    gc_meta out = ConversationRepository.mapRow conv /\
    List.length (gc_messages out) <= 50 /\
    StronglySorted (fun a b => (m_createdAt a <= m_createdAt b)%Z) (gc_messages out) /\
    (forall m, In m (gc_messages out) ->
               m_conversationId m = conversationId /\
               exists row, In row (message_rows w) /\ conversation_id row = conv_id conv /\
                           m = MessageRepository.mapRow row conversationId) /\
    (forall row, In row (message_rows w) -> conversation_id row = conv_id conv ->
                 In (MessageRepository.mapRow row conversationId) (gc_messages out) \/
                 (List.length (gc_messages out) = 50 /\
                  forall m, In m (gc_messages out) ->
                            (m_createdAt m <= msg_created_at row)%Z)).
Proof.
  unfold AssistantAI.getConversation, bind. rewrite getById_run.
  destruct (db_fault env (step w)) as [m|] eqn:F; [discriminate|].
  destruct (ConversationRepository.live_by_uuid conversationId (store w))
    as [|row [|row' l]] eqn:L; try discriminate.
  destruct (MessageRepository.listByConversation conversationId 50 env
              (set_step (S (step w)) w)) as [[msgs|e] w2] eqn:E; [|discriminate].
  intros H. unfold ret in H. injection H as <- <-.
  apply listByConversation_oldest in E. destruct E as (conv & Hconv & Hmsgs & Hs).
  apply single_inv in Hconv.
  change (store (set_step (S (step w)) w)) with (store w) in *.
  split; [exact Hs|]. exists conv.
  destruct (live_is_by_uuid _ _ _ L) as (Hin & Hdel).
  rewrite Hconv in Hin. destruct Hin as [->|[]].
  split; [exact Hconv|]. split; [exact Hdel|]. split; [reflexivity|]. simpl.
  set (sorted := ascending msg_created_at
                   (MessageRepository.of_conversation (conv_id row) (store w))) in *.
  assert (Hperm : Permutation sorted
                    (MessageRepository.of_conversation (conv_id row) (store w)))
    by apply sort_by_perm.
  assert (Hsorted : StronglySorted (fun a b => (msg_created_at a <= msg_created_at b)%Z) sorted)
    by apply ascending_sorted.
  subst msgs. split; [|split; [|split]].
  - rewrite length_map, length_firstn. lia.
  - apply StronglySorted_map. apply StronglySorted_firstn. exact Hsorted.
  - intros m Hm. apply in_map_iff in Hm. destruct Hm as (r & <- & Hr).
    split; [reflexivity|]. exists r.
    apply In_firstn in Hr. apply (Permutation_in _ Hperm) in Hr.
    apply filter_In in Hr. destruct Hr as (Hr & Hc). apply Z.eqb_eq in Hc.
    repeat split; assumption.
  - intros r Hr Hc.
    assert (Hin : In r sorted).
    { apply (Permutation_in _ (Permutation_sym Hperm)). apply filter_In.
      split; [exact Hr | apply Z.eqb_eq; exact Hc]. }
    rewrite <- (firstn_skipn 50 sorted) in Hin. apply in_app_or in Hin.
    destruct Hin as [Hin|Hin];
      [left; exact (in_map (fun x => MessageRepository.mapRow x conversationId) _ _ Hin)|].
    right. split.
    + rewrite length_map, length_firstn.
      assert (50 < List.length sorted); [|lia].
      destruct (le_lt_dec (List.length sorted) 50) as [Hle|Hlt]; [|exact Hlt].
      rewrite skipn_all2 in Hin by exact Hle. destruct Hin.
    + intros m Hm. apply in_map_iff in Hm. destruct Hm as (x & <- & Hx).
      exact (StronglySorted_split _ 50 sorted Hsorted x r Hx Hin).
Qed.

(** X5 on [four_conversations]: [c1] is returned with its two messages,
    the older first. *)
Lemma getConversation_oldest_fifty_witness :
  exists out w',
    AssistantAI.getConversation "c1" provider_up four_conversations = (Ok out, w') /\
    store w' = store four_conversations /\
    map m_uuid (gc_messages out) = ["m1"; "m2"].
Proof.
  destruct (AssistantAI.getConversation "c1" provider_up four_conversations)
    as [[out|e] w'] eqn:E; [|vm_compute in E; discriminate E].
  destruct (getConversation_oldest_fifty "c1" provider_up four_conversations out w' E)
    as (Hs & _).
  exists out, w'. split; [reflexivity|]. split; [exact Hs|].
  vm_compute in E. injection E as <- _. reflexivity.
Defined.

(** *** CreateConversation, then getConversation *)

Lemma conversation_create_run userId title env w :
  let t := conversations (store w) in
  let row := {| conv_id := next_id t; conv_uuid := gen_random_uuid env (S (S (step w)));
                creator_id := userId; conv_title := title; message_count := 0;
                conv_created_at := Date_now env (step w);
                conv_updated_at := Date_now env (S (step w));
                deleted_at := None |} in
  ConversationRepository.create userId title env w =
  match db_fault env (S (S (step w))) with
  | Some m => (Err ("Failed to create conversation: " ++ m),
               set_step (S (S (S (step w)))) w)
  | None =>
      if existsb (fun r => Z.eqb (conv_id r) (conv_id row)
                           || String.eqb (conv_uuid r) (conv_uuid row)) (rows t)
      then (Err "Failed to create conversation: duplicate key value violates unique constraint",
            set_store (set_conversations {| rows := rows t; next_id := next_id t + 1 |}
                                         (store w))
                      (set_step (S (S (S (step w)))) w))
      else (Ok (ConversationRepository.mapRow row),
            set_store (set_conversations
                         {| rows := rows t ++ [row]; next_id := next_id t + 1 |}
                         (store w))
                      (set_step (S (S (S (step w)))) w))
  end.
Proof.
  intros t row.
  unfold ConversationRepository.create, insert, new_Date, ask, bind.
  cbv beta iota zeta.
  change (step (set_step (S (S (step w))) (set_step (S (step w)) w))) with (S (S (step w))).
  destruct (db_fault env (S (S (step w)))) as [m|] eqn:F.
  - rewrite store_call_fault with (m := m) by exact F. reflexivity.
  - rewrite store_call_run by exact F. cbv beta iota zeta.
    change (store (set_step _ (set_step _ w))) with (store w).
    change (step (set_step (S (S (step w))) (set_step (S (step w)) w))) with (S (S (step w))).
    fold t. fold row.
    destruct (existsb _ (rows t)); reflexivity.
Qed.

Lemma existsb_false_fresh {R : Type} (p : R -> bool) (l : list R) :
  existsb p l = false -> forall r, In r l -> p r = false.
Proof.
  intros H r Hr. destruct (p r) eqn:E; [|reflexivity].
  assert (existsb p l = true) by (apply existsb_exists; exists r; auto). congruence.
Qed.

(** X6. When the store answers the next three requests, the conversation
    that [createConversation] has just created is returned by [getConversation]
    under the id returned: with the given user as creator, the given title or
    [New Conversation], a message count of 0, the time of the creation, and not
    deleted; and reading it changes nothing in the store. *)
Theorem createConversation_then_getConversation userId title env w conversationId w1 :
  AssistantAI.createConversation userId title env w = (Ok conversationId, w1) ->
  answered env (step w1) 3 ->
  exists out w2,
    AssistantAI.getConversation conversationId env w1 = (Ok out, w2) /\
    c_uuid (gc_meta out) = conversationId /\
    c_creatorId (gc_meta out) = userId /\
    c_title (gc_meta out) = or_default title "New Conversation" /\
    c_messageCount (gc_meta out) = 0%Z /\
    c_createdAt (gc_meta out) = Date_now env (step w) /\
    c_deletedAt (gc_meta out) = None /\
    store w2 = store w1.
Proof.
  unfold AssistantAI.createConversation, bind. rewrite conversation_create_run.
  cbv zeta.
  destruct (db_fault env (S (S (step w)))) as [m|]; [discriminate|].
  match goal with |- context [existsb ?p ?l] => destruct (existsb p l) eqn:Ex end;
    [discriminate|].
  intros H Ha. unfold ret in H. injection H as <- <-.
  set (row := {| conv_id := next_id (conversations (store w));
                 conv_uuid := gen_random_uuid env (S (S (step w)));
                 creator_id := userId;
                 conv_title := or_default title "New Conversation";
                 message_count := 0;
                 conv_created_at := Date_now env (step w);
                 conv_updated_at := Date_now env (S (step w));
                 deleted_at := None |}) in *.
  set (w1 := set_store _ _) in *.
  assert (Hby : ConversationRepository.by_uuid (conv_uuid row) (store w1) = [row]).
  { unfold ConversationRepository.by_uuid, w1. simpl rows.
    apply filter_fresh; [|apply String.eqb_refl].
    intros r Hr. pose proof (existsb_false_fresh _ _ Ex r Hr) as Hf.
    apply orb_false_elim in Hf. apply Hf. }
  assert (Hlive : ConversationRepository.live_by_uuid (conv_uuid row) (store w1) = [row]).
  { unfold ConversationRepository.live_by_uuid. rewrite Hby. reflexivity. }
  change (gen_random_uuid env (S (S (step w)))) with (conv_uuid row).
  unfold AssistantAI.getConversation, bind. rewrite getById_run.
  rewrite (Ha (step w1)) by lia. rewrite Hlive.
  rewrite (listByConversation_run (conv_uuid row) 50 env _ row).
  - eexists. eexists. split; [reflexivity|]. simpl. repeat split.
  - intros n Hn. apply Ha. simpl in Hn |- *. lia.
  - exact Hby.
Qed.

(** X6 on [four_conversations]: a conversation created for [u9] without
    a title is read back as [New Conversation] with no message. *)
Lemma createConversation_then_getConversation_witness :
  exists conversationId w1 out w2,
    AssistantAI.createConversation "u9" None provider_up four_conversations
    = (Ok conversationId, w1) /\
    AssistantAI.getConversation conversationId provider_up w1 = (Ok out, w2) /\
    c_creatorId (gc_meta out) = "u9" /\
    c_title (gc_meta out) = "New Conversation" /\
    c_messageCount (gc_meta out) = 0%Z.
Proof.
  destruct (AssistantAI.createConversation "u9" None provider_up four_conversations)
    as [[conversationId|e] w1] eqn:E; [|vm_compute in E; discriminate E].
  destruct (createConversation_then_getConversation "u9" None provider_up four_conversations
              conversationId w1 E (provider_up_answers (step w1) 3))
    as (out & w2 & Hget & _ & Hc & Ht & Hn & _).
  exists conversationId, w1, out, w2. repeat split; assumption.
Defined.

(** *** MessageRepository *)

Lemma keeps_conversation_rows_message_create conversationId type content parentMessageId metadata :
  keeps conversation_rows
        (MessageRepository.create conversationId type content parentMessageId metadata).
Proof.
  unfold MessageRepository.create. keeps_all.
Qed.

Lemma message_create_unknown conversationId type content parentMessageId metadata env w :
  (forall conv, ConversationRepository.by_uuid conversationId (store w) <> [conv]) ->
  exists reason,
    MessageRepository.create conversationId type content parentMessageId metadata env w
    = (Err ("Conversation not found: " ++ reason), set_step (S (step w)) w).
Proof.
  intros Hnone. unfold MessageRepository.create, select_single, bind.
  destruct (db_fault env (step w)) as [m|] eqn:F.
  - rewrite (store_call_fault _ _ _ _ F). eexists. reflexivity.
  - rewrite (store_call_run _ _ _ F). cbv beta iota zeta. simpl fst. simpl snd.
    destruct (ConversationRepository.by_uuid conversationId (store w)) as [|x [|y l]] eqn:E;
      try (eexists; reflexivity).
    elim (Hnone x). reflexivity.
Qed.

(** X7. [MessageRepository.create] changes no conversation row. When it
    succeeds it has added exactly one message row, after the others and with a
    uuid no other message has, under the single conversation of the given
    uuid, and returns that row with the given type and content, the status
    [completed] and the given metadata or [{}]. When it fails no message row
    is added, and if no single conversation carries the uuid the error is
    [Conversation not found: ...]. *)
Theorem message_create_appends_or_nothing
        conversationId type content parentMessageId metadata env w r w' :
  MessageRepository.create conversationId type content parentMessageId metadata env w
  = (r, w') ->
  conversation_rows w' = conversation_rows w /\
  match r with
  | Ok m =>
      exists conv row,
        ConversationRepository.by_uuid conversationId (store w) = [conv] /\
        message_rows w' = message_rows w ++ [row] /\
        conversation_id row = conv_id conv /\
        (forall old, In old (message_rows w) -> msg_uuid old <> msg_uuid row) /\
        m = MessageRepository.mapRow row conversationId /\
        m_type m = type /\ m_content m = content /\ m_status m = completed /\
        m_metadata m = match metadata with Some given => given | None => [] end
  | Err e =>
      message_rows w' = message_rows w /\
      ((forall conv, ConversationRepository.by_uuid conversationId (store w) <> [conv]) ->
       exists reason, e = ("Conversation not found: " ++ reason)%string)
  end.
Proof.
  intros H. split.
  - exact (keeps_conversation_rows_message_create _ _ _ _ _ _ _ _ _ H).
  - destruct r as [m|e].
    + pose proof H as Hmeta.
      apply message_create_inv in H.
      destruct H as (conv & row & Hconv & Hrows & _ & Hm & Hcid & Ht & Hc & Hst & Hfresh & _).
      apply single_inv in Hconv.
      exists conv, row. repeat split; try assumption.
      * subst m. exact Ht.
      * subst m. exact Hc.
      * subst m. exact Hst.
      * clear - Hmeta Hm. subst m.
        unfold MessageRepository.create in Hmeta.
        apply bind_Ok in Hmeta. destruct Hmeta as (c & w1 & _ & H).
        destruct c as [convData|]; [|discriminate].
        apply bind_Ok in H. destruct H as (parentId & w2 & _ & H).
        apply bind_Ok in H. destruct H as (created_at & w3 & _ & H).
        apply bind_Ok in H. destruct H as (updated_at & w4 & _ & H).
        apply bind_Ok in H. destruct H as (answer & w5 & E & H).
        destruct answer as [data|]; [|discriminate].
        unfold ret in H.
        assert (Hu : MessageRepository.mapRow data conversationId
                     = MessageRepository.mapRow row conversationId) by congruence.
        apply (insert_inv messages set_messages) in E; [|reflexivity].
        destruct E as (Hrow & _).
        apply (f_equal m_metadata) in Hu. rewrite <- Hu, Hrow. reflexivity.
    + split; [exact (message_create_err _ _ _ _ _ _ _ _ _ H)|].
      intros Hnone.
      destruct (message_create_unknown conversationId type content parentMessageId
                  metadata env w Hnone) as (reason & E).
      rewrite E in H. injection H as <- _. exists reason. reflexivity.
Qed.

(** X7 on [four_conversations]: a message created in [c1] comes third,
    and for an unknown conversation the call fails. *)
Lemma message_create_appends_or_nothing_witness :
  exists m w',
    MessageRepository.create "c1" user "q2" None None provider_up four_conversations
    = (Ok m, w') /\
    conversation_rows w' = conversation_rows four_conversations /\
    map msg_uuid (message_rows w') = ["m1"; "m2"; m_uuid m] /\
    fst (MessageRepository.create "nowhere" user "q2" None None provider_up four_conversations)
    = Err "Conversation not found: JSON object requested, multiple (or no) rows returned".
Proof.
  destruct (MessageRepository.create "c1" user "q2" None None provider_up four_conversations)
    as [[m|e] w'] eqn:E; [|vm_compute in E; discriminate E].
  destruct (message_create_appends_or_nothing "c1" user "q2" None None provider_up
              four_conversations (Ok m) w' E) as (Hc & _).
  exists m, w'. split; [reflexivity|]. split; [exact Hc|].
  vm_compute in E. injection E as <- <-. split; reflexivity.
Defined.

Lemma filter_key_unique {R : Type} (key : R -> Z) (l : list R) (x : R) :
  NoDup (map key l) -> In x l ->
  filter (fun c => Z.eqb (key c) (key x)) l = [x].
Proof.
  induction l as [|y l IH]; simpl; intros Hnd Hin; [destruct Hin|].
  inversion Hnd as [|k ks Hnot Hnd']; subst.
  destruct Hin as [->|Hin].
  - rewrite Z.eqb_refl. f_equal.
    apply filter_none. intros r Hr. apply Z.eqb_neq. intros E.
    apply Hnot. rewrite <- E. apply in_map. exact Hr.
  - destruct (Z.eqb (key y) (key x)) eqn:E.
    + apply Z.eqb_eq in E. exfalso. apply Hnot. rewrite E. apply in_map. exact Hin.
    + apply IH; assumption.
Qed.

(** X8. With conversation keys that are unique, the message that
    [MessageRepository.create] has just returned is what
    [MessageRepository.getById] returns under its uuid when the store
    answers. *)
Theorem message_create_then_getById
        conversationId type content parentMessageId metadata env w m w' :
  NoDup (map conv_id (conversation_rows w)) ->
  MessageRepository.create conversationId type content parentMessageId metadata env w
  = (Ok m, w') ->
  db_fault env (step w') = None ->
  MessageRepository.getById (m_uuid m) env w' = (Ok (Some m), set_step (S (step w')) w').
Proof.
  intros Hkeys H F.
  apply message_create_inv in H.
  destruct H as (conv & row & Hconv & Hrows & Hcs & Hm & Hcid & _ & _ & _ & Hfresh & _).
  apply single_inv in Hconv.
  assert (Hin : In conv (ConversationRepository.by_uuid conversationId (store w)))
    by (rewrite Hconv; now left).
  unfold ConversationRepository.by_uuid in Hin. apply filter_In in Hin.
  destruct Hin as (Hin & Hu). apply String.eqb_eq in Hu.
  unfold MessageRepository.getById, bind. rewrite select_single_run by exact F.
  assert (Hby : MessageRepository.by_uuid (m_uuid m) (store w') = [row]).
  { subst m. unfold MessageRepository.by_uuid. simpl m_uuid.
    unfold message_rows in Hrows. rewrite Hrows.
    apply filter_fresh; [|apply String.eqb_refl].
    intros r Hr. apply String.eqb_neq. apply Hfresh. exact Hr. }
  unfold MessageRepository.joined_by_uuid. rewrite Hby. cbn [flat_map]. cbv beta.
  rewrite app_nil_r, Hcs, Hcid.
  change (rows (conversations (store w))) with (conversation_rows w).
  rewrite (filter_key_unique conv_id _ conv Hkeys Hin). simpl.
  subst m. rewrite Hu. reflexivity.
Qed.

(** X8 on [four_conversations]: a message created in [c1] is read back
    as it was returned. *)
Lemma message_create_then_getById_witness :
  exists m w',
    MessageRepository.create "c1" user "q2" None None provider_up four_conversations
    = (Ok m, w') /\
    MessageRepository.getById (m_uuid m) provider_up w'
    = (Ok (Some m), set_step (S (step w')) w').
Proof.
  destruct (MessageRepository.create "c1" user "q2" None None provider_up four_conversations)
    as [[m|e] w'] eqn:E; [|vm_compute in E; discriminate E].
  exists m, w'. split; [reflexivity|].
  apply (message_create_then_getById "c1" user "q2" None None provider_up four_conversations
           m w'); [|exact E|reflexivity].
  vm_compute. repeat constructor; simpl; intuition discriminate.
Defined.

(* ------------------------------------------------------------------ *)
(** ** Knowledge items and search *)
(* ------------------------------------------------------------------ *)

(** *** KnowledgeRepository.create / getById *)

Lemma knowledge_create_inv item embedding_ env w uuid w' :
  KnowledgeRepository.create item embedding_ env w = (Ok uuid, w') ->
  exists row,
    knowledge_rows w' = knowledge_rows w ++ [row] /\
    (forall r, In r (knowledge_rows w) -> know_uuid r <> know_uuid row) /\
    know_uuid row = uuid /\
    know_title row = ki_title item /\
    know_description row = ki_description item /\
    know_type row = ki_type item /\
    know_content row = ki_content item /\
    file_url row = ki_fileUrl item /\
    file_size row = ki_fileSize item /\
    file_type row = ki_fileType item /\
    know_metadata row = match ki_metadata item with Some m => m | None => [] end /\
    created_by row = ki_createdBy item /\
    know_created_at row = Date_now env (step w) /\
    know_updated_at row = Date_now env (S (step w)).
Proof.
  unfold KnowledgeRepository.create. intros H.
  unfold bind at 1 in H. unfold new_Date, ask in H. cbv beta iota zeta in H.
  unfold bind at 1 in H. cbv beta iota zeta in H.
  change (step (set_step (S (step w)) w)) with (S (step w)) in H.
  set (w2 := set_step (S (S (step w))) (set_step (S (step w)) w)) in *.
  apply bind_Ok in H. destruct H as (parent & w3 & E3 & H).
  apply bind_Ok in H. destruct H as (processed & w4 & E4 & H).
  apply bind_Ok in H. destruct H as (answer & w5 & E5 & H).
  destruct answer as [data|error]; [|discriminate].
  injection H as <- <-.
  apply (insert_inv knowledge_items set_knowledge_items) in E5; [|reflexivity].
  destruct E5 as (Hrow & Hrows & _ & Hfresh & _).
  use_keeps knowledge_rows E3. use_keeps knowledge_rows E4.
  assert (K2 : knowledge_rows w2 = knowledge_rows w) by reflexivity.
  exists data. unfold knowledge_rows in *. rewrite Hrows, K0, K, K2.
  split; [reflexivity|]. split.
  - intros r Hr. apply Hfresh. rewrite K0, K, K2. exact Hr.
  - rewrite Hrow. simpl. repeat split; reflexivity.
Qed.

(** X9. When the store answers, the knowledge item that [createItem] has
    just created is returned by [KnowledgeRepository.getById] under the uuid
    returned, with the title, description, type, content, file fields and
    creator of the input and its metadata or [{}]. *)
Theorem createItem_then_getById item env w uuid w' :
  createItem item env w = (Ok uuid, w') ->
  db_fault env (step w') = None ->
  exists k,
    KnowledgeRepository.getById uuid env w' = (Ok (Some k), set_step (S (step w')) w') /\
    k_uuid k = uuid /\
    k_title k = ki_title item /\
    k_description k = ki_description item /\
    k_type k = ki_type item /\
    k_content k = ki_content item /\
    k_fileUrl k = ki_fileUrl item /\
    k_fileSize k = ki_fileSize item /\
    k_fileType k = ki_fileType item /\
    k_metadata k = match ki_metadata item with Some m => m | None => [] end /\
    k_createdBy k = ki_createdBy item.
Proof.
  intros H F. unfold createItem in H.
  apply bind_Ok in H. destruct H as (emb & w1 & E1 & H).
  apply knowledge_create_inv in H.
  destruct H as (row & Hrows & Hfresh & Hu & Ht & Hd & Hty & Hc & Hfu & Hfs & Hft & Hmd & Hcb & _).
  exists (KnowledgeRepository.mapRow row).
  split; [|simpl; repeat split; assumption].
  unfold KnowledgeRepository.getById, bind. rewrite select_single_run by exact F.
  assert (Hby : KnowledgeRepository.by_uuid uuid (store w') = [row]).
  { unfold KnowledgeRepository.by_uuid. unfold knowledge_rows in Hrows. rewrite Hrows.
    apply filter_fresh.
    - intros r Hr. apply String.eqb_neq. rewrite <- Hu. apply Hfresh. exact Hr.
    - rewrite Hu. apply String.eqb_refl. }
  rewrite Hby. reflexivity.
Qed.

(** X9 on an empty store: the url item created is read back with its
    title and type. *)
Lemma createItem_then_getById_witness :
  exists uuid w' k,
    createItem url_item provider_up cold_start = (Ok uuid, w') /\
    KnowledgeRepository.getById uuid provider_up w' = (Ok (Some k), set_step (S (step w')) w') /\
    k_title k = "Pricing page" /\ k_type k = url.
Proof.
  destruct (createItem url_item provider_up cold_start) as [[uuid|e] w'] eqn:E;
    [|vm_compute in E; discriminate E].
  destruct (createItem_then_getById url_item provider_up cold_start uuid w' E eq_refl)
    as (k & Hget & _ & Ht & _ & Hty & _).
  exists uuid, w', k. repeat split; assumption.
Defined.

(** *** Semantic search: what the results are *)

Lemma score_items_results env queryEmbedding threshold data :
  forall acc w results w',
    KnowledgeRepository.score_items queryEmbedding threshold data acc env w
    = (Ok results, w') ->
    exists added,
      results = acc ++ added /\
      List.length added <= List.length data /\
      forall r, In r added ->
        exists item ys,
          In item data /\ stored_vector env item = Some ys /\
          r = KnowledgeRepository.toResult item (Similarity.cosine queryEmbedding ys) /\
          PrimFloat.leb threshold (sr_score r) = true.
Proof.
  induction data as [|item rest IH]; intros acc w results w' H.
  - simpl in H. unfold ret in H. injection H as <- _.
    exists []. rewrite app_nil_r. split; [reflexivity|]. split; [simpl; lia|].
    intros r [].
  - assert (Hskip : forall added,
               results = acc ++ added /\
               List.length added <= List.length rest /\
               (forall r, In r added ->
                  exists item0 ys,
                    In item0 rest /\ stored_vector env item0 = Some ys /\
                    r = KnowledgeRepository.toResult item0
                          (Similarity.cosine queryEmbedding ys) /\
                    PrimFloat.leb threshold (sr_score r) = true) ->
               exists added0,
                 results = acc ++ added0 /\
                 List.length added0 <= List.length (item :: rest) /\
                 forall r, In r added0 ->
                   exists item0 ys,
                     In item0 (item :: rest) /\ stored_vector env item0 = Some ys /\
                     r = KnowledgeRepository.toResult item0
                           (Similarity.cosine queryEmbedding ys) /\
                     PrimFloat.leb threshold (sr_score r) = true).
    { intros added (Hres & Hlen & Hall). exists added.
      split; [assumption|]. split; [simpl; lia|].
      intros r Hr. destruct (Hall r Hr) as (i & ys & Hi & Hv & Hr' & Hle).
      exists i, ys. split; [now right|]. auto. }
    assert (Hscored : forall ys w1,
               stored_vector env item = Some ys ->
               (if PrimFloat.leb threshold
                     (cosineSimilarity (JsArray queryEmbedding) (JsArray ys))
                then KnowledgeRepository.score_items queryEmbedding threshold rest
                       (acc ++ [KnowledgeRepository.toResult item
                                  (cosineSimilarity (JsArray queryEmbedding) (JsArray ys))])
                else KnowledgeRepository.score_items queryEmbedding threshold rest acc)
                 env w1 = (Ok results, w') ->
               exists added0,
                 results = acc ++ added0 /\
                 List.length added0 <= List.length (item :: rest) /\
                 forall r, In r added0 ->
                   exists item0 ys,
                     In item0 (item :: rest) /\ stored_vector env item0 = Some ys /\
                     r = KnowledgeRepository.toResult item0
                           (Similarity.cosine queryEmbedding ys) /\
                     PrimFloat.leb threshold (sr_score r) = true).
    { intros ys w1 Hv Hrun.
      destruct (PrimFloat.leb threshold
                  (cosineSimilarity (JsArray queryEmbedding) (JsArray ys))) eqn:Hle.
      - apply IH in Hrun. destruct Hrun as (added & Hres & Hlen & Hall).
        exists (KnowledgeRepository.toResult item
                  (cosineSimilarity (JsArray queryEmbedding) (JsArray ys)) :: added).
        split; [rewrite Hres, <- app_assoc; reflexivity|].
        split; [simpl; lia|].
        intros r [<-|Hr].
        + exists item, ys. split; [now left|]. split; [assumption|].
          split; [reflexivity | exact Hle].
        + destruct (Hall r Hr) as (i & zs & Hi & Hz & Hr' & Hle').
          exists i, zs. split; [now right|]. auto.
      - apply IH in Hrun. destruct Hrun as (added & Hrun). apply (Hskip added). exact Hrun. }
    simpl in H. unfold stored_vector in Hscored.
    destruct (embedding item) as [|text|ys|t] eqn:Ee; simpl in H.
    + apply IH in H; destruct H as (added & H); apply (Hskip added); exact H.
    + destruct (String.eqb text "") eqn:Et; simpl in H.
      * apply IH in H; destruct H as (added & H); apply (Hskip added); exact H.
      * destruct (JSON_parse env text) as [v|message] eqn:Ep.
        -- unfold bind, config, ret in H. rewrite Ep in H.
           destruct v as [|s|zs|b]; simpl in H;
             try (apply IH in H; destruct H as (added & H); apply (Hskip added); exact H).
           apply (Hscored zs w); [reflexivity | exact H].
        -- unfold bind, config, throw in H. rewrite Ep in H. discriminate.
    + unfold bind at 1 in H. unfold ret at 1 in H.
      apply (Hscored ys w); [reflexivity | exact H].
    + destruct t; simpl in H.
      * unfold bind at 1 in H. unfold ret at 1 in H. simpl in H.
        apply IH in H; destruct H as (added & H); apply (Hskip added); exact H.
      * apply IH in H; destruct H as (added & H); apply (Hskip added); exact H.
Qed.

Lemma repository_semanticSearch_inv queryEmbedding limit_ threshold env w results w' :
  KnowledgeRepository.semanticSearch queryEmbedding limit_ threshold env w
  = (Ok results, w') ->
  store w' = store w /\
  List.length results <= limit_ /\
  forall r, In r results ->
    exists item ys,
      In item (firstn (limit_ * 3)
                 (filter (fun row => match embedding row with JsNull => false | _ => true end)
                         (knowledge_rows w))) /\
      stored_vector env item = Some ys /\
      r = KnowledgeRepository.toResult item (Similarity.cosine queryEmbedding ys) /\
      PrimFloat.leb threshold (sr_score r) = true.
Proof.
  intros H.
  assert (Hk : keeps store
                 (KnowledgeRepository.semanticSearch queryEmbedding limit_ threshold))
    by (apply repository_semanticSearch_keeps; projection).
  split; [exact (Hk _ _ _ _ H)|]. clear Hk.
  unfold KnowledgeRepository.semanticSearch in H.
  apply bind_Ok in H. destruct H as (answer & w1 & E1 & H).
  destruct answer as [data|error]; [|discriminate].
  apply bind_Ok in H. destruct H as (scored & w2 & E2 & H).
  unfold ret in H. injection H as <- _.
  apply store_call_inv in E1. destruct E1 as (a & Ea & _ & E1). injection Ea as <-.
  destruct (db_fault env (step w)); [destruct E1; discriminate|].
  injection E1 as -> _.
  apply score_items_results in E2. destruct E2 as (added & -> & _ & Hall).
  split.
  - unfold slice0. rewrite length_firstn. lia.
  - intros r Hr. unfold slice0 in Hr. apply In_firstn in Hr.
    apply (Permutation_in _ (sort_by_perm _ _)) in Hr.
    apply Hall. exact Hr.
Qed.

Lemma keywordSearch_run query limit_ env w :
  KnowledgeRepository.keywordSearch query limit_ env w =
  (Ok (match db_fault env (step w) with
       | Some _ => []
       | None =>
           map (fun item => KnowledgeRepository.toResult item KnowledgeRepository.keyword_score)
               (firstn limit_ (filter (textSearch env query) (knowledge_rows w)))
       end),
   set_step (S (step w)) w).
Proof.
  unfold KnowledgeRepository.keywordSearch, select, bind, config.
  destruct (db_fault env (step w)) as [m|] eqn:F.
  - rewrite (store_call_fault _ _ _ _ F). reflexivity.
  - rewrite (store_call_run _ _ _ F). reflexivity.
Qed.

Lemma service_semanticSearch_inv query limit_ threshold env w results w' :
  semanticSearch query limit_ threshold env w = (Ok results, w') ->
  results = [] \/
  exists queryEmbedding w1,
    embeddings_create env (step w) = Ok queryEmbedding /\
    knowledge_rows w1 = knowledge_rows w /\
    KnowledgeRepository.semanticSearch queryEmbedding limit_ threshold env w1
    = (Ok results, w').
Proof.
  unfold semanticSearch, try_catch. intros H.
  destruct (bind _ _ env w) as [[res|e] w2] eqn:E.
  - injection H as <- <-. right.
    apply bind_Ok in E. destruct E as (q & w1 & E1 & E2).
    rewrite generateEmbedding_run in E1.
    destruct (embeddings_create env (step w)) as [q'|]; [|discriminate].
    injection E1 as <- <-. exists q'. eexists. split; [reflexivity|].
    split; [|exact E2]. reflexivity.
  - unfold ret in H. injection H as <- _. now left.
Qed.

Lemma dedup_subset (results : list SearchResult) r :
  In r (dedup results [] []) -> In r results.
Proof.
  intros H. destruct (dedup_spec results []) as (_ & Hall).
  destruct (Hall r H) as (_ & Hf). unfold first_with in Hf.
  apply find_some in Hf. apply Hf.
Qed.

(** X10. A [semanticSearch] of the knowledge service that succeeds leaves
    the store as it was and returns at most [limit] results. Each result is
    one of the first [limit * 3] items that have an embedding, scored with the
    cosine similarity of the embedding of the query and the stored vector of
    the item, and its score is at least the threshold. *)
Theorem semanticSearch_results query limit_ threshold env w results w' :
  semanticSearch query limit_ threshold env w = (Ok results, w') ->
  store w' = store w /\
  List.length results <= limit_ /\
  forall r, In r results ->
    exists queryEmbedding item ys,
      embeddings_create env (step w) = Ok queryEmbedding /\
      In item (firstn (limit_ * 3)
                 (filter (fun row => match embedding row with JsNull => false | _ => true end)
                         (knowledge_rows w))) /\
      stored_vector env item = Some ys /\
      r = KnowledgeRepository.toResult item (Similarity.cosine queryEmbedding ys) /\
      PrimFloat.leb threshold (sr_score r) = true.
Proof.
  intros H.
  assert (Hk : keeps store (semanticSearch query limit_ threshold))
    by (apply semanticSearch_keeps; projection).
  split; [exact (Hk _ _ _ _ H)|]. clear Hk.
  apply service_semanticSearch_inv in H.
  destruct H as [->|(q & w1 & Hq & Hrows & H)].
  - split; [simpl; lia | intros r []].
  - apply repository_semanticSearch_inv in H. destruct H as (_ & Hlen & Hall).
    split; [exact Hlen|]. intros r Hr.
    destruct (Hall r Hr) as (item & ys & Hin & Hv & Hr' & Hle).
    exists q, item, ys. rewrite <- Hrows. auto.
Qed.

(** X10 on [two_items]: of two items only [k1], along the query's
    embedding, passes the threshold. *)
Lemma semanticSearch_results_witness :
  exists results w',
    semanticSearch "refunds" 5 AssistantAI.turn_threshold provider_up two_items
    = (Ok results, w') /\
    map sr_uuid results = ["k1"] /\
    store w' = store two_items /\
    List.length results <= 5.
Proof.
  destruct (semanticSearch "refunds" 5 AssistantAI.turn_threshold provider_up two_items)
    as [[results|e] w'] eqn:E; [|vm_compute in E; discriminate E].
  destruct (semanticSearch_results "refunds" 5 AssistantAI.turn_threshold provider_up
              two_items results w' E) as (Hs & Hlen & _).
  exists results, w'. split; [reflexivity|]. split; [|split; assumption].
  vm_compute in E. injection E as <- _. reflexivity.
Defined.

Lemma search_stored query limit_ threshold type env w results w' :
  search query limit_ threshold type env w = (Ok results, w') ->
  List.length results <= limit_ /\
  forall r, In r results ->
    exists item, In item (knowledge_rows w) /\
                 r = KnowledgeRepository.toResult item (sr_score r).
Proof.
  intros H.
  assert (Hsem : forall n w0 res w1,
             knowledge_rows w0 = knowledge_rows w ->
             semanticSearch query n threshold env w0 = (Ok res, w1) ->
             List.length res <= n /\
             forall r, In r res ->
               exists item, In item (knowledge_rows w) /\
                            r = KnowledgeRepository.toResult item (sr_score r)).
  { intros n w0 res w1 Hw0 Hs.
    apply service_semanticSearch_inv in Hs.
    destruct Hs as [->|(q & w2 & _ & Hrows & Hs)].
    - split; [simpl; lia | intros r []].
    - apply repository_semanticSearch_inv in Hs. destruct Hs as (_ & Hlen & Hall).
      split; [assumption|]. intros r Hr.
      destruct (Hall r Hr) as (item & ys & Hin & _ & Hr' & _).
      exists item. split.
      + apply In_firstn in Hin. apply filter_In in Hin. rewrite <- Hw0, <- Hrows.
        apply Hin.
      + rewrite Hr' at 1. rewrite Hr'. reflexivity. }
  assert (Hkw : forall n w0 res w1,
             knowledge_rows w0 = knowledge_rows w ->
             KnowledgeRepository.keywordSearch query n env w0 = (Ok res, w1) ->
             List.length res <= n /\
             forall r, In r res ->
               exists item, In item (knowledge_rows w) /\
                            r = KnowledgeRepository.toResult item (sr_score r)).
  { intros n w0 res w1 Hw0 Hs. rewrite keywordSearch_run in Hs.
    injection Hs as <- _. destruct (db_fault env (step w0)).
    - split; [simpl; lia | intros r []].
    - split; [rewrite length_map, length_firstn; lia|].
      intros r Hr. apply in_map_iff in Hr. destruct Hr as (item & <- & Hin).
      exists item. split; [|reflexivity].
      apply In_firstn in Hin. apply filter_In in Hin. rewrite <- Hw0. apply Hin. }
  unfold search in H. destruct type.
  - exact (Hsem _ _ _ _ eq_refl H).
  - exact (Hkw _ _ _ _ eq_refl H).
  - apply bind_Ok in H. destruct H as (sem & w1 & E1 & H).
    apply bind_Ok in H. destruct H as (kw & w2 & E2 & H).
    unfold ret in H. injection H as <- _.
    assert (Ks : keeps knowledge_rows (semanticSearch query (ceil_half limit_) threshold))
      by (apply semanticSearch_keeps; projection).
    pose proof (Ks _ _ _ _ E1) as K.
    destruct (Hsem _ _ _ _ eq_refl E1) as (_ & Hs).
    destruct (Hkw _ _ _ _ K E2) as (_ & Hk').
    split; [unfold slice0; rewrite length_firstn; lia|].
    intros r Hr. unfold slice0 in Hr. apply In_firstn in Hr.
    apply dedup_subset in Hr. apply in_app_or in Hr.
    destruct Hr as [Hr|Hr]; auto.
Qed.

(** X11. Whatever the search type, a [search] that returns leaves the
    store as it was and returns at most [limit] results, each of them a stored
    knowledge item under its own uuid. *)
Theorem search_results_are_stored query limit_ threshold type env w results w' :
  search query limit_ threshold type env w = (Ok results, w') ->
  store w' = store w /\
  List.length results <= limit_ /\
  forall r, In r results ->
    exists item, In item (knowledge_rows w) /\
                 sr_uuid r = know_uuid item /\
                 r = KnowledgeRepository.toResult item (sr_score r).
Proof.
  intros H. pose proof H as Hk. use_keeps store Hk. split; [assumption|].
  apply search_stored in H. destruct H as (Hlen & Hall).
  split; [exact Hlen|]. intros r Hr.
  destruct (Hall r Hr) as (item & Hin & Heq).
  exists item. split; [exact Hin|]. split; [|exact Heq].
  rewrite Heq. reflexivity.
Qed.

(** X11 on [two_items]: a hybrid search for 3 results. *)
Lemma search_results_are_stored_witness :
  exists results w',
    search "refunds" 3 AssistantAI.turn_threshold hybrid provider_up two_items
    = (Ok results, w') /\
    store w' = store two_items /\ List.length results <= 3.
Proof.
  destruct (search "refunds" 3 AssistantAI.turn_threshold hybrid provider_up two_items)
    as [[results|e] w'] eqn:E; [|vm_compute in E; discriminate E].
  destruct (search_results_are_stored "refunds" 3 AssistantAI.turn_threshold hybrid
              provider_up two_items results w' E) as (Hs & Hlen & _).
  exists results, w'. split; [reflexivity|]. split; assumption.
Defined.

Lemma search_total query limit_ threshold type env w :
  exists results w',
    search query limit_ threshold type env w = (Ok results, w') /\
    ((forall n, db_fault env n <> None) -> results = []).
Proof.
  assert (Hsem : forall n w0,
             exists res w1,
               semanticSearch query n threshold env w0 = (Ok res, w1) /\
               ((forall k, db_fault env k <> None) -> res = [])).
  { intros n w0. destruct (total_semanticSearch query n threshold env w0) as (res & w1 & E).
    exists res, w1. split; [exact E|]. intros Hdown.
    apply service_semanticSearch_inv in E. destruct E as [->|(q & w2 & _ & _ & E)];
      [reflexivity|].
    unfold KnowledgeRepository.semanticSearch in E.
    apply bind_Ok in E. destruct E as (answer & w3 & E1 & E).
    apply store_call_inv in E1. destruct E1 as (a & Ea & _ & E1). injection Ea as <-.
    destruct (db_fault env (step w2)) eqn:F; [|elim (Hdown _ F)].
    destruct E1 as (-> & _). discriminate. }
  assert (Hkw : forall n w0,
             exists res,
               KnowledgeRepository.keywordSearch query n env w0
               = (Ok res, set_step (S (step w0)) w0) /\
               ((forall k, db_fault env k <> None) -> res = [])).
  { intros n w0. rewrite keywordSearch_run. eexists. split; [reflexivity|].
    intros Hdown. destruct (db_fault env (step w0)) eqn:F; [reflexivity | elim (Hdown _ F)]. }
  unfold search. destruct type.
  - apply Hsem.
  - destruct (Hkw limit_ w) as (res & E & Hd). exists res. eexists. split; eauto.
  - destruct (Hsem (ceil_half limit_) w) as (sem & w1 & E1 & Hd1).
    destruct (Hkw (ceil_half limit_) w1) as (kw & E2 & Hd2).
    unfold bind. rewrite E1, E2. eexists. eexists. split; [reflexivity|].
    intros Hdown. rewrite (Hd1 Hdown), (Hd2 Hdown). simpl. unfold slice0.
    apply firstn_nil.
Qed.

(** X12. [search] never throws and never changes the store: whatever the
    store and the embedding provider do, it returns a list of results, and the
    list is empty when the store answers no request. *)
Theorem search_never_throws query limit_ threshold type env w :
  exists results w',
    search query limit_ threshold type env w = (Ok results, w') /\
    store w' = store w /\
    ((forall n, db_fault env n <> None) -> results = []).
Proof.
  destruct (search_total query limit_ threshold type env w) as (results & w' & E & Hd).
  exists results, w'. split; [exact E|]. split; [|exact Hd].
  use_keeps store E. assumption.
Qed.

(** *** DeleteKnowledgeItem *)

Lemma knowledge_delete_run itemId env w :
  KnowledgeRepository.delete_ itemId env w =
  match db_fault env (step w) with
  | Some m => (Err ("Failed to delete knowledge item: " ++ m), set_step (S (step w)) w)
  | None =>
      (Ok tt,
       set_store
         (set_knowledge_items
            {| rows := filter (fun r => negb (String.eqb (know_uuid r) itemId))
                              (rows (knowledge_items (store w)));
               next_id := next_id (knowledge_items (store w)) |}
            (store w))
         (set_step (S (step w)) w))
  end.
Proof.
  unfold KnowledgeRepository.delete_, delete, bind.
  destruct (db_fault env (step w)) as [m|] eqn:F.
  - rewrite (store_call_fault _ _ _ _ F). reflexivity.
  - rewrite (store_call_run _ _ _ F). reflexivity.
Qed.

Lemma filter_all {A : Type} (p : A -> bool) (l : list A) :
  (forall x, In x l -> p x = true) -> filter p l = l.
Proof.
  induction l as [|x l IH]; simpl; intros H; [reflexivity|].
  rewrite (H x (or_introl eq_refl)). f_equal. apply IH. intros y Hy. apply H. now right.
Qed.

(** X13. A [deleteKnowledgeItem] that succeeds has removed the items of
    the given uuid and nothing else, also when there is none; after it
    [getById] of the uuid returns [null] when the store answers, and no search
    returns the uuid. It fails only when the store fails, with [Failed to delete
    knowledge item: ...] and the store as it was. *)
Theorem deleteKnowledgeItem_effect id env w r w' :
  AssistantAI.deleteKnowledgeItem id env w = (r, w') ->
  match r with
  | Ok _ =>
      knowledge_rows w'
      = filter (fun row => negb (String.eqb (know_uuid row) id)) (knowledge_rows w) /\
      ((forall row, In row (knowledge_rows w) -> know_uuid row <> id) ->
       knowledge_rows w' = knowledge_rows w) /\
      (db_fault env (step w') = None ->
       KnowledgeRepository.getById id env w' = (Ok None, set_step (S (step w')) w')) /\
      (forall query limit_ threshold type results w2,
          AssistantAI.searchKnowledge query limit_ threshold type env w' = (Ok results, w2) ->
          ~ In id (map sr_uuid results))
  | Err e =>
      store w' = store w /\
      exists m, db_fault env (step w) = Some m /\
                e = ("Failed to delete knowledge item: " ++ m)%string
  end.
Proof.
  unfold AssistantAI.deleteKnowledgeItem, deleteItem. rewrite knowledge_delete_run.
  destruct (db_fault env (step w)) as [m|] eqn:F; intros H; injection H as <- <-.
  - split; [reflexivity|]. exists m. split; reflexivity.
  - set (w' := set_store _ _).
    assert (Hrows : knowledge_rows w'
                    = filter (fun row => negb (String.eqb (know_uuid row) id))
                             (knowledge_rows w)) by reflexivity.
    assert (Hgone : forall row, In row (knowledge_rows w') -> know_uuid row <> id).
    { intros row Hin. rewrite Hrows in Hin. apply filter_In in Hin.
      destruct Hin as (_ & Hne). apply negb_true_iff in Hne.
      apply String.eqb_neq. exact Hne. }
    split; [exact Hrows|]. split; [|split].
    + intros Hnone. rewrite Hrows. apply filter_all.
      intros row Hin. apply negb_true_iff. apply String.eqb_neq. apply Hnone. exact Hin.
    + intros F'. unfold KnowledgeRepository.getById, bind.
      rewrite select_single_run by exact F'.
      replace (KnowledgeRepository.by_uuid id (store w')) with (@nil KnowledgeRow);
        [reflexivity|].
      symmetry. unfold KnowledgeRepository.by_uuid. apply filter_none.
      intros row Hin. apply String.eqb_neq. apply Hgone. exact Hin.
    + intros query limit_ threshold type results w2 Hs Hin.
      unfold AssistantAI.searchKnowledge in Hs.
      apply search_stored in Hs. destruct Hs as (_ & Hall).
      apply in_map_iff in Hin. destruct Hin as (res & Hu & Hres).
      destruct (Hall res Hres) as (item & Hitem & Heq).
      apply (Hgone item Hitem). rewrite <- Hu, Heq. reflexivity.
Qed.

(** X13 on [two_items]: deleting [k1] leaves [k3], and [k1] is not found
    afterwards. *)
Lemma deleteKnowledgeItem_effect_witness :
  exists w',
    AssistantAI.deleteKnowledgeItem "k1" provider_up two_items = (Ok tt, w') /\
    map know_uuid (knowledge_rows w') = ["k3"] /\
    KnowledgeRepository.getById "k1" provider_up w' = (Ok None, set_step (S (step w')) w').
Proof.
  destruct (AssistantAI.deleteKnowledgeItem "k1" provider_up two_items)
    as [[[]|e] w'] eqn:E; [|vm_compute in E; discriminate E].
  pose proof (deleteKnowledgeItem_effect "k1" provider_up two_items (Ok tt) w' E) as H.
  destruct H as (Hrows & _ & Hget & _).
  exists w'. split; [reflexivity|]. split; [rewrite Hrows; reflexivity|].
  apply Hget. reflexivity.
Defined.

(** *** UpdateItem *)

Lemma knowledge_update_inv itemId updates embedding_ env w w' :
  KnowledgeRepository.update_ itemId updates embedding_ env w = (Ok tt, w') ->
  knowledge_rows w' =
    map (fun r =>
           if String.eqb (know_uuid r) itemId
           then {| know_id := know_id r; know_uuid := know_uuid r;
                   parent_id := parent_id r;
                   know_title := KnowledgeRepository.updated (up_title updates) (know_title r);
                   know_description :=
                     KnowledgeRepository.updated_opt (up_description updates)
                                                     (know_description r);
                   know_type := know_type r;
                   know_content :=
                     KnowledgeRepository.updated_opt (up_content updates) (know_content r);
                   file_url := KnowledgeRepository.updated_opt (up_fileUrl updates) (file_url r);
                   file_size :=
                     KnowledgeRepository.updated_opt (up_fileSize updates) (file_size r);
                   file_type :=
                     KnowledgeRepository.updated_opt (up_fileType updates) (file_type r);
                   know_metadata :=
                     KnowledgeRepository.updated (up_metadata updates) (know_metadata r);
                   embedding := match embedding_ with
                                | Some e => JsArray e
                                | None => embedding r
                                end;
                   processed_at :=
                     match embedding_ with
                     | Some _ => Some (Date_now env (S (step w)))
                     | None => processed_at r
                     end;
                   created_by := created_by r;
                   know_created_at := know_created_at r;
                   know_updated_at := Date_now env (step w) |}
           else r)
        (knowledge_rows w).
Proof.
  unfold KnowledgeRepository.update_. intros H.
  unfold bind at 1 in H. unfold new_Date, ask in H. cbv beta iota zeta in H.
  set (w1 := set_step (S (step w)) w) in *.
  apply bind_Ok in H. destruct H as (processed & w2 & E2 & H).
  apply bind_Ok in H. destruct H as (answer & w3 & E3 & H).
  destruct answer as [[]|error]; [|discriminate].
  injection H as <-.
  apply (update_inv knowledge_items set_knowledge_items) in E3; [|reflexivity].
  destruct E3 as (_ & _ & Hrows & _).
  unfold knowledge_rows. rewrite Hrows.
  destruct embedding_ as [e|].
  - unfold bind, ask, ret in E2. injection E2 as <- <-. reflexivity.
  - unfold ret in E2. injection E2 as <- <-. reflexivity.
Qed.

Lemma updateItem_inv itemId updates env w r w' :
  updateItem itemId updates env w = (r, w') ->
  exists embedding_ w1,
    KnowledgeRepository.update_ itemId updates embedding_ env w1 = (r, w') /\
    knowledge_rows w1 = knowledge_rows w /\
    if truthy_str (up_content updates)
    then embedding_ = match embeddings_create env (step w) with
                      | Ok e => Some e
                      | Err _ => None
                      end
         /\ requests w1 = requests w
                          ++ [req_embedding (substring0 8000 (or_default (up_content updates) ""))]
    else embedding_ = None /\ requests w1 = requests w.
Proof.
  unfold updateItem. intros H.
  destruct (truthy_str (up_content updates)).
  - unfold try_embedding, try_catch in H.
    unfold bind at 1 2 in H. rewrite generateEmbedding_run in H.
    destruct (embeddings_create env (step w)) as [e|m];
      eexists; eexists; (split; [exact H|]); split; try reflexivity; split; reflexivity.
  - unfold bind at 1 in H. unfold ret at 1 in H.
    exists None, w. split; [exact H|]. split; [reflexivity|]. split; reflexivity.
Qed.

(** X14. An [updateItem] that succeeds keeps the items and their order,
    leaves every item of another uuid as it was, and in the items of the given
    uuid sets the title, description, content, file fields and metadata that
    the update gives, keeping the others of these; their key, uuid, parent,
    type, creator and creation time stay, so that [type], [parentId] and
    [createdBy] of an update have no effect. *)
Theorem updateItem_changes_only_given_fields itemId updates env w w' :
  updateItem itemId updates env w = (Ok tt, w') ->
  Forall2 (fun old new =>
             know_id new = know_id old /\ know_uuid new = know_uuid old /\
             parent_id new = parent_id old /\ know_type new = know_type old /\
             created_by new = created_by old /\
             know_created_at new = know_created_at old /\
             if String.eqb (know_uuid old) itemId
             then know_title new
                  = match up_title updates with Some x => x | None => know_title old end /\
                  know_description new
                  = match up_description updates with
                    | Some x => Some x | None => know_description old end /\
                  know_content new
                  = match up_content updates with
                    | Some x => Some x | None => know_content old end /\
                  file_url new
                  = match up_fileUrl updates with Some x => Some x | None => file_url old end /\
                  file_size new
                  = match up_fileSize updates with
                    | Some x => Some x | None => file_size old end /\
                  file_type new
                  = match up_fileType updates with
                    | Some x => Some x | None => file_type old end /\
                  know_metadata new
                  = match up_metadata updates with
                    | Some x => x | None => know_metadata old end
             else new = old)
          (knowledge_rows w) (knowledge_rows w').
Proof.
  intros H. apply updateItem_inv in H. destruct H as (emb & w1 & H & Hrows & _).
  apply knowledge_update_inv in H. rewrite H, Hrows.
  apply Forall2_map_r. intros r _.
  destruct (String.eqb (know_uuid r) itemId); simpl; repeat split.
Qed.

(** X14 on [two_items]: an update of the content of [k1] changes that
    content only. *)
Lemma updateItem_changes_only_given_fields_witness :
  exists w',
    updateItem "k1" content_update provider_up two_items = (Ok tt, w') /\
    map know_content (knowledge_rows w') = [Some "Refunds within 30 days."; Some "Returns"] /\
    map know_title (knowledge_rows w') = ["Refund policy"; "Returns"] /\
    Forall2 (fun old new => know_uuid new = know_uuid old /\ know_type new = know_type old)
            (knowledge_rows two_items) (knowledge_rows w').
Proof.
  destruct (updateItem "k1" content_update provider_up two_items)
    as [[[]|e] w'] eqn:E; [|vm_compute in E; discriminate E].
  pose proof (updateItem_changes_only_given_fields "k1" content_update provider_up
                two_items w' E) as H.
  exists w'. split; [reflexivity|]. split; [|split].
  - vm_compute in E. injection E as <-. reflexivity.
  - vm_compute in E. injection E as <-. reflexivity.
  - eapply Forall2_impl; [|exact H]. intros old new (_ & Hu & _ & Ht & _). auto.
Defined.

(** X15. [updateItem] asks the provider for an embedding only when the
    update gives a content that is not empty; the embedding of the items of
    the given uuid is then replaced by the new one, and kept when the provider
    fails. In particular an update that empties the content stores the empty
    content and keeps the embedding, and the processing time, of the old
    content. *)
Theorem updateItem_embedding_replaced_or_kept itemId updates env w w' :
  updateItem itemId updates env w = (Ok tt, w') ->
  (truthy_str (up_content updates) = false -> requests w' = requests w) /\
  Forall2 (fun old new =>
             embedding new =
               if String.eqb (know_uuid old) itemId && truthy_str (up_content updates)
               then match embeddings_create env (step w) with
                    | Ok e => JsArray e
                    | Err _ => embedding old
                    end
               else embedding old)
          (knowledge_rows w) (knowledge_rows w') /\
  (up_content updates = Some "" ->
   Forall2 (fun old new =>
              know_uuid old = itemId ->
              know_content new = Some "" /\ embedding new = embedding old /\
              processed_at new = processed_at old)
           (knowledge_rows w) (knowledge_rows w')).
Proof.
  intros H. apply updateItem_inv in H. destruct H as (emb & w1 & H & Hrows & Hemb).
  split; [|split].
  - intros Hfalse. rewrite Hfalse in Hemb. destruct Hemb as (_ & Hreq).
    use_keeps requests H. congruence.
  - apply knowledge_update_inv in H. rewrite H, Hrows.
    apply Forall2_map_r. intros r _.
    destruct (String.eqb (know_uuid r) itemId); simpl; [|reflexivity].
    destruct (truthy_str (up_content updates)).
    + destruct Hemb as (-> & _). destruct (embeddings_create env (step w)); reflexivity.
    + destruct Hemb as (-> & _). reflexivity.
  - intros Hempty. rewrite Hempty in Hemb. simpl in Hemb. destruct Hemb as (-> & _).
    apply knowledge_update_inv in H. rewrite H, Hrows.
    apply Forall2_map_r. intros r _ Hu.
    rewrite Hu, String.eqb_refl. simpl. rewrite Hempty. repeat split.
Qed.

(** X15 on [two_items]: emptying the content of [k1] requests nothing
    and leaves the embeddings as they were. *)
Lemma updateItem_embedding_replaced_or_kept_witness :
  exists w',
    updateItem "k1" clear_content provider_up two_items = (Ok tt, w') /\
    requests w' = [] /\
    map know_content (knowledge_rows w') = [Some ""; Some "Returns"] /\
    map embedding (knowledge_rows w') = map embedding (knowledge_rows two_items).
Proof.
  destruct (updateItem "k1" clear_content provider_up two_items)
    as [[[]|e] w'] eqn:E; [|vm_compute in E; discriminate E].
  destruct (updateItem_embedding_replaced_or_kept "k1" clear_content provider_up
              two_items w' E) as (Hreq & _ & _).
  exists w'. split; [reflexivity|]. split; [exact (Hreq eq_refl)|].
  vm_compute in E. injection E as <-. split; reflexivity.
Defined.

(** *** GetTopItems *)

(** X16. [getTopItems] changes nothing in the store. It returns [limit]
    results, or as many as there are items, the most recently created first,
    each a stored item with the score 1; an item that is left out is no newer
    than any item returned. *)
Theorem getTopItems_newest_first limit_ env w results w' :
  getTopItems limit_ env w = (Ok results, w') ->
  store w' = store w /\
  exists items,
    results = map (fun item => KnowledgeRepository.toResult item 1%float) items /\
    List.length items = Nat.min limit_ (List.length (knowledge_rows w)) /\
    StronglySorted (fun a b => (know_created_at b <= know_created_at a)%Z) items /\
    (forall item, In item items -> In item (knowledge_rows w)) /\
    (forall row, In row (knowledge_rows w) ->
                 In row items \/
                 forall item, In item items ->
                              (know_created_at row <= know_created_at item)%Z).
Proof.
  intros H. pose proof H as Hk. use_keeps store Hk. split; [assumption|]. clear K.
  unfold getTopItems, KnowledgeRepository.listRecent in H.
  apply bind_Ok in H. destruct H as (items & w1 & H & Hr).
  apply bind_Ok in H. destruct H as (answer & w2 & E & H).
  destruct answer as [data|error]; [|discriminate].
  unfold ret in H, Hr. injection H as <- _. injection Hr as <- _.
  apply store_call_inv in E. destruct E as (a & Ea & _ & E). injection Ea as <-.
  destruct (db_fault env (step w)); [destruct E; discriminate|].
  injection E as -> _.
  set (sorted := descending know_created_at (rows (knowledge_items (store w)))).
  assert (Hperm : Permutation sorted (knowledge_rows w)) by apply sort_by_perm.
  assert (Hsorted : StronglySorted (fun a b => (know_created_at b <= know_created_at a)%Z)
                                   sorted) by apply descending_sorted.
  exists (firstn limit_ sorted). unfold limit. fold sorted.
  split; [rewrite map_map; reflexivity|]. split; [|split; [|split]].
  - rewrite length_firstn, (Permutation_length Hperm). reflexivity.
  - apply StronglySorted_firstn. exact Hsorted.
  - intros item Hin. apply In_firstn in Hin. exact (Permutation_in _ Hperm Hin).
  - intros row Hin. apply (Permutation_in _ (Permutation_sym Hperm)) in Hin.
    rewrite <- (firstn_skipn limit_ sorted) in Hin. apply in_app_or in Hin.
    destruct Hin as [Hin|Hin]; [now left|]. right. intros item Hitem.
    exact (StronglySorted_split _ limit_ sorted Hsorted item row Hitem Hin).
Qed.

(** X16 on [two_items]: the one top item is the newer [k3]. *)
Lemma getTopItems_newest_first_witness :
  exists results w',
    getTopItems 1 provider_up two_items = (Ok results, w') /\
    map sr_uuid results = ["k3"] /\
    store w' = store two_items.
Proof.
  destruct (getTopItems 1 provider_up two_items) as [[results|e] w'] eqn:E;
    [|vm_compute in E; discriminate E].
  destruct (getTopItems_newest_first 1 provider_up two_items results w' E) as (Hs & _).
  exists results, w'. split; [reflexivity|]. split; [|exact Hs].
  vm_compute in E. injection E as <- _. reflexivity.
Defined.

(* ------------------------------------------------------------------ *)
(** ** Replies and the personality *)
(* ------------------------------------------------------------------ *)

(** *** GenerateResponse *)

Lemma or_default_not_empty (s : option string) (d : string) :
  d <> "" -> or_default s d <> "" /\ (s = Some (or_default s d) \/ or_default s d = d).
Proof.
  intros Hd. unfold or_default. destruct s as [x|]; [|auto].
  destruct (String.eqb x "") eqn:E; [auto|].
  apply String.eqb_neq in E. auto.
Qed.

Lemma generateResponse_run userMessage systemPrompt history context env w :
  AIService.generateResponse userMessage systemPrompt history context env w =
  (match chat_create env (step w) with
   | Ok content =>
       Ok (or_default content "I apologize, but I was unable to generate a response.")
   | Err message => Err message
   end,
   set_step (S (step w))
     (set_requests
        (requests w ++ [req_chat false
                          (AIService.build_messages userMessage systemPrompt history context)])
        w)).
Proof.
  unfold AIService.generateResponse, bind, send, modify, ask. simpl.
  destruct (chat_create env (step w)); reflexivity.
Qed.

(** X17. [generateResponse] never changes the store and sends one chat
    request, not streamed: a system message, which is the system prompt,
    followed by an empty line and the context when the context is not empty;
    then the history; then the user's message. When it succeeds the reply is
    never empty: it is the content of the completion, or the sentence [I
    apologize, but I was unable to generate a response.]; it fails with the
    error of the provider. *)
Theorem generateResponse_reply userMessage systemPrompt history context env w r w' :
  AIService.generateResponse userMessage systemPrompt history context env w = (r, w') ->
  store w' = store w /\
  (exists first,
      requests w' = requests w
                    ++ [req_chat false (first :: history
                                          ++ [{| cm_role := user; cm_content := userMessage |}])] /\
      cm_role first = system /\
      (context = "" -> cm_content first = systemPrompt) /\
      (context <> "" ->
       cm_content first
       = (systemPrompt ++ AIService.newline ++ AIService.newline ++ context)%string)) /\
  match r with
  | Ok reply =>
      reply <> "" /\
      (chat_create env (step w) = Ok (Some reply) \/
       reply = "I apologize, but I was unable to generate a response.")
  | Err e => chat_create env (step w) = Err e
  end.
Proof.
  rewrite generateResponse_run. intros H. injection H as <- <-.
  split; [reflexivity|]. split.
  - eexists. split; [|split; [|split]].
    + unfold AIService.build_messages. simpl.
      replace (map (fun msg => {| cm_role := cm_role msg; cm_content := cm_content msg |})
                   history) with history; [reflexivity|].
      induction history as [|[role content] l IH]; simpl; [reflexivity|]. now f_equal.
    + reflexivity.
    + intros ->. simpl. clear. induction systemPrompt as [|c s IH]; simpl; [reflexivity|].
      now f_equal.
    + intros Hne. simpl. destruct (String.eqb context "") eqn:E;
        [apply String.eqb_eq in E; contradiction | reflexivity].
  - destruct (chat_create env (step w)) as [content|e]; [|reflexivity].
    destruct (or_default_not_empty content
                "I apologize, but I was unable to generate a response.") as (Hne & Hor);
      [discriminate|].
    split; [exact Hne|]. destruct Hor as [Hor|Hor]; [left; f_equal; exact Hor | right; exact Hor].
Qed.

(** X17 on an empty store, without history or context: the request is the
    prompt and the message, the reply is the provider's. *)
Lemma generateResponse_reply_witness :
  exists w',
    AIService.generateResponse "hi" "Be brief." [] "" provider_up cold_start
    = (Ok "Hello!", w') /\
    store w' = store cold_start /\
    requests w' = [req_chat false [{| cm_role := system; cm_content := "Be brief." |};
                                   {| cm_role := user; cm_content := "hi" |}]].
Proof.
  destruct (AIService.generateResponse "hi" "Be brief." [] "" provider_up cold_start)
    as [r w'] eqn:E.
  destruct (generateResponse_reply "hi" "Be brief." [] "" provider_up cold_start r w' E)
    as (Hs & _ & _).
  vm_compute in E. injection E as <- <-.
  eexists. split; [reflexivity|]. split; reflexivity.
Defined.

(** X18. The reply of a [sendMessage] that succeeds is never empty, and is
    the content of the stored assistant message that the output names; a model
    that answers with an empty content gives the sentence of apology.
    [streamMessage] has no such fallback: with that same model the final event
    carries an empty content and an empty assistant message is stored. *)
Theorem sendMessage_reply_never_empty :
  (forall input env w out w',
      AssistantAI.sendMessage input env w = (Ok out, w') ->
      out_content out <> "" /\
      exists assistantRow,
        In assistantRow (message_rows w') /\
        msg_uuid assistantRow = out_messageId out /\
        msg_content assistantRow = out_content out) /\
  (let run := AssistantAI.sendMessage (continue_conv "hi") provider_silent
                                      (with_messages []) in
   fst run = Ok {| out_content := "I apologize, but I was unable to generate a response.";
                   out_conversationId := "conv"; out_messageId := letter 21 |}) /\
  (let run := AssistantAI.streamMessage (continue_conv "hi") provider_silent
                                        (with_messages []) in
   yielded (snd run) = [ev_start "conv"; ev_final "" (letter 21) "conv"] /\
   map msg_content (message_rows (snd run)) = ["hi"; ""]).
Proof.
  split; [|split].
  - intros input env w out w' H. unfold AssistantAI.sendMessage in H.
    apply bind_Ok in H. destruct H as (u0 & w0 & _ & H).
    apply bind_Ok in H. destruct H as (cid & w1 & _ & H).
    apply bind_Ok in H. destruct H as (userMessage & w2 & _ & H).
    apply bind_Ok in H. destruct H as (msgs & w3 & _ & H).
    apply bind_Ok in H. destruct H as (found & w4 & _ & H).
    apply bind_Ok in H. destruct H as (pers & w5 & _ & H).
    apply bind_Ok in H. destruct H as (reply & w6 & Ereply & H).
    apply bind_Ok in H. destruct H as (assistantMessage & w7 & Ecreate & H).
    apply bind_Ok in H. destruct H as (u1 & w8 & Ebump & H).
    unfold ret in H. injection H as <- <-. simpl.
    rewrite generateResponse_run in Ereply.
    split.
    + destruct (chat_create env (step w5)) as [content|e]; [|discriminate].
      injection Ereply as <- _.
      apply or_default_not_empty. discriminate.
    + apply message_create_inv in Ecreate.
      destruct Ecreate as (conv & row & _ & Hrows & _ & Hm & _ & _ & Hc & _).
      exists row. use_keeps message_rows Ebump.
      split; [rewrite K, Hrows; apply in_or_app; right; now left|].
      subst assistantMessage. split; [reflexivity | exact Hc].
  - vm_compute. reflexivity.
  - split; vm_compute; reflexivity.
Qed.

(** *** The personality cache *)

Lemma cache_get_run env w :
  PersonalityService.cache_get env w =
  match cache w with
  | None => (Ok None, w)
  | Some entry =>
      if Z.ltb (ce_expiresAt entry) (Date_now env (step w))
      then (Ok None, set_cache None (set_step (S (step w)) w))
      else (Ok (Some (ce_value entry)), set_step (S (step w)) w)
  end.
Proof.
  unfold PersonalityService.cache_get, bind, get, new_Date, ask, modify, ret.
  destruct (cache w) as [entry|]; [|reflexivity].
  cbv beta iota zeta. destruct (Z.ltb _ _); reflexivity.
Qed.

(** X19. A personality in the cache is what [getPersonality] returns, with
    no request to the store, as long as the clock is not past [expiresAt]; once
    it is, the entry is dropped and the call goes on as with an empty
    cache. *)
Theorem personality_cache_ttl env w entry :
  cache w = Some entry ->
  ((Date_now env (step w) <= ce_expiresAt entry)%Z ->
   AssistantAI.getPersonality env w = (Ok (ce_value entry), set_step (S (step w)) w)) /\
  ((ce_expiresAt entry < Date_now env (step w))%Z ->
   AssistantAI.getPersonality env w
   = AssistantAI.getPersonality env (set_cache None (set_step (S (step w)) w))).
Proof.
  intros Hc. unfold AssistantAI.getPersonality. split; intros Ht.
  - unfold PersonalityService.getPersonality, bind. rewrite cache_get_run, Hc.
    replace (Z.ltb (ce_expiresAt entry) (Date_now env (step w))) with false
      by (symmetry; apply Z.ltb_ge; exact Ht).
    reflexivity.
  - unfold PersonalityService.getPersonality. unfold bind at 1 3.
    rewrite !cache_get_run, Hc.
    replace (Z.ltb (ce_expiresAt entry) (Date_now env (step w))) with true
      by (symmetry; apply Z.ltb_lt; exact Ht).
    reflexivity.
Qed.

(** X19 after a personality is built on an empty store: the entry expires
    five minutes after step 4 and is returned at step 5. *)
Lemma personality_cache_ttl_witness :
  exists entry,
    cache (snd (AssistantAI.buildPersonality provider_up cold_start)) = Some entry /\
    ce_expiresAt entry = 300004%Z /\
    AssistantAI.getPersonality provider_up
      (snd (AssistantAI.buildPersonality provider_up cold_start))
    = (Ok (ce_value entry),
       set_step 6 (snd (AssistantAI.buildPersonality provider_up cold_start))).
Proof.
  destruct (cache (snd (AssistantAI.buildPersonality provider_up cold_start)))
    as [entry|] eqn:E; [|vm_compute in E; discriminate E].
  destruct (personality_cache_ttl provider_up
              (snd (AssistantAI.buildPersonality provider_up cold_start)) entry E)
    as (Hfresh & _).
  assert (Hexp : ce_expiresAt entry = 300004%Z)
    by (vm_compute in E; injection E as <-; reflexivity).
  exists entry. split; [reflexivity|]. split; [exact Hexp|].
  apply Hfresh. rewrite Hexp. vm_compute. discriminate.
Defined.

Lemma save_run_general name systemPrompt profile env w :
  let kept :=
    match db_fault env (step w) with
    | Some _ => personality_rows w
    | None => filter (fun r => String.eqb (pers_uuid r) PersonalityRepository.nil_uuid)
                     (personality_rows w)
    end in
  let row :=
    {| pers_id := next_id (personality (store w));
       pers_uuid := gen_random_uuid env (S (S (step w)));
       pers_name := name;
       pers_description := match profile with Some p => pp_description p | None => None end;
       system_prompt := systemPrompt;
       pers_metadata :=
         match profile with
         | Some p => {| meta_tone := pp_tone p; meta_domain := pp_domain p |}
         | None => {| meta_tone := None; meta_domain := None |}
         end;
       last_built_at := Date_now env (S (step w)) |} in
  forall r w',
    PersonalityRepository.save name systemPrompt profile env w = (r, w') ->
    step w' = 3 + step w /\ cache w' = cache w /\ requests w' = requests w /\
    match r with
    | Ok p => p = PersonalityRepository.mapRow row /\
              personality_rows w' = kept ++ [row] /\
              db_fault env (S (S (step w))) = None
    | Err _ => personality_rows w' = kept
    end.
Proof.
  intros kept row r w'. unfold PersonalityRepository.save.
  unfold bind at 1. unfold delete.
  assert (Hfilter : forall l : list PersonalityRow,
             filter (fun r0 => negb (negb (String.eqb (pers_uuid r0)
                                                      PersonalityRepository.nil_uuid))) l
             = filter (fun r0 => String.eqb (pers_uuid r0) PersonalityRepository.nil_uuid) l).
  { intros l. apply filter_ext. intros a. apply negb_involutive. }
  destruct (db_fault env (step w)) as [m|] eqn:F.
  - rewrite (store_call_fault _ _ _ _ F).
    unfold bind at 1. unfold new_Date, ask. cbv beta iota zeta.
    unfold bind at 1. unfold insert.
    change (step (set_step (S (step (set_step (S (step w)) w))) (set_step (S (step w)) w)))
      with (S (S (step w))).
    destruct (db_fault env (S (S (step w)))) as [m2|] eqn:F2.
    + rewrite store_call_fault with (m := m2) by exact F2.
      intros H. unfold throw in H. injection H as <- <-. repeat split.
    + rewrite store_call_run by exact F2. cbv beta iota zeta.
      change (store (set_step _ (set_step _ w))) with (store w).
      change (step (set_step (S (S (step w))) (set_step (S (step w)) w)))
        with (S (S (step w))).
      fold row.
      destruct (existsb _ (rows (personality (store w)))); simpl;
        intros H; unfold throw, ret in H; injection H as <- <-; repeat split.
  - rewrite (store_call_run _ _ _ F). cbv beta iota zeta. simpl fst. simpl snd.
    unfold bind at 1. unfold new_Date, ask. cbv beta iota zeta.
    unfold bind at 1. unfold insert.
    set (w1 := set_step (S (step (set_store _ _))) _).
    assert (Hstep : step w1 = S (S (step w))) by reflexivity.
    assert (Hrows : rows (personality (store w1)) = kept).
    { unfold w1, kept. simpl. apply Hfilter. }
    assert (Hnext : next_id (personality (store w1)) = next_id (personality (store w)))
      by reflexivity.
    destruct (db_fault env (S (S (step w)))) as [m2|] eqn:F2.
    + rewrite store_call_fault with (m := m2) by (rewrite Hstep; exact F2).
      intros H. unfold throw in H. injection H as <- <-.
      repeat split. exact Hrows.
    + rewrite store_call_run by (rewrite Hstep; exact F2). cbv beta iota zeta.
      rewrite Hstep, Hrows, Hnext. fold row.
      destruct (existsb _ kept); simpl;
        intros H; unfold throw, ret in H; injection H as <- <-; repeat split.
Qed.

Lemma save_and_cache_inv name systemPrompt profile env w out w' :
  PersonalityService.save_and_cache name systemPrompt profile env w = (Ok out, w') ->
  out = {| bp_systemPrompt := systemPrompt; bp_profile := profile |} /\
  step w' = 4 + step w /\
  cache w' = Some {| ce_value := out;
                     ce_expiresAt := (Date_now env (3 + step w) + PersonalityService.ttl)%Z |} /\
  requests w' = requests w /\
  exists row,
    In row (personality_rows w') /\
    system_prompt row = systemPrompt /\ pers_name row = name /\
    last_built_at row = Date_now env (S (step w)).
Proof.
  unfold PersonalityService.save_and_cache. intros H.
  apply bind_Ok in H. destruct H as (p & w1 & E & H).
  apply save_run_general in E. destruct E as (Hstep & Hcache & Hreq & _ & Hrows & _).
  unfold PersonalityService.cache_set, new_Date, ask, modify, bind, ret in H.
  injection H as <- <-. simpl. rewrite Hstep, Hreq.
  repeat split.
  eexists. split; [unfold personality_rows in *; simpl; rewrite Hrows;
                   apply in_or_app; right; now left|].
  repeat split.
Qed.

Lemma buildPersonality_inv env w out w' :
  PersonalityService.buildPersonality env w = (Ok out, w') ->
  exists n,
    step w' = S n /\ step w <= n /\
    cache w' = Some {| ce_value := out;
                       ce_expiresAt := (Date_now env n + PersonalityService.ttl)%Z |} /\
    exists row,
      In row (personality_rows w') /\
      system_prompt row = bp_systemPrompt out /\
      pers_name row = pp_name (bp_profile out).
Proof.
  unfold PersonalityService.buildPersonality. intros H.
  unfold bind at 1 in H. unfold PersonalityService.cache_delete, modify in H.
  cbv beta iota zeta in H.
  unfold bind at 1 in H. unfold PersonalityService.config_customInstructions, config in H.
  cbv beta iota zeta in H.
  unfold bind at 1 in H. unfold PersonalityService.config_name, config in H.
  cbv beta iota zeta in H.
  unfold bind at 1 in H. unfold PersonalityService.config_tone, config in H.
  cbv beta iota zeta in H.
  set (w0 := set_cache None w) in *.
  assert (Hfin : forall name sp profile w1,
             step w <= step w1 ->
             PersonalityService.save_and_cache name sp profile env w1 = (Ok out, w') ->
             pp_name profile = name ->
             exists n,
               step w' = S n /\ step w <= n /\
               cache w' = Some {| ce_value := out;
                                  ce_expiresAt := (Date_now env n + PersonalityService.ttl)%Z |} /\
               exists row,
                 In row (personality_rows w') /\
                 system_prompt row = bp_systemPrompt out /\
                 pers_name row = pp_name (bp_profile out)).
  { intros name sp profile w1 Hle Hs Hname. apply save_and_cache_inv in Hs.
    destruct Hs as (Hout & Hstep & Hcache & _ & row & Hin & Hsp & Hn & _).
    exists (3 + step w1). split; [rewrite Hstep; reflexivity|]. split; [lia|].
    split; [exact Hcache|]. exists row. subst out. simpl.
    split; [exact Hin|]. split; [exact Hsp|]. congruence. }
  destruct (truthy_str _).
  - eapply (Hfin _ _ _ w0); [simpl; lia | exact H | reflexivity].
  - apply bind_Ok in H. destruct H as (topItems & w1 & E1 & H).
    assert (Hle1 : step w <= step w1).
    { apply (adv_getTopItems 10) in E1. simpl in E1. exact E1. }
    destruct topItems as [|item items].
    + eapply (Hfin _ _ _ w1); [exact Hle1 | exact H | reflexivity].
    + apply bind_Ok in H. destruct H as (kbSummary & w2 & E2 & H).
      assert (Hle2 : step w1 <= step w2).
      { apply (adv_summarizeKnowledgeBase (item :: items)) in E2. exact E2. }
      eapply (Hfin _ _ _ w2); [lia | exact H | reflexivity].
Qed.

(** X20. After a [buildPersonality] that succeeded its output is in the
    store, as a record with that prompt and name, and [getPersonality] returns
    that output as long as no more than five minutes have passed since it was
    cached. *)
Theorem buildPersonality_then_getPersonality env w out w1 :
  AssistantAI.buildPersonality env w = (Ok out, w1) ->
  exists cachedAt,
    step w1 = S cachedAt /\
    ((Date_now env (step w1) <= Date_now env cachedAt + PersonalityService.ttl)%Z ->
     AssistantAI.getPersonality env w1 = (Ok out, set_step (S (step w1)) w1)) /\
    exists row,
      In row (personality_rows w1) /\
      system_prompt row = bp_systemPrompt out /\
      pers_name row = pp_name (bp_profile out).
Proof.
  unfold AssistantAI.buildPersonality. intros H.
  apply buildPersonality_inv in H.
  destruct H as (n & Hstep & _ & Hcache & Hrow).
  exists n. split; [exact Hstep|]. split; [|exact Hrow].
  intros Ht. unfold AssistantAI.getPersonality, PersonalityService.getPersonality, bind.
  rewrite cache_get_run, Hcache. simpl ce_expiresAt.
  replace (Z.ltb _ _) with false by (symmetry; apply Z.ltb_ge; exact Ht).
  reflexivity.
Qed.

(** X20 on an empty store: the personality built is the one read, and one
    record is stored. *)
Lemma buildPersonality_then_getPersonality_witness :
  exists out w1,
    AssistantAI.buildPersonality provider_up cold_start = (Ok out, w1) /\
    AssistantAI.getPersonality provider_up w1 = (Ok out, set_step (S (step w1)) w1) /\
    List.length (personality_rows w1) = 1.
Proof.
  destruct (AssistantAI.buildPersonality provider_up cold_start) as [[out|e] w1] eqn:E;
    [|vm_compute in E; discriminate E].
  destruct (buildPersonality_then_getPersonality provider_up cold_start out w1 E)
    as (cachedAt & Hstep & Hget & _).
  exists out, w1. split; [reflexivity|]. split.
  - apply Hget. change (Date_now provider_up) with (fun n : nat => Z.of_nat n).
    cbv beta. rewrite Hstep. unfold PersonalityService.ttl. lia.
  - vm_compute in E. injection E as _ <-. reflexivity.
Defined.

(** *** PersonalityRepository.get *)

Lemma get_run env w :
  PersonalityRepository.get_ env w =
  (match db_fault env (step w) with
   | Some m => Err ("Failed to get personality: " ++ m)
   | None =>
       match firstn 1 (descending last_built_at (personality_rows w)) with
       | [row] => Ok (Some (PersonalityRepository.mapRow row))
       | _ => Ok None
       end
   end, set_step (S (step w)) w).
Proof.
  unfold PersonalityRepository.get_, select_single, bind.
  destruct (db_fault env (step w)) as [m|] eqn:F.
  - rewrite (store_call_fault _ _ _ _ F). reflexivity.
  - rewrite (store_call_run _ _ _ F). simpl fst. simpl snd. unfold limit.
    change (rows (personality (store w))) with (personality_rows w).
    destruct (firstn 1 (descending last_built_at (personality_rows w))) as [|x [|y l]];
      reflexivity.
Qed.

(** X21. [PersonalityRepository.get] changes nothing in the store; it
    returns [null] only for an empty table, and otherwise a stored record that
    no other was built after. *)
Theorem personality_get_newest env w r w' :
  PersonalityRepository.get_ env w = (Ok r, w') ->
  store w' = store w /\
  match r with
  | None => personality_rows w = []
  | Some p =>
      exists row,
        In row (personality_rows w) /\ p = PersonalityRepository.mapRow row /\
        forall other, In other (personality_rows w) ->
                      (last_built_at other <= last_built_at row)%Z
  end.
Proof.
  rewrite get_run. intros H.
  destruct (db_fault env (step w)); [discriminate|].
  assert (Hperm : Permutation (descending last_built_at (personality_rows w))
                              (personality_rows w)) by apply sort_by_perm.
  assert (Hsorted : StronglySorted (fun a b => (last_built_at b <= last_built_at a)%Z)
                      (descending last_built_at (personality_rows w)))
    by apply descending_sorted.
  destruct (descending last_built_at (personality_rows w)) as [|x l] eqn:E.
  - simpl in H. injection H as <- <-. split; [reflexivity|].
    apply Permutation_nil. exact Hperm.
  - simpl in H. injection H as <- <-. split; [reflexivity|].
    exists x. split; [apply (Permutation_in _ Hperm); now left|].
    split; [reflexivity|]. intros other Hin.
    apply (Permutation_in _ (Permutation_sym Hperm)) in Hin.
    destruct Hin as [<-|Hin]; [lia|].
    inversion Hsorted as [|a b Hs Hall]; subst.
    rewrite Forall_forall in Hall. apply Hall. exact Hin.
Qed.

(** X21 after a personality is built on an empty store: the record read
    is the one built. *)
Lemma personality_get_newest_witness :
  exists p w',
    PersonalityRepository.get_ provider_up
      (snd (AssistantAI.buildPersonality provider_up cold_start)) = (Ok (Some p), w') /\
    p_name p = "AI Assistant" /\
    store w' = store (snd (AssistantAI.buildPersonality provider_up cold_start)).
Proof.
  destruct (PersonalityRepository.get_ provider_up
              (snd (AssistantAI.buildPersonality provider_up cold_start)))
    as [[r|e] w'] eqn:E; [|vm_compute in E; discriminate E].
  destruct (personality_get_newest provider_up _ r w' E) as (Hs & _).
  destruct r as [p|]; [|vm_compute in E; discriminate E].
  exists p, w'. split; [reflexivity|]. split; [|exact Hs].
  vm_compute in E. injection E as <- _. reflexivity.
Defined.

(** *** SetPersonality, then getPersonality *)

(** X22. When the store answers and holds no record under the nil uuid,
    after [setPersonality] the next [getPersonality] returns the system prompt
    given with the profile given, its name replaced by [AI Assistant] when it
    is missing or empty; the store then holds that one record. *)
Theorem setPersonality_then_getPersonality systemPrompt profile env w w1 :
  no_nil_record w ->
  db_fault env (step w) = None ->
  AssistantAI.setPersonality systemPrompt profile env w = (Ok tt, w1) ->
  db_fault env (step w1) = None ->
  exists w2,
    AssistantAI.getPersonality env w1
    = (Ok {| bp_systemPrompt := systemPrompt;
             bp_profile :=
               {| pp_name := match profile with
                             | Some p => if String.eqb (pp_name p) "" then "AI Assistant"
                                         else pp_name p
                             | None => "AI Assistant"
                             end;
                  pp_description := match profile with
                                    | Some p => pp_description p | None => None end;
                  pp_tone := match profile with Some p => pp_tone p | None => None end;
                  pp_domain := match profile with Some p => pp_domain p | None => None end
               |} |}, w2) /\
    store w2 = store w1 /\
    List.length (personality_rows w1) = 1.
Proof.
  intros Hnil F H F1.
  unfold AssistantAI.setPersonality, PersonalityService.setPersonality in H.
  unfold bind at 1 in H. unfold PersonalityService.cache_delete, modify in H.
  cbv beta iota zeta in H.
  apply bind_Ok in H. destruct H as (p & w' & E & H).
  unfold ret in H. injection H as <-.
  apply save_run_general in E. destruct E as (Hstep & Hcache & _ & Hp & Hrows & _).
  change (step (set_cache None w)) with (step w) in *.
  change (personality_rows (set_cache None w)) with (personality_rows w) in Hrows.
  change (store (set_cache None w)) with (store w) in *.
  rewrite F in Hrows.
  assert (Hkept : filter (fun r => String.eqb (pers_uuid r) PersonalityRepository.nil_uuid)
                         (personality_rows w) = []).
  { apply filter_none. intros r Hr. apply String.eqb_neq. exact (Hnil r Hr). }
  rewrite Hkept, app_nil_l in Hrows.
  unfold AssistantAI.getPersonality, PersonalityService.getPersonality.
  unfold bind at 1. rewrite cache_get_run, Hcache. simpl cache. cbv beta iota zeta.
  unfold bind at 1. rewrite get_run, F1.
  destruct profile as [pr|];
    (eexists; rewrite Hrows;
     unfold descending, sort_by; simpl fold_right; simpl firstn; cbv beta iota zeta;
     unfold PersonalityService.cache_set, new_Date, ask, modify, bind, ret;
     split; [reflexivity|]; split; reflexivity).
Qed.

(** X22 on an empty store: a prompt set without a profile is read back
    under the name [AI Assistant]. *)
Lemma setPersonality_then_getPersonality_witness :
  exists w1 out w2,
    AssistantAI.setPersonality "Answer in French." None provider_up cold_start = (Ok tt, w1) /\
    AssistantAI.getPersonality provider_up w1 = (Ok out, w2) /\
    bp_systemPrompt out = "Answer in French." /\
    pp_name (bp_profile out) = "AI Assistant".
Proof.
  destruct (AssistantAI.setPersonality "Answer in French." None provider_up cold_start)
    as [[[]|e] w1] eqn:E; [|vm_compute in E; discriminate E].
  destruct (setPersonality_then_getPersonality "Answer in French." None provider_up
              cold_start w1 cold_start_no_nil eq_refl E eq_refl) as (w2 & Hget & _).
  exists w1. eexists. exists w2. split; [reflexivity|]. split; [exact Hget|].
  split; reflexivity.
Defined.

(** *** Init *)

Lemma getPersonality_ok_record env w out w' :
  cache w = None ->
  PersonalityService.getPersonality env w = (Ok out, w') ->
  personality_rows w' <> [].
Proof.
  intros Hc H. unfold PersonalityService.getPersonality in H.
  unfold bind at 1 in H. rewrite cache_get_run, Hc in H.
  apply bind_Ok in H. destruct H as (existing & w1 & E & H).
  destruct existing as [p|].
  - unfold PersonalityService.cache_set, new_Date, ask, modify, bind, ret in H.
    injection H as _ <-.
    rewrite get_run in E. destruct (db_fault env (step w)); [discriminate|].
    injection E as E <-.
    change (personality_rows w <> []). intros Hempty. rewrite Hempty in E.
    discriminate.
  - apply buildPersonality_inv in H. destruct H as (_ & _ & _ & _ & row & Hin & _).
    intros Hempty. rewrite Hempty in Hin. destruct Hin.
Qed.

(** X23. [init] touches no conversation, message or knowledge item. Once
    the assistant is initialised it does nothing at all. Before that, a success
    marks the assistant initialised and, the cache being empty, leaves a
    personality record in the store; a failure leaves it not initialised, so
    that the next call tries again. *)
Theorem init_ensures_personality env w r w' :
  AssistantAI.init env w = (r, w') ->
  conversation_rows w' = conversation_rows w /\
  message_rows w' = message_rows w /\
  knowledge_rows w' = knowledge_rows w /\
  if initialized w
  then r = Ok tt /\ w' = w
  else match r with
       | Ok _ => initialized w' = true /\ (cache w = None -> personality_rows w' <> [])
       | Err _ => initialized w' = false
       end.
Proof.
  intros H.
  destruct init_keeps_chat as (Kc & Km).
  split; [exact (Kc _ _ _ _ H)|]. split; [exact (Km _ _ _ _ H)|].
  split; [pose proof H as Hk; use_keeps knowledge_rows Hk; assumption|].
  unfold AssistantAI.init in H. unfold bind at 1 in H. unfold get in H.
  destruct (initialized w) eqn:Hi.
  - unfold ret in H. injection H as <- <-. split; reflexivity.
  - apply bind_inv in H. destruct H as [(u & w1 & E & H) | (e & H & ->)].
    + unfold modify in H. injection H as <- <-. split; [reflexivity|].
      intros Hc. change (personality_rows w1 <> []).
      unfold try_catch in E.
      destruct (bind PersonalityService.getPersonality _ env w) as [[u0|e] w2] eqn:E1.
      * injection E as _ <-.
        apply bind_Ok in E1. destruct E1 as (out & w3 & E1 & E2).
        unfold ret in E2. injection E2 as _ <-.
        exact (getPersonality_ok_record _ _ _ _ Hc E1).
      * apply bind_Ok in E. destruct E as (out & w3 & E & E2).
        unfold ret in E2. injection E2 as _ <-.
        apply buildPersonality_inv in E. destruct E as (_ & _ & _ & _ & row & Hin & _).
        intros Hempty. rewrite Hempty in Hin. destruct Hin.
    + unfold try_catch in H.
      destruct (bind PersonalityService.getPersonality _ env w) as [[u0|e0] w2] eqn:E1;
        [discriminate|].
      assert (K1 : initialized w2 = initialized w).
      { apply bind_inv in E1. destruct E1 as [(out & w3 & E1 & E2) | (e1 & E1 & _)].
        - discriminate.
        - use_keeps initialized E1. assumption. }
      apply bind_inv in H. destruct H as [(out & w3 & E & E2) | (e1 & H & _)].
      * discriminate.
      * use_keeps initialized H. congruence.
Qed.

(** X23 on an empty store: the first [init] stores a personality. *)
Lemma init_ensures_personality_witness :
  exists w',
    AssistantAI.init provider_up cold_start = (Ok tt, w') /\
    initialized w' = true /\
    personality_rows w' <> [] /\
    message_rows w' = [].
Proof.
  destruct (AssistantAI.init provider_up cold_start) as [[[]|e] w'] eqn:E;
    [|vm_compute in E; discriminate E].
  destruct (init_ensures_personality provider_up cold_start (Ok tt) w' E)
    as (_ & Hm & _ & Hi & Hp).
  exists w'. split; [reflexivity|]. split; [exact Hi|]. split; [exact (Hp eq_refl)|exact Hm].
Defined.

(** *** Where the system prompt comes from *)

Lemma getTopItems_inv limit_ env w items w' :
  getTopItems limit_ env w = (Ok items, w') ->
  w' = set_step (S (step w)) w /\
  (items = [] <-> limit_ = 0 \/ knowledge_rows w = []).
Proof.
  unfold getTopItems, KnowledgeRepository.listRecent. intros H.
  apply bind_Ok in H. destruct H as (found & w1 & H & Hr).
  apply bind_Ok in H. destruct H as (answer & w2 & E & H).
  destruct answer as [data|error]; [|discriminate].
  unfold ret in H, Hr. injection H as <- <-. injection Hr as <- <-.
  unfold select in E.
  destruct (db_fault env (step w)) as [m|] eqn:F.
  - rewrite (store_call_fault _ _ _ _ F) in E. discriminate.
  - rewrite (store_call_run _ _ _ F) in E. injection E as <- <-.
    split; [reflexivity|]. unfold limit.
    assert (Hperm : Permutation (descending know_created_at (knowledge_rows w))
                                (knowledge_rows w)) by apply sort_by_perm.
    change (rows (knowledge_items (store w))) with (knowledge_rows w).
    destruct (descending know_created_at (knowledge_rows w)) as [|x l] eqn:Ed.
    + apply Permutation_nil in Hperm. rewrite firstn_nil. simpl. tauto.
    + destruct limit_ as [|n]; simpl; split; intros Hx; auto; try discriminate.
      destruct Hx as [Hx|Hx]; [discriminate|]. rewrite Hx in Hperm.
      apply Permutation_sym, Permutation_nil in Hperm. discriminate.
Qed.

Lemma summarizeKnowledgeBase_run item items env w :
  exists request,
    AIService.summarizeKnowledgeBase (item :: items) env w =
    (match chat_create env (step w) with
     | Ok content => Ok (or_default content "General purpose assistant.")
     | Err message => Err message
     end,
     set_step (S (step w)) (set_requests (requests w ++ [req_chat false request]) w)) /\
    List.length request = 2.
Proof.
  eexists. split.
  - unfold AIService.summarizeKnowledgeBase, bind, send, modify, ask. cbv beta iota zeta.
    cbn [step set_requests].
    destruct (chat_create env (step w)); reflexivity.
  - reflexivity.
Qed.

(** X24. The system prompt that [buildPersonality] returns: the custom
    instructions of the configuration when there are any, without a request
    to the model and after four requests to the store; else, for an empty
    knowledge base, the generic prompt, without a request to the model; else
    the prompt made of a summary of the knowledge, which is not empty, is
    obtained by one chat request of two messages and is also the description
    of the profile. The name is the configured one, or [AI Assistant]. *)
Theorem buildPersonality_prompt_source env w out w' :
  AssistantAI.buildPersonality env w = (Ok out, w') ->
  let configured field :=
    match defaultPersonality env with Some d => field d | None => None end in
  let name := or_default (configured cfg_name) "AI Assistant" in
  pp_name (bp_profile out) = name /\
  if truthy_str (configured cfg_customInstructions)
  then configured cfg_customInstructions = Some (bp_systemPrompt out) /\
       requests w' = requests w /\
       step w' = 4 + step w
  else match knowledge_rows w with
       | [] => bp_systemPrompt out = PersonalityService.buildGenericSystemPrompt name /\
               requests w' = requests w
       | _ :: _ =>
           exists summary request,
             summary <> "" /\
             bp_systemPrompt out
             = PersonalityService.buildKnowledgeBasedSystemPrompt name summary /\
             pp_description (bp_profile out) = Some summary /\
             requests w' = requests w ++ [req_chat false request] /\
             List.length request = 2
       end.
Proof.
  intros H configured name.
  unfold AssistantAI.buildPersonality, PersonalityService.buildPersonality in H.
  unfold bind at 1 in H. unfold PersonalityService.cache_delete, modify in H.
  cbv beta iota zeta in H.
  unfold bind at 1 in H. unfold PersonalityService.config_customInstructions, config in H.
  cbv beta iota zeta in H.
  unfold bind at 1 in H. unfold PersonalityService.config_name, config in H.
  cbv beta iota zeta in H.
  unfold bind at 1 in H. unfold PersonalityService.config_tone, config in H.
  cbv beta iota zeta in H.
  change (match defaultPersonality env with
          | Some d => cfg_customInstructions d | None => None end)
    with (configured cfg_customInstructions) in H.
  change (or_default match defaultPersonality env with
                     | Some d => cfg_name d | None => None end "AI Assistant")
    with name in H.
  destruct (truthy_str (configured cfg_customInstructions)) eqn:Hcustom.
  - apply save_and_cache_inv in H. destruct H as (-> & Hstep & _ & Hreq & _).
    simpl. split; [reflexivity|]. split; [|split; [exact Hreq | exact Hstep]].
    unfold truthy_str in Hcustom. unfold or_default.
    destruct (configured cfg_customInstructions) as [x|]; [|discriminate].
    destruct (String.eqb x ""); [discriminate | reflexivity].
  - apply bind_Ok in H. destruct H as (topItems & w1 & E1 & H).
    apply getTopItems_inv in E1. destruct E1 as (-> & Hempty).
    change (knowledge_rows (set_cache None w)) with (knowledge_rows w) in Hempty.
    destruct topItems as [|item items].
    + apply save_and_cache_inv in H. destruct H as (-> & _ & _ & Hreq & _).
      simpl. split; [reflexivity|].
      destruct (knowledge_rows w) as [|row rows0] eqn:Ek.
      * split; [reflexivity | exact Hreq].
      * destruct (proj1 Hempty eq_refl) as [Hx|Hx]; discriminate.
    + destruct (knowledge_rows w) as [|row rows0] eqn:Ek.
      * pose proof (proj2 Hempty (or_intror eq_refl)). discriminate.
      * apply bind_Ok in H. destruct H as (kbSummary & w2 & E2 & H).
        destruct (summarizeKnowledgeBase_run item items env
                    (set_step (S (step (set_cache None w))) (set_cache None w)))
          as (request & Erun & Hlen).
        rewrite Erun in E2.
        apply save_and_cache_inv in H. destruct H as (-> & _ & _ & Hreq & _).
        simpl. split; [reflexivity|].
        exists kbSummary, request.
        destruct (chat_create env _) as [content|e]; [|discriminate].
        injection E2 as <- <-.
        split; [apply or_default_not_empty; discriminate|].
        split; [reflexivity|]. split; [reflexivity|]. split; [exact Hreq | exact Hlen].
Qed.

(** X24 on an empty store without configuration: the generic prompt, and
    no request. *)
Lemma buildPersonality_prompt_source_witness :
  exists out w',
    AssistantAI.buildPersonality provider_up cold_start = (Ok out, w') /\
    bp_systemPrompt out = PersonalityService.buildGenericSystemPrompt "AI Assistant" /\
    requests w' = [].
Proof.
  destruct (AssistantAI.buildPersonality provider_up cold_start) as [[out|e] w'] eqn:E;
    [|vm_compute in E; discriminate E].
  destruct (buildPersonality_prompt_source provider_up cold_start out w' E) as (_ & H).
  exists out, w'. split; [reflexivity|]. exact H.
Defined.

(* ------------------------------------------------------------------ *)
(** ** Message feedback *)
(* ------------------------------------------------------------------ *)

(** *** Message feedback *)

Lemma feedback_create_run messageId userId rating options env fw :
  let w := app fw in
  let t := message_feedback fw in
  FeedbackRepository.create messageId userId rating options env fw =
  match db_fault env (step w) with
  | Some m => (Err ("Message not found: " ++ m),
               {| app := set_step (S (step w)) w; message_feedback := t |})
  | None =>
      match MessageRepository.by_uuid messageId (store w) with
      | [msgData] =>
          let row :=
            {| fb_id := next_id t; fb_uuid := gen_random_uuid env (S (S (step w)));
               fb_message_id := msg_id msgData;
               fb_user_id := userId;
               fb_rating := rating;
               fb_category := match options with Some o => fo_category o | None => None end;
               fb_comment := match options with Some o => fo_comment o | None => None end;
               fb_suggested_improvement :=
                 match options with Some o => fo_suggestedImprovement o | None => None end;
               fb_created_at := Date_now env (S (step w)) |} in
          match db_fault env (S (S (step w))) with
          | Some m => (Err ("Failed to create feedback: " ++ m),
                       {| app := set_step (S (S (S (step w)))) w; message_feedback := t |})
          | None =>
              if existsb (fun r => Z.eqb (fb_id r) (fb_id row)
                                   || String.eqb (fb_uuid r) (fb_uuid row)) (rows t)
              then (Err "Failed to create feedback: duplicate key value violates unique constraint",
                    {| app := set_step (S (S (S (step w)))) w;
                       message_feedback := {| rows := rows t; next_id := next_id t + 1 |} |})
              else (Ok (FeedbackRepository.mapRow row messageId),
                    {| app := set_step (S (S (S (step w)))) w;
                       message_feedback :=
                         {| rows := rows t ++ [row]; next_id := next_id t + 1 |} |})
          end
      | _ => (Err "Message not found: JSON object requested, multiple (or no) rows returned",
              {| app := set_step (S (step w)) w; message_feedback := t |})
      end
  end.
Proof.
  intros w t. subst w t.
  unfold FeedbackRepository.create, bindF, lift, select_single.
  destruct (db_fault env (step (app fw))) as [m|] eqn:F.
  - rewrite (store_call_fault _ _ _ _ F). reflexivity.
  - rewrite (store_call_run _ _ _ F). cbv beta iota zeta. simpl fst. simpl snd.
    destruct (MessageRepository.by_uuid messageId (store (app fw))) as [|msgData [|y l]];
      try reflexivity.
    unfold new_Date, ask, feedback_call, throwF, retF.
    cbn [single fst snd]. cbv beta iota zeta.
    cbn [app message_feedback step set_step set_store store].
    destruct (db_fault env (S (S (step (app fw))))) as [m2|] eqn:F2; [reflexivity|].
    match goal with |- context [existsb ?p ?l] => destruct (existsb p l) end; reflexivity.
Qed.

(** X25. [submitFeedback] never changes the conversations, messages,
    knowledge items or personality. When it succeeds it has added exactly one
    feedback row, with a uuid no other feedback has, keyed to the single
    message of the given uuid, and returns it with that message id, the given
    user, rating and comment. When it fails no feedback is stored, and if no
    single message carries the uuid the error is [Message not found: ...]. *)
Theorem submitFeedback_effect messageId userId rating options env fw r fw' :
  AssistantAI.submitFeedback messageId userId rating options env fw = (r, fw') ->
  store (app fw') = store (app fw) /\
  match r with
  | Ok f =>
      exists msg row,
        MessageRepository.by_uuid messageId (store (app fw)) = [msg] /\
        feedback_rows fw' = feedback_rows fw ++ [row] /\
        fb_message_id row = msg_id msg /\
        (forall old, In old (feedback_rows fw) -> fb_uuid old <> fb_uuid row) /\
        f = FeedbackRepository.mapRow row messageId /\
        f_messageId f = messageId /\ f_userId f = userId /\ f_rating f = rating /\
        f_comment f = match options with Some o => fo_comment o | None => None end
  | Err e =>
      feedback_rows fw' = feedback_rows fw /\
      ((forall msg, MessageRepository.by_uuid messageId (store (app fw)) <> [msg]) ->
       exists reason, e = ("Message not found: " ++ reason)%string)
  end.
Proof.
  unfold AssistantAI.submitFeedback. rewrite feedback_create_run. cbv zeta.
  destruct (db_fault env (step (app fw))) as [m|].
  - intros H. injection H as <- <-. split; [reflexivity|]. split; [reflexivity|].
    intros _. eexists. reflexivity.
  - destruct (MessageRepository.by_uuid messageId (store (app fw))) as [|msgData [|y l]].
    + intros H. injection H as <- <-. split; [reflexivity|]. split; [reflexivity|].
      intros _. eexists. reflexivity.
    + destruct (db_fault env (S (S (step (app fw))))) as [m2|].
      * intros H. injection H as <- <-. split; [reflexivity|]. split; [reflexivity|].
        intros Hnone. elim (Hnone msgData). reflexivity.
      * match goal with |- context [existsb ?p ?l] => destruct (existsb p l) eqn:Ex end.
        -- intros H. injection H as <- <-. split; [reflexivity|]. split; [reflexivity|].
           intros Hnone. elim (Hnone msgData). reflexivity.
        -- intros H. injection H as <- <-. split; [reflexivity|].
           eexists. eexists. split; [reflexivity|]. split; [reflexivity|].
           split; [reflexivity|]. split; [|repeat split].
           intros old Hold. pose proof (existsb_false_fresh _ _ Ex old Hold) as Hf.
           apply orb_false_elim in Hf. destruct Hf as (_ & Hf).
           apply String.eqb_neq. exact Hf.
    + intros H. injection H as <- <-. split; [reflexivity|]. split; [reflexivity|].
      intros _. eexists. reflexivity.
Qed.

(** X25 on [no_feedback]: feedback on [m2] is stored under the key of
    [m2]; feedback on an unknown message fails. *)
Lemma submitFeedback_effect_witness :
  exists f fw',
    AssistantAI.submitFeedback "m2" "u1" negative None provider_up no_feedback = (Ok f, fw') /\
    store (app fw') = store four_conversations /\
    map fb_message_id (feedback_rows fw') = [2%Z] /\
    fst (AssistantAI.submitFeedback "m9" "u1" negative None provider_up no_feedback)
    = Err "Message not found: JSON object requested, multiple (or no) rows returned".
Proof.
  destruct (AssistantAI.submitFeedback "m2" "u1" negative None provider_up no_feedback)
    as [[f|e] fw'] eqn:E; [|vm_compute in E; discriminate E].
  destruct (submitFeedback_effect "m2" "u1" negative None provider_up no_feedback (Ok f) fw' E)
    as (Hs & _).
  exists f, fw'. split; [reflexivity|]. split; [exact Hs|].
  vm_compute in E. injection E as <- <-. split; reflexivity.
Defined.

Lemma getByMessage_run messageId env fw :
  FeedbackRepository.getByMessage messageId env fw =
  match db_fault env (step (app fw)) with
  | Some m => (Err ("Message not found: " ++ m),
               {| app := set_step (S (step (app fw))) (app fw);
                  message_feedback := message_feedback fw |})
  | None =>
      match MessageRepository.by_uuid messageId (store (app fw)) with
      | [msgData] =>
          (match db_fault env (S (step (app fw))) with
           | Some m => Err ("Failed to get feedback: " ++ m)
           | None =>
               Ok (map (fun row => FeedbackRepository.mapRow row messageId)
                       (descending fb_created_at
                          (filter (fun r => Z.eqb (fb_message_id r) (msg_id msgData))
                                  (feedback_rows fw))))
           end,
           {| app := set_step (S (S (step (app fw)))) (app fw);
              message_feedback := message_feedback fw |})
      | _ => (Err "Message not found: JSON object requested, multiple (or no) rows returned",
              {| app := set_step (S (step (app fw))) (app fw);
                 message_feedback := message_feedback fw |})
      end
  end.
Proof.
  unfold FeedbackRepository.getByMessage, bindF, lift, select_single.
  destruct (db_fault env (step (app fw))) as [m|] eqn:F.
  - rewrite (store_call_fault _ _ _ _ F). reflexivity.
  - rewrite (store_call_run _ _ _ F). cbv beta iota zeta. simpl fst. simpl snd.
    destruct (MessageRepository.by_uuid messageId (store (app fw))) as [|msgData [|y l]];
      try reflexivity.
    unfold feedback_call, throwF, retF.
    cbn [single fst snd]. cbv beta iota zeta.
    cbn [app message_feedback step set_step set_store store].
    destruct (db_fault env (S (step (app fw)))) as [m2|] eqn:F2; reflexivity.
Qed.



Lemma getByUser_run userId limit_ env fw :
  FeedbackRepository.getByUser userId limit_ env fw =
  (match db_fault env (step (app fw)) with
   | Some m => Err ("Failed to get user feedback: " ++ m)
   | None =>
       Ok (map (fun data => FeedbackRepository.mapRow (fst data) (msg_uuid (snd data)))
               (firstn limit_
                  (descending (fun data => fb_created_at (fst data))
                     (FeedbackRepository.joined_of_user userId (store (app fw))
                                                        (message_feedback fw)))))
   end,
   {| app := set_step (S (step (app fw))) (app fw);
      message_feedback := message_feedback fw |}).
Proof.
  unfold FeedbackRepository.getByUser, bindF, feedback_call, throwF, retF.
  cbv beta iota zeta.
  destruct (db_fault env (step (app fw))) as [m|]; reflexivity.
Qed.

(** X27. [getUserFeedback] changes nothing and returns at most [limit]
    entries, 50 when no limit is given, the latest first, each of them the
    stored feedback of the given user on a stored message, named by the uuid
    of that message. *)
Theorem getUserFeedback_of_user userId limit_ env fw listed fw' :
  AssistantAI.getUserFeedback userId limit_ env fw = (Ok listed, fw') ->
  List.length listed <= match limit_ with Some n => n | None => 50 end /\
  StronglySorted (fun a b => (f_createdAt b <= f_createdAt a)%Z) listed /\
  (forall g, In g listed ->
             f_userId g = userId /\
             exists row msg,
               In row (feedback_rows fw) /\ In msg (message_rows (app fw)) /\
               fb_message_id row = msg_id msg /\
               g = FeedbackRepository.mapRow row (msg_uuid msg)) /\
  message_feedback fw' = message_feedback fw /\
  store (app fw') = store (app fw).
Proof.
  unfold AssistantAI.getUserFeedback. rewrite getByUser_run.
  destruct (db_fault env (step (app fw))); [discriminate|].
  intros H. injection H as <- <-.
  set (joined := FeedbackRepository.joined_of_user userId (store (app fw))
                                                   (message_feedback fw)).
  assert (Hperm : Permutation (descending (fun data => fb_created_at (fst data)) joined)
                              joined) by apply sort_by_perm.
  assert (Hsorted : StronglySorted
                      (fun a b => (fb_created_at (fst b) <= fb_created_at (fst a))%Z)
                      (descending (fun data => fb_created_at (fst data)) joined))
    by apply (descending_sorted (fun data : FeedbackRow * MessageRow => fb_created_at (fst data))).
  split; [rewrite length_map, length_firstn; lia|].
  split; [apply StronglySorted_map; apply StronglySorted_firstn; exact Hsorted|].
  split; [|split; reflexivity].
  intros g Hg. apply in_map_iff in Hg. destruct Hg as ((row & msg) & <- & Hin).
  apply In_firstn in Hin. apply (Permutation_in _ Hperm) in Hin.
  unfold joined, FeedbackRepository.joined_of_user in Hin.
  apply in_flat_map in Hin. destruct Hin as (r & Hr & Hin).
  apply in_map_iff in Hin. destruct Hin as (m & Hpair & Hm).
  injection Hpair as -> ->.
  apply filter_In in Hr. destruct Hr as (Hr & Hu). apply String.eqb_eq in Hu.
  apply filter_In in Hm. destruct Hm as (Hm & Hid). apply Z.eqb_eq in Hid.
  split; [exact Hu|]. exists row, msg. repeat split; auto.
Qed.

(** X27 after [u1] gave feedback on [m2]: that feedback is the list of
    [u1]. *)
Lemma getUserFeedback_of_user_witness :
  exists listed fw',
    AssistantAI.getUserFeedback "u1" None provider_up
      (snd (AssistantAI.submitFeedback "m2" "u1" negative None provider_up no_feedback))
    = (Ok listed, fw') /\
    map f_messageId listed = ["m2"] /\
    List.length listed <= 50.
Proof.
  destruct (AssistantAI.getUserFeedback "u1" None provider_up
              (snd (AssistantAI.submitFeedback "m2" "u1" negative None provider_up
                      no_feedback))) as [[listed|e] fw'] eqn:E;
    [|vm_compute in E; discriminate E].
  destruct (getUserFeedback_of_user "u1" None provider_up _ listed fw' E) as (Hlen & _).
  exists listed, fw'. split; [reflexivity|]. split; [|exact Hlen].
  vm_compute in E. injection E as <- _. reflexivity.
Defined.

(* ------------------------------------------------------------------ *)
(** ** The chunks of the embedding script *)
(* ------------------------------------------------------------------ *)

Import EmbeddingScript.

Lemma total_size_cons (x : string) (a : list string) :
  total_size (x :: a) = (lineSize x + total_size a)%Z.
Proof. reflexivity. Qed.

Lemma total_size_app (a b : list string) :
  total_size (a ++ b) = (total_size a + total_size b)%Z.
Proof.
  induction a as [|x a IH]; cbn [List.app].
  - reflexivity.
  - rewrite !total_size_cons, IH. lia.
Qed.

Lemma total_size_last (a : list string) (x : string) :
  total_size (a ++ [x]) = (total_size a + lineSize x)%Z.
Proof. rewrite total_size_app, total_size_cons. cbn. lia. Qed.

Lemma total_size_nonneg (a : list string) : (0 <= total_size a)%Z.
Proof.
  induction a as [|x a IH].
  - cbn. lia.
  - rewrite total_size_cons. unfold lineSize. lia.
Qed.

Lemma overlap_from_inv (overlap : Z) (backwards : list string) :
  forall acc sz res sz',
    overlap_from overlap backwards acc sz = (res, sz') ->
    exists taken rest,
      backwards = taken ++ rest /\ res = rev taken ++ acc /\
      sz' = (sz + total_size taken)%Z /\
      (taken = [] \/ (sz' <= overlap)%Z).
Proof.
  induction backwards as [|l before IH]; intros acc sz res sz' H; cbn [overlap_from] in H.
  - injection H as <- <-. exists [], []. cbn. repeat split; try lia. now left.
  - destruct (Z.leb_spec (sz + Z.of_nat (String.length l) + 1) overlap) as [Hle|Hgt].
    + destruct (IH _ _ _ _ H) as (taken & rest & -> & -> & -> & Hb).
      exists (l :: taken), rest. cbn [List.app rev]. rewrite total_size_cons.
      unfold lineSize. rewrite <- app_assoc. cbn [List.app]. repeat split; try lia.
      right. destruct Hb as [-> | Hb]; [cbn; lia | lia].
    + injection H as <- <-. exists [], (l :: before). cbn. repeat split; try lia. now left.
Qed.

(** The overlap kept from a chunk: its last lines, of a size within
    [overlap] unless none is kept. *)
Lemma overlap_from_suffix (overlap : Z) (cur : list string) res sz' :
  overlap_from overlap (rev cur) [] 0 = (res, sz') ->
  exists before, cur = before ++ res /\ sz' = total_size res /\
                 (sz' <= Z.max 0 overlap)%Z.
Proof.
  intros H. destruct (overlap_from_inv _ _ _ _ _ _ H) as (taken & rest & E & -> & -> & Hb).
  rewrite app_nil_r. exists (rev rest). split; [|split].
  - rewrite <- rev_app_distr, <- E. symmetry. apply rev_involutive.
  - clear. rewrite Z.add_0_l. induction taken as [|x t IH]; [reflexivity|].
    cbn [rev]. rewrite total_size_last, total_size_cons. lia.
  - destruct Hb as [-> | Hb]; [cbn; lia | lia].
Qed.

Section Chunks.

Variable cfg : Config.
Variables fileId fileName : string.

Lemma well_formed_more (lines more : list string) (c : Chunk) :
  well_formed fileId fileName lines c -> well_formed fileId fileName (lines ++ more) c.
Proof.
  intros (mid & Hne & (pre & post & -> & Hs & He) & Hrest).
  exists mid. split; [exact Hne|]. split; [|exact Hrest].
  exists pre, (post ++ more). rewrite <- !app_assoc. auto.
Qed.

Lemma covered_more (cs : list Chunk) (c : Chunk) (k : Z) :
  covered cs k -> covered (cs ++ [c]) k.
Proof. intros H. apply Exists_app. now left. Qed.

Lemma StronglySorted_snoc {A : Type} (R : A -> A -> Prop) (l : list A) (x : A) :
  StronglySorted R l -> Forall (fun y => R y x) l -> StronglySorted R (l ++ [x]).
Proof.
  induction 1 as [|y l Hs IH Hy]; intros Hall; cbn [List.app].
  - constructor; constructor.
  - inversion Hall as [|? ? Hyx Hall']; subst.
    constructor; [now apply IH|].
    apply Forall_app. split; [exact Hy | constructor; [exact Hyx | constructor]].
Qed.

Lemma chunk_of_well_formed (before : list string) (st : Loop) :
  currentChunk st <> [] ->
  start st = Z.of_nat (List.length before) ->
  currentSize st = total_size (currentChunk st) ->
  well_formed fileId fileName (before ++ currentChunk st)
    (chunk_of fileId fileName st (Z.of_nat (List.length (before ++ currentChunk st)) - 1)).
Proof.
  intros Hne Hs Hsz. exists (currentChunk st). split; [exact Hne|].
  split; [|cbn; auto].
  exists before, []. rewrite app_nil_r. cbn [chunk_of startLine endLine].
  rewrite length_app. auto.
Qed.

(** One turn of the loop. *)
Lemma loop_step (done : list string) (st : Loop) (line : string) (rest : list string) :
  loop_invariant fileId fileName done st ->
  exists st',
    loop cfg fileId fileName (line :: rest) (Z.of_nat (List.length done)) st =
    loop cfg fileId fileName rest (Z.of_nat (List.length (done ++ [line]))) st' /\
    loop_invariant fileId fileName (done ++ [line]) st' /\
    currentChunk st' <> [].
Proof.
  intros (before & Hd & Hstart & Hsz & Hidx & Hseq & Hwf & Hbd & Hsorted & Hcov).
  assert (Hlen : Z.of_nat (List.length (done ++ [line])) = (Z.of_nat (List.length done) + 1)%Z)
    by (rewrite length_app; cbn [List.length]; lia).
  cbn [loop].
  destruct (Z.ltb (chunkSize cfg) (currentSize st + lineSize line)
            && negb (is_empty (currentChunk st))) eqn:Hcond.
  - (* the chunk is saved *)
    apply andb_true_iff in Hcond. destruct Hcond as [_ Hne].
    assert (Hne' : currentChunk st <> [])
      by (destruct (currentChunk st); [discriminate Hne | discriminate]).
    destruct (overlap_from (chunkOverlap cfg) (rev (currentChunk st)) [] 0)
      as [overlapLines overlapSize] eqn:Hov.
    destruct (overlap_from_suffix _ _ _ _ Hov) as (kept & Hcur & Hosz & _).
    eexists. split; [rewrite Hlen; reflexivity|]. cbn [chunks currentChunk currentSize chunkIndex start].
    split; [|now destruct overlapLines].
    assert (Hcl : List.length (currentChunk st) = List.length kept + List.length overlapLines)
      by (rewrite Hcur at 1; apply length_app).
    assert (Hdl : List.length done = List.length before + List.length (currentChunk st))
      by (rewrite Hd at 1; apply length_app).
    assert (Hpos : 0 < List.length (currentChunk st))
      by (destruct (currentChunk st); [contradiction | cbn; lia]).
    exists (before ++ kept). cbn [chunks currentChunk currentSize chunkIndex start].
    split; [rewrite Hd at 1; rewrite Hcur at 1; now rewrite <- !app_assoc|].
    split; [rewrite length_app; lia|].
    split; [rewrite total_size_last; lia|].
    split; [rewrite length_app; cbn [List.length]; lia|].
    split; [rewrite map_app, length_app, seq_app, Hseq; cbn [map chunk_of chunk_index List.length seq plus];
            now rewrite Hidx|].
    split.
    { apply Forall_app. split.
      - eapply Forall_impl; [|exact Hwf]. intros c. apply well_formed_more.
      - constructor; [|constructor]. apply well_formed_more.
        rewrite Hd. apply chunk_of_well_formed; assumption. }
    split.
    { apply Forall_app. split.
      - eapply Forall_impl; [|exact Hbd]. cbv beta. intros c [H1 H2]. lia.
      - constructor; [|constructor]. cbn [chunk_of startLine endLine]. lia. }
    split.
    { apply StronglySorted_snoc; [exact Hsorted|].
      eapply Forall_impl; [|exact Hbd]. cbv beta. intros c [H1 H2].
      unfold moves_on. cbn [chunk_of startLine endLine]. lia. }
    intros k Hk.
    destruct (Z.lt_ge_cases k (start st)) as [Hlt|Hge].
    + apply covered_more. apply Hcov. lia.
    + apply Exists_app. right. constructor. cbn [chunk_of startLine endLine]. lia.
  - (* the line joins the chunk *)
    eexists. split; [rewrite Hlen; reflexivity|]. cbn [chunks currentChunk currentSize chunkIndex start].
    split; [|now destruct (currentChunk st)].
    exists before. cbn [chunks currentChunk currentSize chunkIndex start].
    split; [rewrite Hd at 1; now rewrite <- app_assoc|].
    split; [exact Hstart|].
    split; [rewrite total_size_last; lia|].
    split; [exact Hidx|]. split; [exact Hseq|].
    split; [eapply Forall_impl; [|exact Hwf]; intros c; apply well_formed_more|].
    split; [eapply Forall_impl; [|exact Hbd]; cbv beta; intros c [H1 H2]; lia|].
    split; [exact Hsorted | exact Hcov].
Qed.

Lemma loop_keeps_invariant (lines : list string) :
  forall done st,
    loop_invariant fileId fileName done st ->
    loop_invariant fileId fileName (done ++ lines)
      (loop cfg fileId fileName lines (Z.of_nat (List.length done)) st) /\
    (lines <> [] ->
     currentChunk (loop cfg fileId fileName lines (Z.of_nat (List.length done)) st) <> []).
Proof.
  induction lines as [|line rest IH]; intros done st Hinv.
  - rewrite app_nil_r. split; [exact Hinv | congruence].
  - destruct (loop_step done st line rest Hinv) as (st' & -> & Hinv' & Hne).
    destruct (IH _ _ Hinv') as [H1 H2]. rewrite <- app_assoc in H1. cbn [List.app] in H1.
    split; [exact H1|]. intros _.
    destruct rest as [|l r]; [exact Hne | apply H2; discriminate].
Qed.

Lemma split_lines_not_empty (content : string) :
  forall line, split_lines content line <> [].
Proof.
  induction content as [|c rest IH]; intros line; cbn [split_lines].
  - discriminate.
  - destruct (Ascii.eqb c (ascii_of_nat 10)); [discriminate | apply IH].
Qed.

(** What [createChunks] returns, in the terms of the invariant. *)
Lemma createChunks_inv (content : string) :
  let lines := split_lines content [] in
  let cs := createChunks cfg content fileId fileName in
  cs <> [] /\
  map chunk_index cs = seq 0 (List.length cs) /\
  Forall (well_formed fileId fileName lines) cs /\
  StronglySorted moves_on cs /\
  (forall k, (0 <= k < Z.of_nat (List.length lines))%Z -> covered cs k).
Proof.
  intros lines cs. subst cs. unfold createChunks. fold lines.
  set (st0 := {| chunks := []; currentChunk := []; currentSize := 0;
                 chunkIndex := 0; start := 0 |}).
  assert (H0 : loop_invariant fileId fileName [] st0).
  { exists []. cbn. repeat split; auto; try constructor. intros k Hk. lia. }
  destruct (loop_keeps_invariant lines [] st0 H0) as [Hinv Hne].
  cbn [List.length List.app] in Hinv, Hne. change (Z.of_nat 0) with 0%Z in Hinv, Hne.
  specialize (Hne (split_lines_not_empty content [])).
  set (st := loop cfg fileId fileName lines 0 st0) in *.
  destruct Hinv as (before & Hd & Hstart & Hsz & Hidx & Hseq & Hwf & Hbd & Hsorted & Hcov).
  assert (He : is_empty (currentChunk st) = false)
    by (destruct (currentChunk st); [contradiction | reflexivity]).
  rewrite He. cbn [negb].
  assert (Hdl : List.length lines = List.length before + List.length (currentChunk st))
    by (rewrite Hd at 1; apply length_app).
  assert (Hpos : 0 < List.length (currentChunk st))
    by (destruct (currentChunk st); [contradiction | cbn; lia]).
  split; [now destruct (chunks st)|].
  split; [rewrite map_app, length_app, seq_app, Hseq; cbn [map chunk_of chunk_index List.length seq plus];
          now rewrite Hidx|].
  split.
  { apply Forall_app. split; [exact Hwf|]. constructor; [|constructor].
    rewrite Hd. apply chunk_of_well_formed; assumption. }
  split.
  { apply StronglySorted_snoc; [exact Hsorted|].
    eapply Forall_impl; [|exact Hbd]. cbv beta. intros c [H1 H2].
    unfold moves_on. cbn [chunk_of startLine endLine]. lia. }
  intros k Hk.
  destruct (Z.lt_ge_cases k (start st)) as [Hlt|Hge].
  - apply covered_more. apply Hcov. lia.
  - apply Exists_app. right. constructor. cbn [chunk_of startLine endLine]. lia.
Qed.

(** With lines that fit beside the overlap, neither the chunk being
    filled nor a saved one outgrows [chunkSize]. *)
Lemma loop_within_size (lines : list string) :
  (forall line, In line lines ->
                (lineSize line + Z.max 0 (chunkOverlap cfg) <= chunkSize cfg)%Z) ->
  forall i st,
    (currentSize st <= chunkSize cfg)%Z ->
    (currentChunk st = [] -> currentSize st = 0%Z) ->
    Forall (fun c => (chunk_size c <= chunkSize cfg)%Z) (chunks st) ->
    let st' := loop cfg fileId fileName lines i st in
    (currentSize st' <= chunkSize cfg)%Z /\
    Forall (fun c => (chunk_size c <= chunkSize cfg)%Z) (chunks st').
Proof.
  induction lines as [|line rest IH]; intros Hfit i st Hcur Hempty Hall; cbn zeta.
  - cbn [loop]. auto.
  - cbn [loop].
    assert (Hline := Hfit line (or_introl eq_refl)).
    assert (Hrest : forall l, In l rest ->
                    (lineSize l + Z.max 0 (chunkOverlap cfg) <= chunkSize cfg)%Z)
      by (intros l Hl; apply Hfit; now right).
    destruct (Z.ltb_spec (chunkSize cfg) (currentSize st + lineSize line)) as [Hover|Hfits];
      cbn [andb].
    + destruct (currentChunk st) as [|l0 cur] eqn:Ecur; cbn [is_empty negb].
      * apply (IH Hrest); cbn [chunks currentChunk currentSize].
        -- rewrite (Hempty eq_refl). lia.
        -- intros H. apply app_eq_nil in H. destruct H as [_ H]. discriminate H.
        -- exact Hall.
      * destruct (overlap_from (chunkOverlap cfg) (rev (l0 :: cur)) [] 0)
          as [overlapLines overlapSize] eqn:Hov.
        destruct (overlap_from_suffix _ _ _ _ Hov) as (kept & _ & _ & Hle).
        apply (IH Hrest); cbn [chunks currentChunk currentSize].
        -- lia.
        -- intros H. apply app_eq_nil in H. destruct H as [_ H]. discriminate H.
        -- apply Forall_app. split; [exact Hall|]. constructor; [|constructor].
           cbn [chunk_of chunk_size]. exact Hcur.
    + apply (IH Hrest); cbn [chunks currentChunk currentSize].
      * destruct (is_empty (currentChunk st)); cbn [negb]; lia.
      * destruct (is_empty (currentChunk st)); cbn [negb];
          intros H; apply app_eq_nil in H; destruct H as [_ H]; discriminate H.
      * destruct (is_empty (currentChunk st)); exact Hall.
Qed.

End Chunks.

(** X28. [createChunks] returns at least one chunk, whatever the content.
    The chunks are numbered 0, 1, 2, ... in their order, and each holds a run
    of consecutive lines of the content that is not empty: the lines numbered
    from [startLine] to [endLine], joined by newlines as its content, with the
    sum of their lengths plus one for each as its size, the id
    [<fileId>_chunk_<index>] and the file name. *)
Theorem createChunks_line_ranges (cfg : Config) (content fileId fileName : string) :
  let lines := split_lines content [] in
  let cs := createChunks cfg content fileId fileName in
  cs <> [] /\
  map chunk_index cs = seq 0 (List.length cs) /\
  Forall (fun c =>
    exists mid, mid <> [] /\ holds_lines lines c mid /\
      chunk_content c = AIService.join AIService.newline mid /\
      chunk_size c = total_size mid /\
      chunk_id c = (fileId ++ "_chunk_" ++ decimal (chunk_index c))%string /\
      chunk_fileName c = fileName) cs.
Proof.
  intros lines cs.
  destruct (createChunks_inv cfg fileId fileName content) as (Hne & Hseq & Hwf & _).
  split; [exact Hne|]. split; [exact Hseq|]. exact Hwf.
Qed.

(** X29. Every line of the content lies in one of the chunks of
    [createChunks]; and from a chunk to the later ones the first line never
    moves back and the last line moves on. *)
Theorem createChunks_covers_every_line (cfg : Config) (content fileId fileName : string) :
  let lines := split_lines content [] in
  let cs := createChunks cfg content fileId fileName in
  (forall k, (0 <= k < Z.of_nat (List.length lines))%Z -> covered cs k) /\
  StronglySorted moves_on cs.
Proof.
  intros lines cs.
  destruct (createChunks_inv cfg fileId fileName content) as (_ & _ & _ & Hs & Hcov).
  split; [exact Hcov | exact Hs].
Qed.

(** X30. When every line of the content, with its newline and beside the
    overlap, fits in [chunkSize], no chunk of [createChunks] is larger than
    [chunkSize]. *)
Theorem createChunks_size_bound (cfg : Config) (content fileId fileName : string) :
  (forall line, In line (split_lines content []) ->
     (lineSize line + Z.max 0 (chunkOverlap cfg) <= chunkSize cfg)%Z) ->
  Forall (fun c => (chunk_size c <= chunkSize cfg)%Z)
         (createChunks cfg content fileId fileName).
Proof.
  intros Hfit. unfold createChunks.
  set (lines := split_lines content []) in *.
  set (st0 := {| chunks := []; currentChunk := []; currentSize := 0;
                 chunkIndex := 0; start := 0 |}).
  assert (Hpos : (0 <= chunkSize cfg)%Z).
  { destruct lines as [|l ls] eqn:E; [now destruct (split_lines_not_empty content [])|].
    specialize (Hfit l (or_introl eq_refl)). unfold lineSize in Hfit. lia. }
  destruct (loop_within_size cfg fileId fileName lines Hfit 0 st0) as [Hcur Hall];
    [exact Hpos | reflexivity | constructor |].
  destruct (is_empty (currentChunk (loop cfg fileId fileName lines 0 st0))); cbn [negb].
  - exact Hall.
  - apply Forall_app. split; [exact Hall|]. constructor; [|constructor]. exact Hcur.
Qed.

(** X30 on five lines, with chunks of 7 characters and an overlap of 3:
    the chunks stay within 7. *)
Lemma createChunks_size_bound_witness :
  Forall (fun c => (chunk_size c <= 7)%Z) (createChunks small_chunks five_lines "doc" "doc.md") /\
  map chunk_size (createChunks small_chunks five_lines "doc" "doc.md") = [6; 5; 6; 2]%Z /\
  map startLine (createChunks small_chunks five_lines "doc" "doc.md") = [0; 1; 2; 4]%Z.
Proof.
  split.
  - apply (createChunks_size_bound small_chunks five_lines "doc" "doc.md").
    intros line Hin. vm_compute in Hin.
    repeat (destruct Hin as [<-|Hin]; [vm_compute; discriminate|]). destruct Hin.
  - split; vm_compute; reflexivity.
Defined.
